(** * MakeAnArgument: the retrieval-augmented answer pipeline of
    [src/app/api/v1/main/route.ts], and the response normaliser of the
    sibling arXiv helper ([processArxivResponse]).

    The route handler [GET] threads one request through five stages:
    keyword extraction, the arXiv fetch, indexing into the vector index,
    the similarity search and the answer generation.  Every stage talks to
    an outside service; the services are kept abstract (class [Services])
    and every call the handler makes is recorded in a trace, so that the
    order of the stages can be stated and proved. *)

From Stdlib Require Import String Ascii List Arith Bool Lia Sorted.
Import ListNotations.
Local Open Scope string_scope.
Local Open Scope list_scope.

Set Implicit Arguments.

(** ** JavaScript values

    What [xml2js] (with [explicitArray: false]) hands back, and what the
    handler stores in and reads from the index metadata: strings, arrays,
    objects, and [undefined] for whatever is absent. *)

#[local] Set Warnings "-register-all".

Inductive JsVal : Type :=
| JUndefined
| JString (s : string)
| JArray (items : list JsVal)
| JObject (fields : list (string * JsVal)).

Inductive Exn : Type :=
| TypeError (reading : string)   (* Cannot read properties of undefined *)
| Error (message : string).

Inductive Result (A : Type) : Type :=
| Ok (a : A)
| Throw (e : Exn).

Arguments Ok {A} a.
Arguments Throw {A} e.

Definition is_ok {A} (r : Result A) : bool :=
  match r with Ok _ => true | Throw _ => false end.

(** [mapM f xs]: [xs.map(f)] for a callback that may throw; the first throw
    ends the loop. *)
Fixpoint mapM {A B} (f : A -> Result B) (xs : list A) : Result (list B) :=
  match xs with
  | [] => Ok []
  | x :: rest =>
      match f x with
      | Throw e => Throw e
      | Ok y =>
          match mapM f rest with
          | Throw e => Throw e
          | Ok ys => Ok (y :: ys)
          end
      end
  end.

(** The value of key [k] in an object, [undefined] when the object has no
    such key (the parser gives each key once). *)
Fixpoint lookup (k : string) (fields : list (string * JsVal)) : JsVal :=
  match fields with
  | [] => JUndefined
  | (k', v) :: rest => if String.eqb k k' then v else lookup k rest
  end.

(** [v.k].  Reading a property of [undefined] throws.  The keys the code
    reads ([feed], [entry], [id], [title], [summary], [author], [name],
    [category], [$], [term], [published], [link], [href]) are no properties
    of an array, and none of a string but [link], which a string inherits;
    [processArxivResponse] reads the [link] of an entry only after its
    [author.name], and that throws for an entry that is a string. *)
Definition get (v : JsVal) (k : string) : Result JsVal :=
  match v with
  | JUndefined => Throw (TypeError k)
  | JObject fields => Ok (lookup k fields)
  | JString _ | JArray _ => Ok JUndefined
  end.

Definition isArray (v : JsVal) : bool :=
  match v with JArray _ => true | _ => false end.

(** Truthiness, as [!entries] tests it. *)
Definition truthy (v : JsVal) : bool :=
  match v with
  | JUndefined => false
  | JString s => negb (String.eqb s EmptyString)
  | JArray _ | JObject _ => true
  end.

(** [xs.join(sep)]: an [undefined] element prints as nothing. *)
Definition join_by (str : JsVal -> string) (sep : string)
  : list JsVal -> string :=
  fix go (xs : list JsVal) : string :=
    match xs with
    | [] => EmptyString
    | x :: rest =>
        let item := match x with JUndefined => EmptyString | _ => str x end in
        match rest with
        | [] => item
        | _ :: _ => (item ++ sep ++ go rest)%string
        end
    end.

(** [String(v)], the conversion a template literal applies. *)
Fixpoint toString (v : JsVal) : string :=
  match v with
  | JUndefined => "undefined"
  | JString s => s
  | JArray xs => join_by toString "," xs
  | JObject _ => "[object Object]"
  end.

Definition join (sep : string) (xs : list JsVal) : string :=
  join_by toString sep xs.

(** [lines.join(sep)] for strings. *)
Fixpoint join_strings (sep : string) (xs : list string) : string :=
  match xs with
  | [] => EmptyString
  | x :: rest =>
      match rest with
      | [] => x
      | _ :: _ => (x ++ sep ++ join_strings sep rest)%string
      end
  end.

Definition nl : string := String (ascii_of_nat 10) EmptyString.
Definition dq : string := String (ascii_of_nat 34) EmptyString.

(** ** Records exchanged with the services *)

Record HttpResponse : Type := {
  ok : bool;
  statusText : string;
  text : Result string
}.

(** The metadata written with each record, and read back from a match. *)
Record Metadata : Type := {
  md_title : JsVal;
  md_abstract : JsVal;
  md_authors : JsVal;
  md_categories : JsVal;
  md_published : JsVal
}.

Record IndexRecord (E : Type) : Type := {
  rec_id : JsVal;
  rec_values : E;
  rec_metadata : Metadata
}.

Record QueryRequest (E : Type) : Type := {
  vector : E;
  topK : nat;
  includeMetadata : bool;
  includeValues : bool
}.

(** One match of a query: the score and the metadata may be absent. *)
Record ScoredRecord (N : Type) : Type := {
  match_score : option N;
  match_metadata : option Metadata
}.

Record RelevantPaper (N : Type) : Type := {
  title : JsVal;
  abstract : JsVal;
  authors : JsVal;
  categories : JsVal;
  published : JsVal;
  similarity : option N
}.

(** The outside services.  [World] is the state of everything outside the
    handler (the model provider, arXiv, the vector index); a call reads and
    changes it and either returns or rejects.  [generateContent] stands for
    [chatModel.generateContent(prompt)] followed by [response.text()],
    [embedContent] for [embeddingModel.embedContent(content)] followed by
    the copy of [embedding.values], [fetch] for the request with the body
    text of its response, [index_upsert] and [index_query] for the two
    calls on the index [arxiv-papers].  What [console.log] and
    [console.error] print is left out. *)
Class Services : Type := {
  World : Type;
  Embedding : Type;
  Number : Type;
  toFixed : Number -> nat -> string;
  encodeURIComponent : string -> string;
  parseStringPromise : string -> Result JsVal;
  fetch : string -> World -> Result HttpResponse * World;
  generateContent : string -> World -> Result string * World;
  embedContent : JsVal -> World -> Result Embedding * World;
  index_upsert : list (IndexRecord Embedding) -> World -> Result unit * World;
  index_query : QueryRequest Embedding -> World
                -> Result (list (ScoredRecord Number)) * World
}.

(** ** The handler's bookkeeping: stages, calls, the trace *)

Inductive Stage : Type :=
| Interpret
| Fetch
| Index
| Search
| GroundedSynthesize
| FallbackSynthesize.

(** The body of a response of the route. *)
Inductive Body : Type :=
| AnswerBody (answer : string) (keywords : string) (papers : list JsVal)
| ErrorBody (error : string).

Record NextResponse : Type := {
  status : nat;
  body : Body
}.

Section Pipeline.

Context {SV : Services}.

(** A call to a service, as the handler issues it. *)
Inductive Call : Type :=
| CGenerate (prompt : string)
| CFetch (url : string)
| CEmbed (content : JsVal)
| CUpsert (records : list (IndexRecord Embedding))
| CQuery (request : QueryRequest Embedding).

(** A call is issued, and later settles: fulfilled ([true]) or rejected. *)
Inductive Event : Type :=
| Issued (stage : Stage) (c : Call)
| Settled (stage : Stage) (c : Call) (fulfilled : bool).

Record St : Type := {
  world : World;
  trace : list Event
}.

Definition log (evs : list Event) (s : St) : St :=
  {| world := world s; trace := trace s ++ evs |}.

(** An [async] function body: it reads and changes the state, and returns
    or throws. *)
Definition M (A : Type) : Type := St -> Result A * St.

Definition ret {A} (a : A) : M A := fun s => (Ok a, s).

Definition throw {A} (e : Exn) : M A := fun s => (Throw e, s).

Definition bind {A B} (m : M A) (k : A -> M B) : M B :=
  fun s =>
    match m s with
    | (Ok a, s') => k a s'
    | (Throw e, s') => (Throw e, s')
    end.

Definition lift {A} (r : Result A) : M A := fun s => (r, s).

(** [await op(...)]: the call is issued and the caller resumes when it has
    settled. *)
Definition await {A} (stage : Stage) (c : Call)
  (op : World -> Result A * World) : M A :=
  fun s =>
    let (r, w) := op (world s) in
    (r, {| world := w;
           trace := trace s ++ [Issued stage c; Settled stage c (is_ok r)] |}).

End Pipeline.

Notation "x <- m ;; k" := (bind m (fun x => k))
  (at level 61, m at next level, right associativity).

(** ** The stages of [route.ts] *)

Section Stages.

Context {SV : Services}.

(** *** [extractKeywords] *)

Definition extractKeywords_prompt (query : string) : string :=
  ("Extract 3-5 key terms or phrases from the following question and format them in the arXiv API query style: all:"
   ++ dq ++ "term1" ++ dq ++ " OR all:" ++ dq ++ "term2" ++ dq
   ++ " and so on. Ensure the output follows this exact format."
   ++ nl ++ nl
   ++ "Question: " ++ query)%string.

Definition extractKeywords (query : string) : M string :=
  let prompt := extractKeywords_prompt query in
  await Interpret (CGenerate prompt) (generateContent prompt).

(** *** [fetchArxivPapers] *)

Definition baseURL : string := "http://export.arxiv.org/api/query".

Definition fetch_query (keywords : string) : list (string * string) :=
  [ ("search_query", keywords);
    ("start", "0");
    ("max_results", "10");
    ("sortBy", "relevance");
    ("sortOrder", "descending") ].

Definition queryString (keywords : string) : string :=
  join_strings "&"
    (map (fun kv => (fst kv ++ "=" ++ encodeURIComponent (snd kv))%string)
       (fetch_query keywords)).

(** Lines 94 to 100: [result.feed.entry], nothing when it is falsy, the
    array itself when it is one, a one-element array otherwise. *)
Definition feed_entries (result : JsVal) : Result (list JsVal) :=
  match get result "feed" with
  | Throw e => Throw e
  | Ok feed =>
      match get feed "entry" with
      | Throw e => Throw e
      | Ok entries =>
          if negb (truthy entries) then Ok []
          else Ok (match entries with
                   | JArray items => items
                   | _ => [entries]
                   end)
      end
  end.

Definition fetchArxivPapers (keywords : string) : M (list JsVal) :=
  let url := (baseURL ++ "?" ++ queryString keywords)%string in
  response <- await Fetch (CFetch url) (fetch url) ;;
  if negb (ok response)
  then throw (Error ("Failed to fetch data: " ++ statusText response))
  else
    xml <- lift (text response) ;;
    result <- lift (parseStringPromise xml) ;;
    lift (feed_entries result).

(** *** [upsertToPinecone] *)

(** Lines 111 to 116. *)
Definition paper_categories (paper : JsVal) : Result JsVal :=
  match get paper "category" with
  | Throw e => Throw e
  | Ok category =>
      match category with
      | JArray items =>
          match mapM (fun c => match get c "$" with
                               | Throw e => Throw e
                               | Ok attrs => get attrs "term"
                               end) items with
          | Throw e => Throw e
          | Ok terms => Ok (JArray terms)
          end
      | _ =>
          match get category "$" with
          | Throw e => Throw e
          | Ok attrs => get attrs "term"
          end
      end
  end.

(** Line 125. *)
Definition paper_authors (paper : JsVal) : Result JsVal :=
  match get paper "author" with
  | Throw e => Throw e
  | Ok author =>
      match author with
      | JArray items =>
          match mapM (fun a => get a "name") items with
          | Throw e => Throw e
          | Ok names => Ok (JString (join ", " names))
          end
      | _ => get author "name"
      end
  end.

(** The record of lines 119 to 129, built once the embedding is there. *)
Definition build_record (paper : JsVal) (embedding : Embedding)
  : Result (IndexRecord Embedding) :=
  match paper_categories paper with
  | Throw e => Throw e
  | Ok cats =>
  match get paper "id" with
  | Throw e => Throw e
  | Ok pid =>
  match get paper "title" with
  | Throw e => Throw e
  | Ok ptitle =>
  match get paper "summary" with
  | Throw e => Throw e
  | Ok psummary =>
  match paper_authors paper with
  | Throw e => Throw e
  | Ok pauthors =>
  match get paper "published" with
  | Throw e => Throw e
  | Ok ppublished =>
      Ok {| rec_id := pid;
            rec_values := embedding;
            rec_metadata := {| md_title := ptitle;
                               md_abstract := psummary;
                               md_authors := pauthors;
                               md_categories := cats;
                               md_published := ppublished |} |}
  end end end end end end.

(** One promise of [upsertPromises]: where the callback of [papers.map]
    stands for one paper. *)
Inductive Task : Type :=
| AwaitEmbed (paper : JsVal) (content : JsVal)
| AwaitUpsert (record : IndexRecord Embedding)
| Fulfilled
| Rejected (e : Exn).

(** The callback runs up to its first [await]: [paper.summary] is read and
    [embedContent] is called. *)
Definition start_task (paper : JsVal) (s : St) : Task * St :=
  match get paper "summary" with
  | Throw e => (Rejected e, s)
  | Ok content =>
      (AwaitEmbed paper content, log [Issued Index (CEmbed content)] s)
  end.

Fixpoint start_all (papers : list JsVal) (s : St) : list Task * St :=
  match papers with
  | [] => ([], s)
  | paper :: rest =>
      let (t, s1) := start_task paper s in
      let (ts, s2) := start_all rest s1 in
      (t :: ts, s2)
  end.

(** The call a task waits for settles, and the callback runs on to its next
    [await] or to its end. *)
Definition settle (t : Task) (s : St) : Task * St :=
  match t with
  | AwaitEmbed paper content =>
      let (r, w) := embedContent content (world s) in
      let s1 := {| world := w;
                   trace := trace s ++ [Settled Index (CEmbed content) (is_ok r)] |} in
      match r with
      | Throw e => (Rejected e, s1)
      | Ok embedding =>
          match build_record paper embedding with
          | Throw e => (Rejected e, s1)
          | Ok record =>
              (AwaitUpsert record, log [Issued Index (CUpsert [record])] s1)
          end
      end
  | AwaitUpsert record =>
      let (r, w) := index_upsert [record] (world s) in
      let s1 := {| world := w;
                   trace := trace s ++ [Settled Index (CUpsert [record]) (is_ok r)] |} in
      (match r with Throw e => Rejected e | Ok _ => Fulfilled end, s1)
  | Fulfilled => (Fulfilled, s)
  | Rejected e => (Rejected e, s)
  end.

Fixpoint first_rejection (ts : list Task) : option Exn :=
  match ts with
  | [] => None
  | Rejected e :: _ => Some e
  | _ :: rest => first_rejection rest
  end.

Fixpoint set_nth (i : nat) (t : Task) (ts : list Task) : list Task :=
  match ts, i with
  | [], _ => []
  | _ :: rest, O => t :: rest
  | t0 :: rest, S j => t0 :: set_nth j t rest
  end.

(** The event loop while [GET] waits on [Promise.all]: the outside world
    settles the pending calls in the order [sched] names their papers.
    [Promise.all] rejects with the first rejection, and [GET] resumes then;
    the calls still pending are left as they are (what becomes of them
    once the step has ended is [run_detached] below). *)
Fixpoint run_schedule (sched : list nat) (ts : list Task) (s : St)
  : list Task * St :=
  match sched with
  | [] => (ts, s)
  | i :: rest =>
      match first_rejection ts with
      | Some _ => (ts, s)
      | None =>
          match nth_error ts i with
          | None => run_schedule rest ts s
          | Some t =>
              let (t', s') := settle t s in
              run_schedule rest (set_nth i t' ts) s'
          end
      end
  end.

(** Every call settles in the end: what [sched] leaves pending settles in
    the order of the papers (each task waits for two calls at most). *)
Definition full_schedule (n : nat) (sched : list nat) : list nat :=
  sched ++ seq 0 n ++ seq 0 n.

Definition index_run (papers : list JsVal) (sched : list nat) (s : St)
  : list Task * St :=
  let (ts, s0) := start_all papers s in
  run_schedule (full_schedule (length papers) sched) ts s0.

Definition upsertToPinecone (papers : list JsVal) (sched : list nat)
  : M unit :=
  fun s =>
    let (ts, s1) := index_run papers sched s in
    match first_rejection ts with
    | Some e => (Throw e, s1)
    | None => (Ok tt, s1)
    end.

(** *** [performVectorSearch] *)

Definition search_request (questionEmbedding : Embedding)
  : QueryRequest Embedding :=
  {| vector := questionEmbedding;
     topK := 5;
     includeMetadata := true;
     includeValues := true |}.

(** [match.metadata && match.score !== undefined] *)
Definition usable (m : ScoredRecord Number) : bool :=
  match match_metadata m with
  | None => false
  | Some _ =>
      match match_score m with
      | None => false
      | Some _ => true
      end
  end.

(** The callback of [.map]: [match.metadata!.title] throws when the metadata
    is absent; the score is copied as it is. *)
Definition to_relevant (m : ScoredRecord Number)
  : Result (RelevantPaper Number) :=
  match match_metadata m with
  | None => Throw (TypeError "title")
  | Some md =>
      Ok {| title := md_title md;
            abstract := md_abstract md;
            authors := md_authors md;
            categories := md_categories md;
            published := md_published md;
            similarity := match_score m |}
  end.

Definition select_matches (matches : list (ScoredRecord Number))
  : Result (list (RelevantPaper Number)) :=
  mapM to_relevant (filter usable matches).

Definition performVectorSearch (query : string)
  : M (list (RelevantPaper Number)) :=
  questionEmbedding <-
    await Search (CEmbed (JString query)) (embedContent (JString query)) ;;
  matches <-
    await Search (CQuery (search_request questionEmbedding))
      (index_query (search_request questionEmbedding)) ;;
  lift (select_matches matches).

(** *** [generateAnswer] *)

(** The text of one paper in the context; [toFixed] of an absent score
    throws. *)
Definition context_block (paper : RelevantPaper Number) : Result string :=
  match similarity paper with
  | None => Throw (TypeError "toFixed")
  | Some score =>
      Ok ("Title: " ++ toString (title paper) ++ nl
          ++ "Authors: " ++ toString (authors paper) ++ nl
          ++ "Categories: " ++ toString (categories paper) ++ nl
          ++ "Published: " ++ toString (published paper) ++ nl
          ++ "Similarity: " ++ toFixed score 4 ++ nl
          ++ "Abstract: " ++ toString (abstract paper))%string
  end.

Definition answer_context (relevantPapers : list (RelevantPaper Number))
  : Result string :=
  match mapM context_block relevantPapers with
  | Throw e => Throw e
  | Ok blocks => Ok (join_strings (nl ++ nl) blocks)
  end.

Definition answer_head (query : string) : string :=
  ("You are an AI research assistant specializing in machine learning and time series forecasting. Answer the following question based on the provided research paper summaries. If the information is not sufficient, say so, but try to provide insights from what is available."
   ++ nl ++ nl
   ++ "Question: " ++ dq ++ query ++ dq
   ++ nl ++ nl
   ++ "Context (summaries of relevant papers, ordered by relevance):"
   ++ nl)%string.

Definition answer_instructions : string :=
  (nl ++ nl
   ++ "Instructions:" ++ nl
   ++ "1. Synthesize information from the provided papers to answer the question." ++ nl
   ++ "2. Highlight any conflicting findings or perspectives from different papers." ++ nl
   ++ "3. Mention any limitations or gaps in the current research related to the question." ++ nl
   ++ "4. Suggest potential areas for further research based on the findings." ++ nl
   ++ "5. Do not mention specific papers by title in your response, but integrate their insights." ++ nl
   ++ "6. If you don't find enough relevant info, provide a general concise answer based on your understanding of the question." ++ nl
   ++ "7. If you cannot provide an answer based on the provided context, give a general answer based on your understanding of the question." ++ nl
   ++ "8. Don't repeat the question in your response."
   ++ nl ++ nl
   ++ "Please provide a clear, concise, and informative answer:")%string.

Definition answer_prompt (query : string) (context : string) : string :=
  (answer_head query ++ context ++ answer_instructions)%string.

Definition generateAnswer (query : string)
  (relevantPapers : list (RelevantPaper Number)) : M string :=
  context <- lift (answer_context relevantPapers) ;;
  await GroundedSynthesize (CGenerate (answer_prompt query context))
    (generateContent (answer_prompt query context)).

(** *** [generateNoResultsAnswer] *)

Definition noResults_prompt (query : string) : string :=
  ("You are an AI research assistant. The following question was asked, but no relevant arXiv papers were found. Please provide a general response based on your knowledge:"
   ++ nl ++ nl
   ++ "Question: " ++ dq ++ query ++ dq
   ++ nl ++ nl
   ++ "Instructions:" ++ nl
   ++ "1. Provide a brief, informative answer to the question based on general knowledge." ++ nl
   ++ "2. Mention that no specific arXiv papers were found for this query." ++ nl
   ++ "3. Suggest some related topics or areas that the user might want to explore instead." ++ nl
   ++ "4. Don't repeat the question in your response."
   ++ nl ++ nl
   ++ "Please provide a clear and helpful response:")%string.

Definition generateNoResultsAnswer (query : string) : M string :=
  await FallbackSynthesize (CGenerate (noResults_prompt query))
    (generateContent (noResults_prompt query)).

(** *** [GET] *)

(** [searchParams.get('query') || "Can cows grow"] *)
Definition userQuery_of (param : option string) : string :=
  match param with
  | None => "Can cows grow"
  | Some q => if String.eqb q EmptyString then "Can cows grow" else q
  end.

Definition failure_response : NextResponse :=
  {| status := 500;
     body := ErrorBody "An error occurred while processing the request" |}.

Definition json (b : Body) : NextResponse := {| status := 200; body := b |}.

(** The body of the [try] block.  [sched] is the order in which the outside
    world settles the calls of the indexing step.  The trace ends where
    the handler returns. *)
Definition GET_try (param : option string) (sched : list nat)
  : M NextResponse :=
  let userQuery := userQuery_of param in
  keywords <- extractKeywords userQuery ;;
  papers <- fetchArxivPapers keywords ;;
  if Nat.eqb (length papers) 0
  then
    noResultsAnswer <- generateNoResultsAnswer userQuery ;;
    ret (json (AnswerBody noResultsAnswer keywords []))
  else
    _ <- upsertToPinecone papers sched ;;
    relevantPapers <- performVectorSearch userQuery ;;
    answer <- generateAnswer userQuery relevantPapers ;;
    ret (json (AnswerBody answer keywords papers)).

Definition GET (param : option string) (sched : list nat) (s : St)
  : NextResponse * St :=
  match GET_try param sched s with
  | (Ok response, s') => (response, s')
  | (Throw _, s') => (failure_response, s')
  end.

End Stages.

(** ** The indexing callbacks after [Promise.all] has rejected

    [Promise.all] rejects with the first rejection and [GET] returns: the
    trace of [GET] ends there.  Nothing cancels the callbacks of the other
    papers, though.  When the call one of them waits for settles, the
    callback runs on as [settle] has it, and issues its upsert; the
    response is out by then and is not changed.  [late] is the order in
    which those calls settle once the step has ended. *)

Section Detached.

Context {SV : Services}.

Fixpoint run_detached (late : list nat) (ts : list Task) (s : St)
  : list Task * St :=
  match late with
  | [] => (ts, s)
  | i :: rest =>
      match nth_error ts i with
      | None => run_detached rest ts s
      | Some t =>
          let (t', s') := settle t s in
          run_detached rest (set_nth i t' ts) s'
      end
  end.

Definition index_run_detached (papers : list JsVal) (sched late : list nat)
  (s : St) : list Task * St :=
  let (ts, s1) := index_run papers sched s in
  run_detached late ts s1.

(** The callbacks of [papers.map] that a request has started, as they
    stand when [GET] returns: none when the request did not come to the
    indexing. *)
Definition GET_tasks (param : option string) (sched : list nat) (s : St)
  : list Task :=
  match extractKeywords (userQuery_of param) s with
  | (Throw _, _) => []
  | (Ok keywords, s1) =>
      match fetchArxivPapers keywords s1 with
      | (Throw _, _) => []
      | (Ok papers, s2) =>
          if Nat.eqb (length papers) 0 then []
          else fst (index_run papers sched s2)
      end
  end.

(** The state once [GET] has returned and the calls it left pending have
    settled, in the order [late]. *)
Definition GET_detached (param : option string) (sched late : list nat)
  (s : St) : St :=
  snd (run_detached late (GET_tasks param sched s) (snd (GET param sched s))).

End Detached.

(** ** [processArxivResponse], the normaliser of the arXiv helper *)

Record ArxivSummary : Type := {
  as_id : JsVal;
  as_title : JsVal;
  as_summary : JsVal;
  as_authors : JsVal;
  as_link : JsVal
}.

(** The callback of [entries.map], lines 37 to 45. *)
Definition summarise_entry (entry : JsVal) : Result ArxivSummary :=
  match get entry "id" with
  | Throw e => Throw e
  | Ok eid =>
  match get entry "title" with
  | Throw e => Throw e
  | Ok etitle =>
  match get entry "summary" with
  | Throw e => Throw e
  | Ok esummary =>
  match get entry "author" with
  | Throw e => Throw e
  | Ok author =>
  match (match author with
         | JArray items =>
             match mapM (fun a => get a "name") items with
             | Throw e => Throw e
             | Ok names => Ok (JString (join ", " names))
             end
         | _ => get author "name"
         end) with
  | Throw e => Throw e
  | Ok eauthors =>
  match get entry "link" with
  | Throw e => Throw e
  | Ok link =>
  match get link "$" with
  | Throw e => Throw e
  | Ok attrs =>
  match get attrs "href" with
  | Throw e => Throw e
  | Ok href =>
      Ok {| as_id := eid; as_title := etitle; as_summary := esummary;
            as_authors := eauthors; as_link := href |}
  end end end end end end end end.

Definition processArxivResponse (result : JsVal)
  : Result (list ArxivSummary) :=
  match get result "feed" with
  | Throw e => Throw e
  | Ok feed =>
      match get feed "entry" with
      | Throw e => Throw e
      | Ok entry =>
          if negb (truthy entry) then Ok []
          else mapM summarise_entry
                 (match entry with
                  | JArray items => items
                  | _ => [entry]
                  end)
      end
  end.

(** ** [fetchArxivPapers] of the arXiv helper

    The helper quotes the whole question as one phrase and asks for five
    results; the text of the query string is left to [URLSearchParams]. *)

Module ArxivLib.

Section Helper.

Context {SV : Services}.

(** [new URLSearchParams(searchQuery).toString()] *)
Variable searchParams_toString : list (string * string) -> string.

Definition BASE_URL : string := "http://export.arxiv.org/api/query".

Definition searchQuery (query : string) : list (string * string) :=
  [ ("search_query", ("all:" ++ dq ++ query ++ dq)%string);
    ("start", "0");
    ("max_results", "5");
    ("sortBy", "relevance");
    ("sortOrder", "descending") ].

Definition fetchArxivPapers (query : string) : M (list ArxivSummary) :=
  let url := (BASE_URL ++ "?" ++ searchParams_toString (searchQuery query))%string in
  response <- await Fetch (CFetch url) (fetch url) ;;
  if negb (ok response)
  then throw (Error "ArXiv API request failed")
  else
    xml <- lift (text response) ;;
    result <- lift (parseStringPromise xml) ;;
    lift (processArxivResponse result).

End Helper.

End ArxivLib.

(** ** The search page ([ResearchSearch])

    The state of the component, [handleSearch] and [handleSubmit], and
    what the component renders.  The page talks to the route above: the
    JSON it reads is a [Body]. *)

Module Page.

(** What [fetch] gives the page: the status and the JSON of the body. *)
Record Reply : Type := {
  reply_status : nat;
  reply_json : Result Body
}.

(** [response.ok]: a status from 200 to 299. *)
Definition reply_ok (r : Reply) : bool :=
  Nat.leb 200 (reply_status r) && Nat.leb (reply_status r) 299.

(** The five [useState] cells. *)
Record Ui : Type := {
  ui_query : string;
  ui_result : option Body;
  ui_loading : bool;
  ui_error : option string;
  ui_mounted : bool
}.

Definition initial : Ui :=
  {| ui_query := EmptyString;
     ui_result := None;
     ui_loading := false;
     ui_error := None;
     ui_mounted := false |}.

(** The effect that runs once after the first render. *)
Definition mount (ui : Ui) : Ui :=
  {| ui_query := ui_query ui;
     ui_result := ui_result ui;
     ui_loading := ui_loading ui;
     ui_error := ui_error ui;
     ui_mounted := true |}.

(** [onChange] of the input. *)
Definition setQuery (value : string) (ui : Ui) : Ui :=
  {| ui_query := value;
     ui_result := ui_result ui;
     ui_loading := ui_loading ui;
     ui_error := ui_error ui;
     ui_mounted := ui_mounted ui |}.

Definition failure_message : string :=
  "An error occurred while processing your request. Please try again.".

(** [handleSearch] up to its [await fetch(...)]. *)
Definition search_started (searchQuery : string) (ui : Ui) : Ui :=
  {| ui_query := searchQuery;
     ui_result := ui_result ui;
     ui_loading := true;
     ui_error := None;
     ui_mounted := ui_mounted ui |}.

(** The [catch] block. *)
Definition search_failed (ui : Ui) : Ui :=
  {| ui_query := ui_query ui;
     ui_result := None;
     ui_loading := ui_loading ui;
     ui_error := Some failure_message;
     ui_mounted := ui_mounted ui |}.

(** The [finally] block. *)
Definition search_done (ui : Ui) : Ui :=
  {| ui_query := ui_query ui;
     ui_result := ui_result ui;
     ui_loading := false;
     ui_error := ui_error ui;
     ui_mounted := ui_mounted ui |}.

(** [handleSearch] from the moment the request settles: [reply] is what
    [fetch] gave, or its rejection. *)
Definition search_settled (reply : Result Reply) (ui : Ui) : Ui :=
  search_done
    match reply with
    | Throw _ => search_failed ui
    | Ok response =>
        if negb (reply_ok response) then search_failed ui
        else
          match reply_json response with
          | Throw _ => search_failed ui
          | Ok data =>
              {| ui_query := ui_query ui;
                 ui_result := Some data;
                 ui_loading := ui_loading ui;
                 ui_error := ui_error ui;
                 ui_mounted := ui_mounted ui |}
          end
    end.

(** One search from its start to its end with nothing in between; what
    happens when searches overlap is [run] below. *)
Definition handleSearch (searchQuery : string) (reply : Result Reply)
  (ui : Ui) : Ui :=
  search_settled reply (search_started searchQuery ui).

(** [handleSubmit]: the search of what the input holds. *)
Definition handleSubmit (reply : Result Reply) (ui : Ui) : Ui :=
  handleSearch (ui_query ui) reply ui.

(** The address [handleSearch] requests. *)
Definition request_url {SV : Services} (searchQuery : string) : string :=
  ("/api/v1/main?query=" ++ encodeURIComponent searchQuery)%string.

(** [s.split(sep)] for a separator of one character. *)
Fixpoint split (sep : ascii) (s : string) : list string :=
  match s with
  | EmptyString => [EmptyString]
  | String c rest =>
      if Ascii.eqb c sep then EmptyString :: split sep rest
      else
        match split sep rest with
        | [] => [String c EmptyString]
        | part :: parts => String c part :: parts
        end
  end.

(** [parts.pop()]: the last element, [undefined] of an empty array. *)
Definition pop (parts : list string) : JsVal :=
  match parts with
  | [] => JUndefined
  | _ :: _ => JString (last parts EmptyString)
  end.

Definition slash : ascii := ascii_of_nat 47.

Record PaperLink : Type := {
  href : string;
  link_title : JsVal
}.

(** One link of the list: [paper.id.split('/').pop()] throws when the id
    is absent or is no string. *)
Definition paper_link (paper : JsVal) : Result PaperLink :=
  match get paper "id" with
  | Throw e => Throw e
  | Ok (JString pid) =>
      match get paper "title" with
      | Throw e => Throw e
      | Ok ptitle =>
          Ok {| href := ("https://arxiv.org/abs/"
                         ++ toString (pop (split slash pid)))%string;
                link_title := ptitle |}
      end
  | Ok _ => Throw (TypeError "split")
  end.

Record ResultCard : Type := {
  card_answer : option string;
  card_links : list PaperLink
}.

(** [result.answer] and the links of [result.papers]; no list for an
    absent or empty [papers]. *)
Definition result_card (data : Body) : Result ResultCard :=
  match data with
  | AnswerBody answer _ papers =>
      match mapM paper_link papers with
      | Throw e => Throw e
      | Ok links => Ok {| card_answer := Some answer; card_links := links |}
      end
  | ErrorBody _ => Ok {| card_answer := None; card_links := [] |}
  end.

(** What the component shows besides the heading, the sample questions
    and the input. *)
Record View : Type := {
  input_value : string;
  button_disabled : bool;
  button_label : string;
  skeleton : bool;
  error_card : option string;
  answer_card : option ResultCard
}.

(** The render function: nothing before the component is mounted; the
    skeleton while loading, the error card for a non-empty error, the
    result card for a result when not loading. *)
Definition render (ui : Ui) : Result (option View) :=
  if negb (ui_mounted ui) then Ok None
  else
    match (match ui_result ui with
           | Some data =>
               if ui_loading ui then Ok None
               else match result_card data with
                    | Throw e => Throw e
                    | Ok card => Ok (Some card)
                    end
           | None => Ok None
           end) with
    | Throw e => Throw e
    | Ok card =>
        Ok (Some {| input_value := ui_query ui;
                    button_disabled := ui_loading ui;
                    button_label := if ui_loading ui then "Searching..."
                                    else "Search";
                    skeleton := ui_loading ui;
                    error_card :=
                      match ui_error ui with
                      | Some message =>
                          if String.eqb message EmptyString then None
                          else Some message
                      | None => None
                      end;
                    answer_card := card |})
    end.

(** The reply the page gets when the route answers with [response]. *)
Definition served (response : NextResponse) : Reply :=
  {| reply_status := status response; reply_json := Ok (body response) |}.

(** *** Searches that overlap

    Nothing holds a search back while another one is pending: a sample
    card calls [handleSearch] whatever [loading] is, and [handleSubmit]
    does not look at it either (only the disabled button holds the form
    back).  A session is the state of the component together with the
    questions of the requests in flight, in the order they were sent.
    What happens to it: the user types, clicks the sample card at some
    position, submits the form, or one of the requests in flight
    settles.  The state updates of [handleSearch] before its [await] and
    after it are the two halves [search_started] and [search_settled]:
    they only set state, and read none. *)

Definition sampleQuestions : list (string * string) :=
  [ ("BERT Fine-tuning for Domain Texts",
     "What are the best fine-tuning techniques for BERT models on domain-specific corpora like medical or legal text?");
    ("GANs for Data Augmentation",
     "How can generative adversarial networks (GANs) be used for data augmentation?");
    ("Attention vs ARIMA Models",
     "What are the benefits of attention-based models over traditional ARIMA in stock price prediction?") ].

Record Session : Type := {
  ui : Ui;
  in_flight : list string
}.

Inductive Action : Type :=
| Typed (value : string)
| Clicked (card : nat)
| Submitted
| Replied (request : nat) (reply : Result Reply).

Fixpoint remove_nth {A} (i : nat) (l : list A) : list A :=
  match l, i with
  | [], _ => []
  | _ :: rest, O => rest
  | x :: rest, S j => x :: remove_nth j rest
  end.

(** [handleSearch] up to its [await]: the request is sent. *)
Definition start (searchQuery : string) (p : Session) : Session :=
  {| ui := search_started searchQuery (ui p);
     in_flight := in_flight p ++ [searchQuery] |}.

(** Before the component is mounted it renders nothing, so nothing can be
    typed or clicked. *)
Definition step (a : Action) (p : Session) : Session :=
  if negb (ui_mounted (ui p)) then p
  else
    match a with
    | Typed value => {| ui := setQuery value (ui p); in_flight := in_flight p |}
    | Clicked card =>
        match nth_error sampleQuestions card with
        | None => p
        | Some item => start (snd item) p
        end
    | Submitted => start (ui_query (ui p)) p
    | Replied request reply =>
        match nth_error (in_flight p) request with
        | None => p
        | Some _ =>
            {| ui := search_settled reply (ui p);
               in_flight := remove_nth request (in_flight p) |}
        end
    end.

Fixpoint run (acts : list Action) (p : Session) : Session :=
  match acts with
  | [] => p
  | a :: rest => run rest (step a p)
  end.

(** The page once its effect has run, with nothing typed or asked yet. *)
Definition fresh : Session := {| ui := mount initial; in_flight := [] |}.

(** What the result of a reply is for the page: the data of a successful
    response whose body can be read, nothing otherwise. *)
Definition reply_data (reply : Result Reply) : option Body :=
  match reply with
  | Throw _ => None
  | Ok response =>
      if negb (reply_ok response) then None
      else match reply_json response with
           | Throw _ => None
           | Ok data => Some data
           end
  end.

End Page.

(** ** A concrete set of services, to run the handler on

    arXiv answers with the document [arxiv_xml] names, the model extracts
    the same keywords from every question and returns [completion] for
    every other prompt, the embedder rejects a content that is not a
    string, the index accepts [upserts_left] more writes and answers every
    query with [index_answer]. *)

Module Demo.

Record env : Type := {
  arxiv_xml : string;
  completion : string;
  index_answer : list (ScoredRecord nat);
  stored : list (IndexRecord nat);
  upserts_left : nat
}.

Definition digit (n : nat) : string :=
  String (ascii_of_nat (48 + n mod 10)) EmptyString.

(** Scores are counted in ten-thousandths: [4134] prints as [0.4134]. *)
Fixpoint digits (places n : nat) : string :=
  match places with
  | O => EmptyString
  | S k => (digits k (n / 10) ++ digit n)%string
  end.

Definition to_fixed (n places : nat) : string :=
  ("0." ++ digits places n)%string.

Definition named (name : string) : JsVal :=
  JObject [("name", JString name)].

Definition tagged (term : string) : JsVal :=
  JObject [("$", JObject [("term", JString term)])].

Definition paper_attention : JsVal :=
  JObject [ ("id", JString "http://arxiv.org/abs/1706.03762v7");
            ("title", JString "Attention Is All You Need");
            ("summary", JString "A network architecture based solely on attention.");
            ("author", JArray [named "Ashish Vaswani"; named "Noam Shazeer"]);
            ("category", JArray [tagged "cs.CL"; tagged "cs.LG"]);
            ("published", JString "2017-06-12T17:57:34Z") ].

Definition paper_solo : JsVal :=
  JObject [ ("id", JString "http://arxiv.org/abs/2001.08317v1");
            ("title", JString "Deep Transformer Models for Time Series Forecasting");
            ("summary", JString "A Transformer-based approach to forecasting.");
            ("author", named "Neo Wu");
            ("category", tagged "cs.LG");
            ("published", JString "2020-01-23T00:22:22Z") ].

(** The same paper with its one author delivered as a one-element list. *)
Definition paper_solo_listed : JsVal :=
  JObject [ ("id", JString "http://arxiv.org/abs/2001.08317v1");
            ("title", JString "Deep Transformer Models for Time Series Forecasting");
            ("summary", JString "A Transformer-based approach to forecasting.");
            ("author", JArray [named "Neo Wu"]);
            ("category", JArray [tagged "cs.LG"]);
            ("published", JString "2020-01-23T00:22:22Z") ].

(** An entry that has no [summary]. *)
Definition paper_no_abstract : JsVal :=
  JObject [ ("id", JString "http://arxiv.org/abs/0000.00000v1");
            ("title", JString "Untitled preprint");
            ("author", named "A. Nonymous");
            ("category", tagged "cs.AI");
            ("published", JString "2021-01-01T00:00:00Z") ].

Definition feed_of (fields : list (string * JsVal)) : JsVal :=
  JObject [("feed", JObject (("title", JString "ArXiv Query") :: fields))].

Definition parse (xml : string) : Result JsVal :=
  if String.eqb xml "none" then Ok (feed_of [])
  else if String.eqb xml "one" then Ok (feed_of [("entry", paper_solo)])
  else if String.eqb xml "two"
  then Ok (feed_of [("entry", JArray [paper_attention; paper_solo])])
  else if String.eqb xml "gap"
  then Ok (feed_of [("entry", JArray [paper_attention; paper_no_abstract])])
  else Throw (Error "Non-whitespace before first tag.").

Definition embed (content : JsVal) (w : env) : Result nat * env :=
  match content with
  | JString t => (Ok (String.length t), w)
  | _ => (Throw (Error "content is required"), w)
  end.

Definition upsert (records : list (IndexRecord nat)) (w : env)
  : Result unit * env :=
  match upserts_left w with
  | O => (Throw (Error "upsert rejected"), w)
  | S k =>
      (Ok tt, {| arxiv_xml := arxiv_xml w;
                 completion := completion w;
                 index_answer := index_answer w;
                 stored := stored w ++ records;
                 upserts_left := k |})
  end.

(** What the model extracts from every question. *)
Definition keywords : string := ("all:" ++ dq ++ "cows" ++ dq)%string.

Definition services : Services :=
  {| World := env;
     Embedding := nat;
     Number := nat;
     toFixed := to_fixed;
     encodeURIComponent := fun v => v;
     parseStringPromise := parse;
     fetch := fun _ w =>
       (Ok {| ok := true; statusText := "OK"; text := Ok (arxiv_xml w) |}, w);
     generateContent := fun prompt w =>
       if prefix "Extract" prompt
       then (Ok keywords, w)
       else (Ok (completion w), w);
     embedContent := embed;
     index_upsert := upsert;
     index_query := fun _ w => (Ok (index_answer w), w) |}.

Definition meta (t a : string) : Metadata :=
  {| md_title := JString t;
     md_abstract := JString a;
     md_authors := JString "Neo Wu";
     md_categories := JString "cs.LG";
     md_published := JString "2020-01-23T00:22:22Z" |}.

(** What the index answers: two usable matches, one without metadata and
    one without score between them. *)
Definition answer_mixed : list (ScoredRecord nat) :=
  [ {| match_score := Some 4134; match_metadata := Some (meta "First" "Abstract one") |};
    {| match_score := Some 4000; match_metadata := None |};
    {| match_score := None; match_metadata := Some (meta "Lost" "Abstract lost") |};
    {| match_score := Some 3120; match_metadata := Some (meta "Second" "Abstract two") |} ].


Definition world0 (xml text : string) (answer : list (ScoredRecord nat))
  (budget : nat) : env :=
  {| arxiv_xml := xml;
     completion := text;
     index_answer := answer;
     stored := [];
     upserts_left := budget |}.

Definition start (xml text : string) (answer : list (ScoredRecord nat))
  (budget : nat) : St (SV := services) :=
  @Build_St services (world0 xml text answer budget) [].

(** The states of a run on [start]: after the keywords, after the fetch,
    after the indexing. *)
Definition interpreted (question : string) (s : St (SV := services))
  : St (SV := services) :=
  snd (extractKeywords question s).

Definition fetched (question : string) (s : St (SV := services))
  : St (SV := services) :=
  snd (fetchArxivPapers keywords (interpreted question s)).

Definition indexed (question : string) (papers : list JsVal)
  (sched : list nat) (s : St (SV := services)) : St (SV := services) :=
  snd (upsertToPinecone papers sched (fetched question s)).

(** The records the indexer writes for the two papers. *)
Definition record_attention : IndexRecord nat :=
  {| rec_id := JString "http://arxiv.org/abs/1706.03762v7";
     rec_values := 49;
     rec_metadata :=
       {| md_title := JString "Attention Is All You Need";
          md_abstract := JString "A network architecture based solely on attention.";
          md_authors := JString "Ashish Vaswani, Noam Shazeer";
          md_categories := JArray [JString "cs.CL"; JString "cs.LG"];
          md_published := JString "2017-06-12T17:57:34Z" |} |}.

Definition record_solo : IndexRecord nat :=
  {| rec_id := JString "http://arxiv.org/abs/2001.08317v1";
     rec_values := 44;
     rec_metadata :=
       {| md_title := JString "Deep Transformer Models for Time Series Forecasting";
          md_abstract := JString "A Transformer-based approach to forecasting.";
          md_authors := JString "Neo Wu";
          md_categories := JString "cs.LG";
          md_published := JString "2020-01-23T00:22:22Z" |} |}.

End Demo.


(** ** Further concrete cases: entries that lack a field, an old-style
    identifier, entries with links, and the reading of the query
    parameter on the side of the route. *)

Module Edge.

(** An entry that has no [category]. *)
Definition paper_uncategorised : JsVal :=
  JObject [ ("id", JString "http://arxiv.org/abs/0000.00001v1");
            ("title", JString "Uncategorised preprint");
            ("summary", JString "An abstract.");
            ("author", Demo.named "A. Nonymous");
            ("published", JString "2021-01-01T00:00:00Z") ].

(** An identifier of the old scheme, with a slash in it. *)
Definition paper_old_style : JsVal :=
  JObject [ ("id", JString "http://arxiv.org/abs/hep-th/9901001v1");
            ("title", JString "An old preprint");
            ("summary", JString "An abstract.");
            ("author", Demo.named "A. Nonymous");
            ("category", Demo.tagged "hep-th");
            ("published", JString "1999-01-01T00:00:00Z") ].

Definition linked (target : string) : JsVal :=
  JObject [("$", JObject [("href", JString target)])].

(** An entry with one link, and the same with two. *)
Definition entry_one_link : JsVal :=
  JObject [ ("id", JString "http://arxiv.org/abs/2001.08317v1");
            ("title", JString "Deep Transformer Models for Time Series Forecasting");
            ("summary", JString "A Transformer-based approach to forecasting.");
            ("author", JArray [Demo.named "Neo Wu"; Demo.named "Bradley Green"]);
            ("link", linked "http://arxiv.org/abs/2001.08317v1") ].

Definition entry_two_links : JsVal :=
  JObject [ ("id", JString "http://arxiv.org/abs/2001.08317v1");
            ("title", JString "Deep Transformer Models for Time Series Forecasting");
            ("summary", JString "A Transformer-based approach to forecasting.");
            ("author", Demo.named "Neo Wu");
            ("link", JArray [ linked "http://arxiv.org/abs/2001.08317v1";
                              linked "http://arxiv.org/pdf/2001.08317v1" ]) ].

Definition parse (xml : string) : Result JsVal :=
  if String.eqb xml "bare"
  then Ok (Demo.feed_of
             [("entry", JArray [Demo.paper_attention; paper_uncategorised])])
  else if String.eqb xml "old"
  then Ok (Demo.feed_of [("entry", paper_old_style)])
  else if String.eqb xml "links"
  then Ok (Demo.feed_of [("entry", JArray [entry_one_link; entry_one_link])])
  else Demo.parse xml.

(** The services of [Demo], reading these documents too. *)
Definition services : Services :=
  {| World := Demo.env;
     Embedding := nat;
     Number := nat;
     toFixed := Demo.to_fixed;
     encodeURIComponent := fun v => v;
     parseStringPromise := parse;
     fetch := fun _ w =>
       (Ok {| ok := true; statusText := "OK"; text := Ok (Demo.arxiv_xml w) |}, w);
     generateContent := fun prompt w =>
       if prefix "Extract" prompt
       then (Ok Demo.keywords, w)
       else (Ok (Demo.completion w), w);
     embedContent := Demo.embed;
     index_upsert := Demo.upsert;
     index_query := fun _ w => (Ok (Demo.index_answer w), w) |}.

Definition start (xml text : string) (answer : list (ScoredRecord nat))
  (budget : nat) : St (SV := services) :=
  @Build_St services (Demo.world0 xml text answer budget) [].

Definition interpreted (question : string) (s : St (SV := services))
  : St (SV := services) :=
  snd (extractKeywords question s).

Definition fetched (question : string) (s : St (SV := services))
  : St (SV := services) :=
  snd (fetchArxivPapers Demo.keywords (interpreted question s)).

Definition indexed (question : string) (papers : list JsVal)
  (sched : list nat) (s : St (SV := services)) : St (SV := services) :=
  snd (upsertToPinecone papers sched (fetched question s)).

Definition searched (question : string) (papers : list JsVal)
  (sched : list nat) (s : St (SV := services)) : St (SV := services) :=
  snd (performVectorSearch question (indexed question papers sched s)).

Fixpoint drop (n : nat) (s : string) : string :=
  match n, s with
  | O, _ => s
  | S k, String _ rest => drop k rest
  | S _, EmptyString => EmptyString
  end.

(** [searchParams.get('query')] on the address the page requests, for an
    encoding that changes nothing. *)
Definition searchParams_get (url : string) : option string :=
  Some (drop 19 url).

(** A query string as [URLSearchParams] writes it, without the escapes. *)
Definition searchParams_toString (params : list (string * string)) : string :=
  join_strings "&" (map (fun kv => (fst kv ++ "=" ++ snd kv)%string) params).

End Edge.

(** ** Vocabulary of the properties *)

Section Vocabulary.

Context {SV : Services}.

Definition stage_of (e : Event) : Stage :=
  match e with
  | Issued stage _ => stage
  | Settled stage _ _ => stage
  end.

(** A call that settled rejected. *)
Definition rejected (e : Event) : bool :=
  match e with
  | Settled _ _ false => true
  | _ => false
  end.

Definition embed_issued (e : Event) : bool :=
  match e with
  | Issued _ (CEmbed _) => true
  | _ => false
  end.

Definition upsert_issued (e : Event) : bool :=
  match e with
  | Issued _ (CUpsert _) => true
  | _ => false
  end.

(** An upsert that settled fulfilled: a record written. *)
Definition upsert_written (e : Event) : bool :=
  match e with
  | Settled _ (CUpsert _) true => true
  | _ => false
  end.

Definition count (f : Event -> bool) (evs : list Event) : nat :=
  length (filter f evs).

(** The embedding requests the callback of [papers.map] issues, one per
    paper, in the order of the papers (none for a paper that is itself
    [undefined], whose [summary] cannot be read). *)
Definition embed_calls (papers : list JsVal) : list Event :=
  flat_map (fun paper =>
              match get paper "summary" with
              | Ok content => [Issued Index (CEmbed content)]
              | Throw _ => []
              end) papers.

(** What the specification keeps of one match: nothing when the metadata or
    the score is absent. *)
Definition retrieved (m : ScoredRecord Number) : list (RelevantPaper Number) :=
  match match_metadata m, match_score m with
  | Some md, Some score =>
      [ {| title := md_title md;
           abstract := md_abstract md;
           authors := md_authors md;
           categories := md_categories md;
           published := md_published md;
           similarity := Some score |} ]
  | _, _ => []
  end.

(** [m] only appends to the trace, what it appends satisfies [Q], and when
    it returns no call of its own was rejected. *)
Definition runs_within {A} (Q : Event -> Prop) (m : M A) : Prop :=
  forall s,
    exists evs,
      trace (snd (m s)) = trace s ++ evs
      /\ Forall Q evs
      /\ (is_ok (fst (m s)) = true -> count rejected evs = 0).

Definition in_stage (stage : Stage) (e : Event) : Prop :=
  stage_of e = stage.

(** The steps of [GET] that follow a fetch with papers. *)
Definition grounded_path (userQuery keywords : string) (papers : list JsVal)
  (sched : list nat) : M NextResponse :=
  _ <- upsertToPinecone papers sched ;;
  relevantPapers <- performVectorSearch userQuery ;;
  answer <- generateAnswer userQuery relevantPapers ;;
  ret (json (AnswerBody answer keywords papers)).

(** The steps of [GET] that follow a fetch without papers. *)
Definition fallback_path (userQuery keywords : string) : M NextResponse :=
  noResultsAnswer <- generateNoResultsAnswer userQuery ;;
  ret (json (AnswerBody noResultsAnswer keywords [])).

(** How far a task is from its end: the calls it still waits for. *)
Definition pending_calls (t : Task) : nat :=
  match t with
  | AwaitEmbed _ _ => 2
  | AwaitUpsert _ => 1
  | Fulfilled | Rejected _ => 0
  end.

Definition fulfilled_w (t : Task) : nat :=
  match t with Fulfilled => 1 | _ => 0 end.

Definition upserting_w (t : Task) : nat :=
  match t with AwaitEmbed _ _ => 0 | _ => 1 end.

Fixpoint total (w : Task -> nat) (ts : list Task) : nat :=
  match ts with
  | [] => 0
  | t :: rest => w t + total w rest
  end.

(** One settling of the call a task waits for, as [settle] performs it:
    the task and the state before and after, and the events it adds. *)
Inductive Settles : Task -> St -> Task -> St -> list Event -> Prop :=
| settles_embed_rejected paper content s e w :
    embedContent content (world s) = (Throw e, w) ->
    Settles (AwaitEmbed paper content) s (Rejected e)
      {| world := w;
         trace := trace s ++ [Settled Index (CEmbed content) false] |}
      [Settled Index (CEmbed content) false]
| settles_embed_unusable paper content s embedding e w :
    embedContent content (world s) = (Ok embedding, w) ->
    build_record paper embedding = Throw e ->
    Settles (AwaitEmbed paper content) s (Rejected e)
      {| world := w;
         trace := trace s ++ [Settled Index (CEmbed content) true] |}
      [Settled Index (CEmbed content) true]
| settles_embed_fulfilled paper content s embedding record w :
    embedContent content (world s) = (Ok embedding, w) ->
    build_record paper embedding = Ok record ->
    Settles (AwaitEmbed paper content) s (AwaitUpsert record)
      {| world := w;
         trace := (trace s ++ [Settled Index (CEmbed content) true])
                  ++ [Issued Index (CUpsert [record])] |}
      [Settled Index (CEmbed content) true; Issued Index (CUpsert [record])]
| settles_upsert_rejected record s e w :
    index_upsert [record] (world s) = (Throw e, w) ->
    Settles (AwaitUpsert record) s (Rejected e)
      {| world := w;
         trace := trace s ++ [Settled Index (CUpsert [record]) false] |}
      [Settled Index (CUpsert [record]) false]
| settles_upsert_fulfilled record s u w :
    index_upsert [record] (world s) = (Ok u, w) ->
    Settles (AwaitUpsert record) s Fulfilled
      {| world := w;
         trace := trace s ++ [Settled Index (CUpsert [record]) true] |}
      [Settled Index (CUpsert [record]) true]
| settles_fulfilled s :
    Settles Fulfilled s Fulfilled s []
| settles_rejected e s :
    Settles (Rejected e) s (Rejected e) s [].

(** What holds of the tasks, the world and the events of an indexing step
    of [n] papers as it proceeds, [P record] being a property of the world
    that the step is to keep once [record] is written. *)
Definition Good (P : IndexRecord Embedding -> World -> Prop) (n k : nat)
  (ts : list Task) (w : World) (evs : list Event) : Prop :=
  length ts = n
  /\ Forall (fun e => stage_of e = Index) evs
  /\ count rejected (removelast evs) = 0
  /\ (first_rejection ts = None -> count rejected evs = 0)
  /\ count upsert_written evs = total fulfilled_w ts
  /\ count upsert_issued evs <= total upserting_w ts
  /\ count embed_issued evs = k
  /\ (forall record,
        In (Settled Index (CUpsert [record]) true) evs -> P record w).

End Vocabulary.

(** ** Further vocabulary *)

Section MoreVocabulary.

Context {SV : Services}.

(** [m] only appends to the trace, a rejected call can only be the last
    event it appends, and it throws when it appended one. *)
Definition halts_on_rejection {A} (m : M A) : Prop :=
  forall s,
    exists evs,
      trace (snd (m s)) = trace s ++ evs
      /\ count rejected (removelast evs) = 0
      /\ (count rejected evs <> 0 -> is_ok (fst (m s)) = false).

(** How the task at a position relates to the paper at that position, [evs]
    being the events of the step so far. *)
Definition task_for (evs : list Event) (paper : JsVal) (t : Task) : Prop :=
  match t with
  | AwaitEmbed p content => p = paper /\ get paper "summary" = Ok content
  | AwaitUpsert record => exists embedding, build_record paper embedding = Ok record
  | Fulfilled =>
      exists embedding record,
        build_record paper embedding = Ok record
        /\ In (Settled Index (CUpsert [record]) true) evs
  | Rejected _ => True
  end.

(** An upsert is issued for one record, built from one of the papers. *)
Definition upsert_of (papers : list JsVal) (e : Event) : Prop :=
  match e with
  | Issued _ (CUpsert records) =>
      exists paper embedding record,
        In paper papers
        /\ build_record paper embedding = Ok record
        /\ records = [record]
  | _ => True
  end.

(** What holds of the tasks of [papers] and of the events of their
    indexing at any time, also after the step has failed: [k] embedding
    requests were issued, at most one upsert per task that came to it, and
    every upsert is for the record of a paper. *)
Definition Kept_late (papers : list JsVal) (k : nat) (ts : list Task)
  (evs : list Event) : Prop :=
  length ts = length papers
  /\ Forall (fun e => stage_of e = Index) evs
  /\ count upsert_issued evs <= total upserting_w ts
  /\ count embed_issued evs = k
  /\ Forall2 (task_for evs) papers ts
  /\ Forall (upsert_of papers) evs.

End MoreVocabulary.

(** What every run of the page keeps: it stays mounted, its error is the
    fixed message or none, and the skeleton is up only while a request is
    in flight. *)
Definition page_inv (p : Page.Session) : Prop :=
  Page.ui_mounted (Page.ui p) = true
  /\ (Page.ui_error (Page.ui p) = None
      \/ Page.ui_error (Page.ui p) = Some Page.failure_message)
  /\ (Page.ui_loading (Page.ui p) = true -> Page.in_flight p <> []).

(** [c] occurs in [s]. *)
Fixpoint occurs (c : ascii) (s : string) : bool :=
  match s with
  | EmptyString => false
  | String c' rest => Ascii.eqb c' c || occurs c rest
  end.

(** * Properties *)

(** ** The corpus fetcher *)

Section FetcherFacts.

Context {SV : Services}.

Lemma await_run {A} (stage : Stage) (c : Call) (op : World -> Result A * World)
  (s : St) :
  await stage c op s =
  (fst (op (world s)),
   {| world := snd (op (world s));
      trace := trace s ++ [Issued stage c; Settled stage c (is_ok (fst (op (world s))))] |}).
Proof.
  unfold await. destruct (op (world s)) as [r w]. reflexivity.
Qed.

(** When arXiv answers and the document parses, [fetchArxivPapers] returns
    what [feed_entries] makes of the parsed document. *)
Lemma fetchArxivPapers_parsed (keywords : string) (s : St)
  (response : HttpResponse) (w : World) (xml : string) (result : JsVal) :
  fetch (baseURL ++ "?" ++ queryString keywords)%string (world s)
    = (Ok response, w) ->
  ok response = true ->
  text response = Ok xml ->
  parseStringPromise xml = Ok result ->
  fst (fetchArxivPapers keywords s) = feed_entries result.
Proof.
  intros Hfetch Hok Htext Hparse.
  unfold fetchArxivPapers, bind. rewrite await_run, Hfetch. cbn [fst snd].
  rewrite Hok. cbn [negb]. unfold lift. rewrite Htext, Hparse. reflexivity.
Qed.

(** C3. When the parsed arXiv document has a [feed] with no [entry] field,
    the fetcher returns the empty paper list and does not throw; when
    [entry] is one object and not an array, it returns the one-element list
    holding that object.  The helper [processArxivResponse] does the same,
    its one element being the summary it makes of the entry. *)
Theorem C3_fetcher_normalises_entries :
  forall (keywords : string) (s : St) (response : HttpResponse) (w : World)
         (xml : string) (rfields ffields : list (string * JsVal)),
    fetch (baseURL ++ "?" ++ queryString keywords)%string (world s)
      = (Ok response, w) ->
    ok response = true ->
    text response = Ok xml ->
    parseStringPromise xml = Ok (JObject rfields) ->
    lookup "feed" rfields = JObject ffields ->
    (lookup "entry" ffields = JUndefined ->
       fst (fetchArxivPapers keywords s) = Ok []
       /\ processArxivResponse (JObject rfields) = Ok [])
    /\ (forall efields,
          lookup "entry" ffields = JObject efields ->
          fst (fetchArxivPapers keywords s) = Ok [JObject efields]
          /\ processArxivResponse (JObject rfields)
             = match summarise_entry (JObject efields) with
               | Ok summary => Ok [summary]
               | Throw e => Throw e
               end).
Proof.
  intros keywords s response w xml rfields ffields Hfetch Hok Htext Hparse Hfeed.
  pose proof (fetchArxivPapers_parsed keywords s Hfetch Hok Htext Hparse) as Hrun.
  split.
  - intros Hentry. split.
    + rewrite Hrun. unfold feed_entries. cbn [get]. rewrite Hfeed. cbn [get].
      rewrite Hentry. reflexivity.
    + unfold processArxivResponse. cbn [get]. rewrite Hfeed. cbn [get].
      rewrite Hentry. reflexivity.
  - intros efields Hentry. split.
    + rewrite Hrun. unfold feed_entries. cbn [get]. rewrite Hfeed. cbn [get].
      rewrite Hentry. reflexivity.
    + unfold processArxivResponse. cbn [get]. rewrite Hfeed. cbn [get].
      rewrite Hentry. cbn [truthy negb mapM].
      destruct (summarise_entry (JObject efields)); reflexivity.
Qed.

End FetcherFacts.

(** The arXiv service answers once with no entry and once with one. *)
Lemma C3_witness :
  (fst (fetchArxivPapers (SV := Demo.services) "all:cows"
          (Demo.start "none" "all:cows" [] 0)) = Ok []
   /\ processArxivResponse (Demo.feed_of []) = Ok [])
  /\ fst (fetchArxivPapers (SV := Demo.services) "all:cows"
            (Demo.start "one" "all:cows" [] 0)) = Ok [Demo.paper_solo].
Proof.
  split.
  - refine (proj1 (@C3_fetcher_normalises_entries Demo.services "all:cows"
                     (Demo.start "none" "all:cows" [] 0) _ _ "none" _ _
                     eq_refl eq_refl eq_refl eq_refl eq_refl) eq_refl).
  - refine (proj1 (proj2 (@C3_fetcher_normalises_entries Demo.services "all:cows"
                     (Demo.start "one" "all:cows" [] 0) _ _ "one" _ _
                     eq_refl eq_refl eq_refl eq_refl eq_refl) _ eq_refl)).
Defined.

(** ** The metadata the indexer writes *)

Section IndexerMetadata.

Context {SV : Services}.

Lemma build_record_metadata (paper : JsVal) (embedding : Embedding)
  (record : IndexRecord Embedding) :
  build_record paper embedding = Ok record ->
  paper_authors paper = Ok (md_authors (rec_metadata record))
  /\ paper_categories paper = Ok (md_categories (rec_metadata record))
  /\ get paper "summary" = Ok (md_abstract (rec_metadata record))
  /\ get paper "id" = Ok (rec_id record)
  /\ rec_values record = embedding.
Proof.
  unfold build_record.
  destruct (paper_categories paper) as [cats|]; [|discriminate].
  destruct (get paper "id") as [pid|]; [|discriminate].
  destruct (get paper "title") as [ptitle|]; [|discriminate].
  destruct (get paper "summary") as [psummary|]; [|discriminate].
  destruct (paper_authors paper) as [pauthors|]; [|discriminate].
  destruct (get paper "published") as [ppublished|]; [|discriminate].
  intros H. injection H as <-. cbn. repeat split; reflexivity.
Qed.

(** C4, as the code has it.  The author field is flattened to one string:
    the names of a list joined with a comma and a blank, the name itself
    for a single author; so one author yields the same [authors] metadata
    in scalar form and as a one-element list.  The category field keeps its
    shape: a list of categories yields the list of their terms, a single
    category yields its bare term and is not widened to a list.  These are
    the values [build_record] writes into the record. *)
Theorem C4_metadata_shapes :
  forall (fields : list (string * JsVal)),
    (forall items names,
        lookup "author" fields = JArray items ->
        mapM (fun a => get a "name") items = Ok names ->
        paper_authors (JObject fields) = Ok (JString (join ", " names)))
    /\ (forall afields,
          lookup "author" fields = JObject afields ->
          paper_authors (JObject fields) = Ok (lookup "name" afields))
    /\ (forall afields name fields',
          lookup "name" afields = JString name ->
          lookup "author" fields = JObject afields ->
          lookup "author" fields' = JArray [JObject afields] ->
          paper_authors (JObject fields) = Ok (JString name)
          /\ paper_authors (JObject fields') = Ok (JString name))
    /\ (forall items terms,
          lookup "category" fields = JArray items ->
          mapM (fun c => match get c "$" with
                         | Throw e => Throw e
                         | Ok attrs => get attrs "term"
                         end) items = Ok terms ->
          paper_categories (JObject fields) = Ok (JArray terms))
    /\ (forall cfields attrs,
          lookup "category" fields = JObject cfields ->
          lookup "$" cfields = JObject attrs ->
          paper_categories (JObject fields) = Ok (lookup "term" attrs))
    /\ (forall embedding record,
          build_record (JObject fields) embedding = Ok record ->
          paper_authors (JObject fields) = Ok (md_authors (rec_metadata record))
          /\ paper_categories (JObject fields)
             = Ok (md_categories (rec_metadata record))).
Proof.
  intros fields.
  split; [|split; [|split; [|split; [|split]]]].
  - intros items names Hauthor Hnames.
    unfold paper_authors. cbn [get]. rewrite Hauthor, Hnames. reflexivity.
  - intros afields Hauthor.
    unfold paper_authors. cbn [get]. rewrite Hauthor. reflexivity.
  - intros afields name fields' Hname Hauthor Hauthor'.
    unfold paper_authors. cbn [get]. rewrite Hauthor, Hauthor'.
    cbn [mapM get]. rewrite Hname. split; reflexivity.
  - intros items terms Hcat Hterms.
    unfold paper_categories. cbn [get]. rewrite Hcat, Hterms. reflexivity.
  - intros cfields attrs Hcat Hattrs.
    unfold paper_categories. cbn [get]. rewrite Hcat. cbn [get].
    rewrite Hattrs. reflexivity.
  - intros embedding record Hrecord.
    destruct (build_record_metadata _ _ Hrecord) as (Ha & Hc & _).
    split; assumption.
Qed.

End IndexerMetadata.

(** C4 fails as the specification words it: the record of a paper with one
    category carries the bare term, and the authors of a paper with two
    authors are one string; neither is a list. *)
Lemma C4_counterexample :
  exists solo duo,
    build_record (SV := Demo.services) Demo.paper_solo 44 = Ok solo
    /\ md_categories (rec_metadata solo) = JString "cs.LG"
    /\ isArray (md_categories (rec_metadata solo)) = false
    /\ build_record (SV := Demo.services) Demo.paper_attention 49 = Ok duo
    /\ md_authors (rec_metadata duo) = JString "Ashish Vaswani, Noam Shazeer"
    /\ isArray (md_authors (rec_metadata duo)) = false.
Proof.
  eexists. eexists. repeat split; reflexivity.
Qed.

(** ** The similarity searcher *)

Section SearcherFacts.

Context {SV : Services}.

Lemma retrieved_usable (m : ScoredRecord Number) :
  retrieved m = if usable m
                then match to_relevant m with Ok p => [p] | Throw _ => [] end
                else [].
Proof.
  unfold retrieved, usable, to_relevant.
  destruct (match_metadata m) as [md|]; [|reflexivity].
  destruct (match_score m) as [score|]; reflexivity.
Qed.

(** Filtering and then mapping never throws, and keeps what [retrieved]
    keeps, in the same order. *)
Lemma select_matches_retrieved (matches : list (ScoredRecord Number)) :
  select_matches matches = Ok (flat_map retrieved matches).
Proof.
  unfold select_matches.
  induction matches as [|m rest IH]; [reflexivity|].
  cbn [filter flat_map]. rewrite retrieved_usable.
  destruct (usable m) eqn:Hm.
  - cbn [mapM]. rewrite IH.
    unfold usable in Hm. unfold to_relevant.
    destruct (match_metadata m); [reflexivity|discriminate].
  - exact IH.
Qed.

Lemma select_matches_kept (matches : list (ScoredRecord Number)) :
  Forall2 (fun m p => to_relevant m = Ok p /\ similarity p = match_score m
                      /\ similarity p <> None)
    (filter usable matches) (flat_map retrieved matches).
Proof.
  induction matches as [|m rest IH]; [constructor|].
  cbn [filter flat_map]. rewrite retrieved_usable.
  destruct (usable m) eqn:Hm; [|exact IH].
  unfold usable in Hm. unfold to_relevant.
  destruct (match_metadata m) as [md|] eqn:Hmd; [|discriminate].
  destruct (match_score m) as [score|] eqn:Hs; [|discriminate].
  cbn [app]. constructor; [|exact IH].
  unfold to_relevant. rewrite Hmd, Hs. cbn [similarity].
  repeat split. discriminate.
Qed.

Lemma retrieved_origin (matches : list (ScoredRecord Number))
  (p : RelevantPaper Number) :
  In p (flat_map retrieved matches) ->
  exists m, In m matches /\ similarity p = match_score m.
Proof.
  rewrite in_flat_map. intros [m [Hin Hp]]. exists m. split; [exact Hin|].
  unfold retrieved in Hp.
  destruct (match_metadata m) as [md|]; [|contradiction].
  destruct (match_score m) as [score|]; [|contradiction].
  destruct Hp as [<-|[]]. reflexivity.
Qed.

Lemma retrieved_sorted (ge : Number -> Number -> Prop)
  (matches : list (ScoredRecord Number)) :
  StronglySorted
    (fun a b => forall x y, match_score a = Some x -> match_score b = Some y
                            -> ge x y) matches ->
  StronglySorted
    (fun p q => forall x y, similarity p = Some x -> similarity q = Some y
                            -> ge x y) (flat_map retrieved matches).
Proof.
  induction 1 as [|m rest Hrest IH Hhead]; [constructor|].
  cbn [flat_map].
  destruct (retrieved m) as [|p [|p' more]] eqn:Hm.
  - exact IH.
  - cbn [app]. constructor; [exact IH|].
    assert (Hp : similarity p = match_score m).
    { destruct (retrieved_origin [m] p) as [m' [[<-|[]] Heq]]; [|exact Heq].
      cbn [flat_map]. rewrite Hm. now left. }
    rewrite Forall_forall in *. intros q Hq x y Hx Hy.
    destruct (retrieved_origin rest q Hq) as [m' [Hin Heq]].
    apply (Hhead m' Hin); congruence.
  - unfold retrieved in Hm.
    destruct (match_metadata m); [|discriminate].
    destruct (match_score m); discriminate.
Qed.

(** What a search returns once the question is embedded and the index
    has answered. *)
Lemma search_run (query : string) (s : St) (embedding : Embedding)
  (w1 w2 : World) (matches : list (ScoredRecord Number)) :
  embedContent (JString query) (world s) = (Ok embedding, w1) ->
  index_query (search_request embedding) w1 = (Ok matches, w2) ->
  performVectorSearch query s
  = (Ok (flat_map retrieved matches),
     {| world := w2;
        trace := (trace s
                  ++ [Issued Search (CEmbed (JString query));
                      Settled Search (CEmbed (JString query)) true])
                 ++ [Issued Search (CQuery (search_request embedding));
                     Settled Search (CQuery (search_request embedding)) true] |}).
Proof.
  intros Hembed Hquery.
  unfold performVectorSearch, bind. rewrite await_run, Hembed. cbn [fst snd].
  rewrite await_run. cbn [world trace]. rewrite Hquery. cbn [fst snd is_ok].
  unfold lift. rewrite select_matches_retrieved. reflexivity.
Qed.

(** C6. Once the question is embedded, [performVectorSearch] asks the index
    for the 5 nearest records with their metadata, and when the index
    answers it returns, without throwing, the matches that have both
    metadata and a score: the others are dropped, the kept ones stand in
    the order the index gave them, each with its score, and nothing is
    re-sorted, so an answer that is ordered by descending score stays so. *)
Theorem C6_similarity_search :
  forall (query : string) (s : St) (embedding : Embedding) (w1 w2 : World)
         (matches : list (ScoredRecord Number)),
    embedContent (JString query) (world s) = (Ok embedding, w1) ->
    index_query (search_request embedding) w1 = (Ok matches, w2) ->
    performVectorSearch query s
      = (Ok (flat_map retrieved matches),
         {| world := w2;
            trace := (trace s
                      ++ [Issued Search (CEmbed (JString query));
                          Settled Search (CEmbed (JString query)) true])
                     ++ [Issued Search (CQuery (search_request embedding));
                         Settled Search (CQuery (search_request embedding)) true] |})
    /\ topK (search_request embedding) = 5
    /\ includeMetadata (search_request embedding) = true
    /\ Forall2 (fun m p => to_relevant m = Ok p /\ similarity p = match_score m
                           /\ similarity p <> None)
         (filter usable matches) (flat_map retrieved matches)
    /\ (forall m,
          (match_metadata m = None \/ match_score m = None) ->
          usable m = false /\ retrieved m = [])
    /\ (forall ge : Number -> Number -> Prop,
          StronglySorted
            (fun a b => forall x y, match_score a = Some x ->
                                    match_score b = Some y -> ge x y) matches ->
          StronglySorted
            (fun p q => forall x y, similarity p = Some x ->
                                    similarity q = Some y -> ge x y)
            (flat_map retrieved matches)).
Proof.
  intros query s embedding w1 w2 matches Hembed Hquery.
  split; [|split; [reflexivity|split; [reflexivity|split; [|split]]]].
  - exact (search_run query s Hembed Hquery).
  - apply select_matches_kept.
  - intros m Hmissing. unfold usable, retrieved.
    destruct Hmissing as [-> | ->]; [split; reflexivity|].
    destruct (match_metadata m); split; reflexivity.
  - intros ge. apply retrieved_sorted.
Qed.

(** Every match the search keeps has its score. *)
Lemma retrieved_scored (matches : list (ScoredRecord Number)) :
  Forall (fun p => similarity p <> None) (flat_map retrieved matches).
Proof.
  induction matches as [|m ms IH]; [constructor|].
  cbn [flat_map]. apply Forall_app. split; [|exact IH].
  unfold retrieved.
  destruct (match_metadata m); [|constructor].
  destruct (match_score m); repeat constructor. discriminate.
Qed.

End SearcherFacts.

(** The index answers with four matches, the second without metadata and
    the third without score: the first and the fourth come back, in that
    order. *)
Lemma C6_witness :
  map (@similarity nat)
    (flat_map (retrieved (SV := Demo.services)) Demo.answer_mixed)
  = [Some 4134; Some 3120]
  /\ fst (performVectorSearch (SV := Demo.services) "cows"
            (Demo.start "two" "text" Demo.answer_mixed 2))
     = Ok (flat_map (retrieved (SV := Demo.services)) Demo.answer_mixed).
Proof.
  split; [reflexivity|].
  exact (f_equal fst
           (proj1 (@C6_similarity_search Demo.services "cows"
                     (Demo.start "two" "text" Demo.answer_mixed 2)
                     4 _ _ Demo.answer_mixed eq_refl eq_refl))).
Defined.

(** ** The grounded prompt *)

Section SynthesizerFacts.

Context {SV : Services}.

Lemma string_app_assoc (a b c : string) :
  ((a ++ b) ++ c)%string = (a ++ (b ++ c))%string.
Proof.
  induction a as [|ch a IH]; cbn; [reflexivity|]. now rewrite IH.
Qed.

Lemma join_strings_cons (sep x : string) (rest : list string) :
  exists post, join_strings sep (x :: rest) = (x ++ post)%string.
Proof.
  destruct rest as [|y rest].
  - exists EmptyString. cbn. induction x as [|ch x IH]; cbn; congruence.
  - exists (sep ++ join_strings sep (y :: rest))%string. reflexivity.
Qed.

Lemma join_strings_from (sep x : string) (before rest : list string) :
  exists pre,
    join_strings sep (before ++ x :: rest)
    = (pre ++ join_strings sep (x :: rest))%string.
Proof.
  induction before as [|y before [pre IH]].
  - exists EmptyString. reflexivity.
  - exists (y ++ sep ++ pre)%string.
    change ((y :: before) ++ x :: rest) with (y :: (before ++ x :: rest)).
    destruct (before ++ x :: rest) as [|z more] eqn:Hrest.
    + destruct before; discriminate.
    + cbn [join_strings] in *. rewrite IH.
      now rewrite !string_app_assoc.
Qed.

(** In the joined text the block of an earlier element stands before the
    block of a later one. *)
Lemma join_strings_order (sep a b : string) (l1 l2 l3 : list string) :
  exists pre mid post,
    join_strings sep (l1 ++ a :: l2 ++ b :: l3)
    = (pre ++ a ++ mid ++ b ++ post)%string.
Proof.
  destruct (join_strings_from sep a l1 (l2 ++ b :: l3)) as [pre Hpre].
  destruct (join_strings_from sep b l2 l3) as [pre2 Hpre2].
  destruct (join_strings_cons sep b l3) as [post Hpost].
  exists pre, (sep ++ pre2)%string, post.
  rewrite Hpre.
  destruct (l2 ++ b :: l3) as [|z more] eqn:Hrest.
  - destruct l2; discriminate.
  - cbn [join_strings]. cbn [join_strings] in Hpre2. rewrite Hpre2.
    cbn [join_strings] in Hpost. rewrite Hpost.
    now rewrite !string_app_assoc.
Qed.

Lemma context_blocks_defined (papers : list (RelevantPaper Number)) :
  Forall (fun p => similarity p <> None) papers ->
  exists blocks,
    mapM context_block papers = Ok blocks
    /\ Forall2 (fun p block => context_block p = Ok block) papers blocks.
Proof.
  induction 1 as [|p rest Hp Hrest [blocks [IH IH2]]].
  - exists []. split; [reflexivity|constructor].
  - destruct (similarity p) as [score|] eqn:Hs; [|congruence].
    destruct (context_block p) as [block|] eqn:Hb.
    + exists (block :: blocks). cbn [mapM]. rewrite Hb, IH.
      split; [reflexivity|]. constructor; assumption.
    + unfold context_block in Hb. rewrite Hs in Hb. discriminate.
Qed.

(** C7. For retrieved matches (each with its score) the grounded prompt is
    the fixed head, the blocks of the matches joined by an empty line, and
    the fixed instructions.  The block of a match lists its title, authors,
    categories, publication date, score to four decimal places and
    abstract, in that order; the blocks stand in the order of the matches,
    so the block of an earlier match precedes the block of a later one in
    the text; and this prompt is what [generateAnswer] sends. *)
Theorem C7_grounded_prompt_order :
  forall (query : string) (papers : list (RelevantPaper Number)),
    Forall (fun p => similarity p <> None) papers ->
    exists blocks,
      Forall2
        (fun p block =>
           exists score,
             similarity p = Some score
             /\ block = ("Title: " ++ toString (title p) ++ nl
                         ++ "Authors: " ++ toString (authors p) ++ nl
                         ++ "Categories: " ++ toString (categories p) ++ nl
                         ++ "Published: " ++ toString (published p) ++ nl
                         ++ "Similarity: " ++ toFixed score 4 ++ nl
                         ++ "Abstract: " ++ toString (abstract p))%string)
        papers blocks
      /\ answer_context papers = Ok (join_strings (nl ++ nl) blocks)
      /\ (forall s,
            generateAnswer query papers s
            = await GroundedSynthesize
                (CGenerate (answer_head query
                            ++ join_strings (nl ++ nl) blocks
                            ++ answer_instructions)%string)
                (generateContent (answer_head query
                                  ++ join_strings (nl ++ nl) blocks
                                  ++ answer_instructions)%string) s)
      /\ (forall l1 a l2 b l3,
            blocks = l1 ++ a :: l2 ++ b :: l3 ->
            exists pre mid post,
              (answer_head query ++ join_strings (nl ++ nl) blocks
               ++ answer_instructions)%string
              = (pre ++ a ++ mid ++ b ++ post)%string).
Proof.
  intros query papers Hscores.
  destruct (context_blocks_defined Hscores) as [blocks [Hmap Hblocks]].
  exists blocks. split; [|split; [|split]].
  - clear Hmap. induction Hblocks as [|p block ps bs Hb _ IH]; [constructor|].
    inversion Hscores as [|? ? Hp Hrest]; subst.
    constructor; [|exact (IH Hrest)].
    unfold context_block in Hb.
    destruct (similarity p) as [score|]; [|congruence].
    exists score. split; [reflexivity|]. now injection Hb as <-.
  - unfold answer_context. now rewrite Hmap.
  - intros s. unfold generateAnswer, bind, lift, answer_context, answer_prompt.
    rewrite Hmap. reflexivity.
  - intros l1 a l2 b l3 ->.
    destruct (join_strings_order (nl ++ nl) a b l1 l2 l3)
      as [pre [mid [post Heq]]].
    exists (answer_head query ++ pre)%string, mid,
           (post ++ answer_instructions)%string.
    rewrite Heq. now rewrite !string_app_assoc.
Qed.

End SynthesizerFacts.

(** Two matches: the prompt lists [First] before [Second]. *)
Lemma C7_witness :
  exists blocks,
    answer_context (SV := Demo.services)
      (flat_map (retrieved (SV := Demo.services)) Demo.answer_mixed)
    = Ok (join_strings (nl ++ nl) blocks)
    /\ length blocks = 2.
Proof.
  destruct (@C7_grounded_prompt_order Demo.services "cows"
              (flat_map (retrieved (SV := Demo.services)) Demo.answer_mixed))
    as [blocks [Hblocks [Hcontext _]]].
  - repeat constructor; discriminate.
  - exists blocks. split; [exact Hcontext|].
    apply Forall2_length in Hblocks. now rewrite <- Hblocks.
Defined.

(** ** The indexing step *)

Section IndexerRuns.

Context {SV : Services}.

(** *** Lists of tasks and counts of events *)

Lemma count_app (f : Event -> bool) (a b : list Event) :
  count f (a ++ b) = count f a + count f b.
Proof.
  unfold count. now rewrite filter_app, length_app.
Qed.

Lemma count_none (f : Event -> bool) (Q : Event -> Prop) (evs : list Event) :
  (forall e, Q e -> f e = false) -> Forall Q evs -> count f evs = 0.
Proof.
  intros Hf. induction 1 as [|e evs He _ IH]; [reflexivity|].
  unfold count in *. cbn [filter]. now rewrite (Hf e He).
Qed.

Lemma count_removelast (f : Event -> bool) (evs : list Event) :
  count f evs = 0 -> count f (removelast evs) = 0.
Proof.
  unfold count. induction evs as [|e evs IH]; [reflexivity|].
  destruct evs as [|e' evs]; [reflexivity|].
  change (removelast (e :: e' :: evs)) with (e :: removelast (e' :: evs)).
  cbn [filter]. destruct (f e); cbn [length]; [discriminate|exact IH].
Qed.

Lemma length_set_nth (i : nat) (t : Task) (ts : list Task) :
  length (set_nth i t ts) = length ts.
Proof.
  revert i. induction ts as [|t0 ts IH]; intros [|i]; cbn; congruence.
Qed.

Lemma nth_error_set_nth_eq (i : nat) (t t' : Task) (ts : list Task) :
  nth_error ts i = Some t -> nth_error (set_nth i t' ts) i = Some t'.
Proof.
  revert i. induction ts as [|t0 ts IH]; intros [|i]; cbn; try discriminate.
  - reflexivity.
  - apply IH.
Qed.

Lemma nth_error_set_nth_neq (i j : nat) (t' : Task) (ts : list Task) :
  i <> j -> nth_error (set_nth i t' ts) j = nth_error ts j.
Proof.
  revert i j. induction ts as [|t0 ts IH]; intros [|i] [|j] Hij; cbn;
    try reflexivity; try congruence.
  apply IH. congruence.
Qed.

Lemma total_set_nth (w : Task -> nat) (i : nat) (t t' : Task) (ts : list Task) :
  nth_error ts i = Some t ->
  total w (set_nth i t' ts) + w t = total w ts + w t'.
Proof.
  revert i.
  induction ts as [|t0 ts IH]; intros [|i]; cbn [total set_nth nth_error];
    try discriminate.
  - intros [= ->]. lia.
  - intros H. specialize (IH i H). lia.
Qed.

Lemma total_le_length (w : Task -> nat) (ts : list Task) :
  (forall t, w t <= 1) -> total w ts <= length ts.
Proof.
  intros Hw.
  induction ts as [|t ts IH]; cbn [total length]; [lia|]. specialize (Hw t). lia.
Qed.

Lemma first_rejection_set_nth (i : nat) (t : Task) (e : Exn) (ts : list Task) :
  nth_error ts i = Some t ->
  first_rejection (set_nth i (Rejected e) ts) <> None.
Proof.
  revert i. induction ts as [|t0 ts IH]; intros [|i]; cbn; try discriminate.
  intros H. destruct t0; try discriminate; apply (IH i H).
Qed.

(** *** One call settles *)

Lemma settle_Settles (t : Task) (s : St) :
  exists evs, Settles t s (fst (settle t s)) (snd (settle t s)) evs.
Proof.
  destruct t as [paper content|record| |e]; cbn [settle].
  - destruct (embedContent content (world s)) as [[embedding|e] w] eqn:He.
    + destruct (build_record paper embedding) as [record|e] eqn:Hb.
      * eexists. cbn [fst snd log world trace].
        eapply settles_embed_fulfilled; eassumption.
      * eexists. eapply settles_embed_unusable; eassumption.
    + eexists. eapply settles_embed_rejected; eassumption.
  - destruct (index_upsert [record] (world s)) as [[u|e] w] eqn:Hu.
    + eexists. eapply settles_upsert_fulfilled; eassumption.
    + eexists. eapply settles_upsert_rejected; eassumption.
  - eexists. constructor.
  - eexists. constructor.
Qed.

Lemma Settles_trace t s t' s' evs :
  Settles t s t' s' evs -> trace s' = trace s ++ evs.
Proof.
  destruct 1; cbn [trace]; try reflexivity.
  - now rewrite <- app_assoc.
  - now rewrite app_nil_r.
  - now rewrite app_nil_r.
Qed.

Lemma Settles_pending t s t' s' evs :
  Settles t s t' s' evs -> pending_calls t' <= pred (pending_calls t).
Proof.
  destruct 1; cbn; lia.
Qed.

(** *** The schedule *)

Lemma run_schedule_stopped (sched : list nat) (ts : list Task) (s : St) (e : Exn) :
  first_rejection ts = Some e -> run_schedule sched ts s = (ts, s).
Proof.
  intros H. destruct sched; cbn [run_schedule]; [reflexivity|]. now rewrite H.
Qed.

Lemma run_schedule_app (a b : list nat) (ts : list Task) (s : St) :
  run_schedule (a ++ b) ts s
  = run_schedule b (fst (run_schedule a ts s)) (snd (run_schedule a ts s)).
Proof.
  revert ts s. induction a as [|i a IH]; intros ts s; [reflexivity|].
  cbn [app run_schedule].
  destruct (first_rejection ts) as [e|] eqn:Hr.
  - cbn [fst snd]. symmetry. apply (run_schedule_stopped b ts s Hr).
  - destruct (nth_error ts i) as [t|]; [|apply IH].
    destruct (settle t s) as [t' s']. apply IH.
Qed.

Lemma run_schedule_clean (sched : list nat) (ts : list Task) (s : St) :
  first_rejection (fst (run_schedule sched ts s)) = None ->
  first_rejection ts = None.
Proof.
  destruct (first_rejection ts) as [e|] eqn:Hr; [|reflexivity].
  rewrite (run_schedule_stopped sched ts s Hr). cbn [fst]. congruence.
Qed.

(** What holds of the tasks, the world and the events so far, and is kept
    by every settling, holds when the schedule is through. *)
Lemma run_schedule_invariant (I : list Task -> World -> list Event -> Prop) :
  (forall ts s i t t' s' new evs,
      first_rejection ts = None ->
      nth_error ts i = Some t ->
      Settles t s t' s' new ->
      I ts (world s) evs ->
      I (set_nth i t' ts) (world s') (evs ++ new)) ->
  forall sched ts s evs,
    I ts (world s) evs ->
    exists new,
      trace (snd (run_schedule sched ts s)) = trace s ++ new
      /\ I (fst (run_schedule sched ts s))
           (world (snd (run_schedule sched ts s))) (evs ++ new).
Proof.
  intros Hstep. induction sched as [|i sched IH]; intros ts s evs HI.
  - exists []. cbn [run_schedule fst snd]. now rewrite !app_nil_r.
  - cbn [run_schedule].
    destruct (first_rejection ts) as [e|] eqn:Hr.
    { exists []. cbn [fst snd]. now rewrite !app_nil_r. }
    destruct (nth_error ts i) as [t|] eqn:Hi; [|apply (IH ts s evs HI)].
    destruct (settle_Settles t s) as [new Hnew].
    destruct (settle t s) as [t' s']. cbn [fst snd] in Hnew.
    destruct (IH (set_nth i t' ts) s' (evs ++ new)
                (Hstep _ _ _ _ _ _ _ _ Hr Hi Hnew HI)) as [more [Htr HI']].
    exists (new ++ more). split.
    + rewrite Htr, (Settles_trace Hnew). now rewrite app_assoc.
    + now rewrite app_assoc.
Qed.

Lemma run_schedule_length (sched : list nat) (ts : list Task) (s : St) :
  length (fst (run_schedule sched ts s)) = length ts.
Proof.
  destruct (run_schedule_invariant
              (fun ts' _ _ => length ts' = length ts)
              (fun ts0 s0 i t t' s' new evs _ _ _ H =>
                 eq_trans (length_set_nth i t' ts0) H)
              sched ts s [] eq_refl) as [_ [_ H]].
  exact H.
Qed.

(** One pass over the papers [k], ..., [k + m - 1] brings each of their
    tasks one call nearer to its end. *)
Lemma run_schedule_sweep (m : nat) :
  forall (k : nat) (ts : list Task) (s : St) (b : nat),
    first_rejection (fst (run_schedule (seq k m) ts s)) = None ->
    (forall i t, nth_error ts i = Some t ->
                 pending_calls t <= S b /\ (i < k -> pending_calls t <= b)) ->
    forall i t,
      nth_error (fst (run_schedule (seq k m) ts s)) i = Some t ->
      pending_calls t <= S b /\ (i < k + m -> pending_calls t <= b).
Proof.
  induction m as [|m IH]; intros k ts s b Hclean Hpre i t Hi.
  - cbn [seq run_schedule fst] in Hi. rewrite Nat.add_0_r. now apply Hpre.
  - cbn [seq run_schedule] in Hclean, Hi.
    destruct (first_rejection ts) as [e|] eqn:Hr.
    { cbn [fst] in Hclean. congruence. }
    destruct (nth_error ts k) as [tk|] eqn:Hk.
    + destruct (settle_Settles tk s) as [new Hnew].
      destruct (settle tk s) as [t' s']. cbn [fst snd] in Hnew.
      apply Settles_pending in Hnew.
      assert (Hpre' : forall j u,
                 nth_error (set_nth k t' ts) j = Some u ->
                 pending_calls u <= S b /\ (j < S k -> pending_calls u <= b)).
      { intros j u Hj. destruct (Nat.eq_dec k j) as [<-|Hkj].
        - rewrite (@nth_error_set_nth_eq k tk t' ts Hk) in Hj. injection Hj as <-.
          destruct (Hpre k tk Hk) as [Hb _]. split; [lia|]. intros _. lia.
        - rewrite (@nth_error_set_nth_neq k j t' ts Hkj) in Hj.
          destruct (Hpre j u Hj) as [Hb Hlt]. split; [exact Hb|].
          intros Hjk. apply Hlt. lia. }
      destruct (IH (S k) _ _ b Hclean Hpre' i t Hi) as [Hb Hlt].
      split; [exact Hb|]. intros Hik. apply Hlt. lia.
    + assert (Hpre' : forall j u,
                 nth_error ts j = Some u ->
                 pending_calls u <= S b /\ (j < S k -> pending_calls u <= b)).
      { intros j u Hj. destruct (Hpre j u Hj) as [Hb Hlt].
        split; [exact Hb|]. intros Hjk. apply Hlt.
        assert (j <> k) by congruence. lia. }
      destruct (IH (S k) _ _ b Hclean Hpre' i t Hi) as [Hb Hlt].
      split; [exact Hb|]. intros Hik. apply Hlt. lia.
Qed.

Lemma settled_all_fulfilled (ts : list Task) :
  first_rejection ts = None ->
  (forall i t, nth_error ts i = Some t -> pending_calls t = 0) ->
  total fulfilled_w ts = length ts.
Proof.
  induction ts as [|t ts IH]; intros Hr Hp; [reflexivity|].
  pose proof (Hp 0 t eq_refl) as Ht.
  destruct t; cbn in Ht, Hr; try discriminate.
  cbn [total fulfilled_w length Nat.add]. f_equal.
  apply (IH Hr). intros i u Hi. apply (Hp (S i) u Hi).
Qed.

End IndexerRuns.

Section IndexerInvariant.

Context {SV : Services}.

Lemma embed_calls_issued (papers : list JsVal) :
  Forall (fun e => exists content, e = Issued Index (CEmbed content))
    (embed_calls papers).
Proof.
  unfold embed_calls. induction papers as [|p ps IH]; cbn [flat_map].
  - constructor.
  - apply Forall_app. split; [|exact IH].
    destruct (get p "summary") as [content|]; repeat constructor.
    now exists content.
Qed.

Lemma embed_calls_defined (papers : list JsVal) :
  Forall (fun paper => paper <> JUndefined) papers ->
  embed_calls papers
  = map (fun paper =>
           Issued Index
             (CEmbed (match paper with
                      | JObject fields => lookup "summary" fields
                      | _ => JUndefined
                      end))) papers.
Proof.
  unfold embed_calls. induction 1 as [|p ps Hp _ IH]; [reflexivity|].
  cbn [flat_map map]. rewrite IH.
  destruct p; cbn [get app]; try reflexivity. congruence.
Qed.

Lemma start_all_spec (papers : list JsVal) (s : St) :
  trace (snd (start_all papers s)) = trace s ++ embed_calls papers
  /\ world (snd (start_all papers s)) = world s
  /\ length (fst (start_all papers s)) = length papers
  /\ total fulfilled_w (fst (start_all papers s)) = 0
  /\ total upserting_w (fst (start_all papers s)) <= length papers.
Proof.
  revert s. induction papers as [|p ps IH]; intros s.
  - cbn. rewrite app_nil_r. repeat split. lia.
  - cbn [start_all embed_calls flat_map].
    destruct (start_task p s) as [t s1] eqn:Hst.
    specialize (IH s1). destruct (start_all ps s1) as [ts s2].
    cbn [fst snd] in *. destruct IH as (Htr & Hw & Hlen & Hf & Hu).
    unfold start_task in Hst.
    destruct (get p "summary") as [content|e]; injection Hst as <- <-;
      cbn [total fulfilled_w upserting_w length log trace world] in *;
      rewrite Htr, Hw, Hlen, Hf; repeat split; try lia.
    + now rewrite <- app_assoc.
Qed.

Section Kept.

(** A property [P record] of the world that every settling of an embedding
    or an upsert keeps, and that the fulfilled upsert of [record] brings
    about: [record] is in the index, say. *)
Variable P : IndexRecord Embedding -> World -> Prop.

Hypothesis P_embed :
  forall record content w, P record w -> P record (snd (embedContent content w)).

Hypothesis P_upsert :
  forall record records w, P record w -> P record (snd (index_upsert records w)).

Hypothesis P_written :
  forall record w,
    is_ok (fst (index_upsert [record] w)) = true ->
    P record (snd (index_upsert [record] w)).

Lemma Good_step (n k : nat) ts s i t t' s' new evs :
  first_rejection ts = None ->
  nth_error ts i = Some t ->
  Settles t s t' s' new ->
  Good P n k ts (world s) evs ->
  Good P n k (set_nth i t' ts) (world s') (evs ++ new).
Proof.
  intros Hr Hi Hset (Hlen & Hst & Hlast & Hrej & Hwr & Hiss & Hemb & HP).
  specialize (Hrej Hr).
  pose proof (@total_set_nth SV fulfilled_w i t t' ts Hi) as Hf.
  pose proof (@total_set_nth SV upserting_w i t t' ts Hi) as Hu.
  unfold Good. rewrite length_set_nth, !count_app.
  split; [exact Hlen|].
  split; [apply Forall_app; split; [exact Hst|destruct Hset; repeat constructor]|].
  split; [destruct Hset;
          first [ rewrite app_nil_r; exact Hlast
                | rewrite removelast_app by discriminate;
                  rewrite count_app, Hrej; reflexivity ]|].
  split; [destruct Hset;
          first [ intros Hn; exfalso;
                  exact (@first_rejection_set_nth SV i _ _ ts Hi Hn)
                | intros _; rewrite Hrej; reflexivity ]|].
  split; [destruct Hset; cbn [fulfilled_w] in Hf;
          unfold count at 2; cbn [filter upsert_written length]; lia|].
  split; [destruct Hset; cbn [upserting_w] in Hu;
          unfold count at 2; cbn [filter upsert_issued length]; lia|].
  split; [destruct Hset;
          unfold count at 2; cbn [filter embed_issued length]; lia|].
  intros record Hin. apply in_app_iff in Hin.
  destruct Hset as [paper content s e w He
                   |paper content s embedding e w He Hb
                   |paper content s embedding rec w He Hb
                   |rec s e w Hup
                   |rec s u w Hup
                   |s
                   |e s]; cbn [world].
  - destruct Hin as [Hin|[Hin|[]]]; [|discriminate].
    replace w with (snd (embedContent content (world s))) by now rewrite He.
    apply P_embed, HP, Hin.
  - destruct Hin as [Hin|[Hin|[]]]; [|discriminate].
    replace w with (snd (embedContent content (world s))) by now rewrite He.
    apply P_embed, HP, Hin.
  - destruct Hin as [Hin|[Hin|[Hin|[]]]]; [|discriminate|discriminate].
    replace w with (snd (embedContent content (world s))) by now rewrite He.
    apply P_embed, HP, Hin.
  - destruct Hin as [Hin|[Hin|[]]]; [|discriminate].
    replace w with (snd (index_upsert [rec] (world s))) by now rewrite Hup.
    apply P_upsert, HP, Hin.
  - replace w with (snd (index_upsert [rec] (world s))) by now rewrite Hup.
    destruct Hin as [Hin|[Hin|[]]].
    + apply P_upsert, HP, Hin.
    + injection Hin as <-. apply P_written. now rewrite Hup.
  - destruct Hin as [Hin|[]]. apply HP, Hin.
  - destruct Hin as [Hin|[]]. apply HP, Hin.
Qed.

(** The indexing step as a whole: the tasks it leaves and the events it
    adds to the trace. *)
Lemma index_run_good (papers : list JsVal) (sched : list nat) (s : St) :
  exists rest,
    trace (snd (index_run papers sched s))
    = trace s ++ embed_calls papers ++ rest
    /\ Good P (length papers) (count embed_issued (embed_calls papers))
         (fst (index_run papers sched s))
         (world (snd (index_run papers sched s)))
         (embed_calls papers ++ rest).
Proof.
  unfold index_run.
  destruct (start_all_spec papers s) as (Htr & Hw & Hlen & Hf & Hu).
  destruct (start_all papers s) as [ts0 s0]. cbn [fst snd] in *.
  pose proof (embed_calls_issued papers) as Hcalls.
  assert (Hzero : forall f,
             (forall content, f (Issued Index (CEmbed content)) = false) ->
             count f (embed_calls papers) = 0).
  { intros f Hf0.
    apply (@count_none _ f (fun e => exists content,
                                e = Issued Index (CEmbed content)) _);
      [|exact Hcalls].
    intros e [content ->]. apply Hf0. }
  assert (Hgood : Good P (length papers)
                    (count embed_issued (embed_calls papers))
                    ts0 (world s0) (embed_calls papers)).
  { unfold Good. split; [exact Hlen|].
    split.
    { eapply Forall_impl; [|exact Hcalls]. now intros e [content ->]. }
    split; [apply count_removelast, Hzero; reflexivity|].
    split; [intros _; apply Hzero; reflexivity|].
    split; [rewrite Hf; apply Hzero; reflexivity|].
    split; [rewrite Hzero by reflexivity; lia|].
    split; [reflexivity|].
    intros record Hin. rewrite Forall_forall in Hcalls.
    destruct (Hcalls _ Hin) as [content Heq]. discriminate. }
  destruct (@run_schedule_invariant _
              (Good P (length papers) (count embed_issued (embed_calls papers)))
              (fun ts1 s1 i t t' s' new evs H1 H2 H3 H4 =>
                 @Good_step _ _ ts1 s1 i t t' s' new evs H1 H2 H3 H4)
              (full_schedule (length papers) sched) ts0 s0
              (embed_calls papers) Hgood)
    as [rest [Hrest Hfinal]].
  exists rest. split; [|exact Hfinal].
  rewrite Hrest, Htr. now rewrite <- app_assoc.
Qed.

End Kept.

End IndexerInvariant.

Section IndexerTheorem.

Context {SV : Services}.

(** When no task is rejected at the end of the step, every task has been
    fulfilled: no call is left pending. *)
Lemma index_run_settled (papers : list JsVal) (sched : list nat) (s : St) :
  first_rejection (fst (index_run papers sched s)) = None ->
  total fulfilled_w (fst (index_run papers sched s)) = length papers.
Proof.
  unfold index_run.
  destruct (start_all_spec papers s) as (_ & _ & Hlen & _).
  destruct (start_all papers s) as [ts0 s0]. cbn [fst snd] in Hlen.
  unfold full_schedule. rewrite !run_schedule_app.
  set (r1 := run_schedule sched ts0 s0).
  set (r2 := run_schedule (seq 0 (length papers)) (fst r1) (snd r1)).
  set (r3 := run_schedule (seq 0 (length papers)) (fst r2) (snd r2)).
  intros Hclean.
  assert (Hclean2 : first_rejection (fst r2) = None)
    by exact (run_schedule_clean _ _ _ Hclean).
  assert (Hlen1 : length (fst r1) = length papers)
    by (unfold r1; now rewrite run_schedule_length).
  assert (Hlen2 : length (fst r2) = length papers)
    by (unfold r2; now rewrite run_schedule_length).
  assert (Hlen3 : length (fst r3) = length papers)
    by (unfold r3; now rewrite run_schedule_length).
  assert (H2 : forall i t, nth_error (fst r2) i = Some t -> pending_calls t <= 1).
  { intros i t Hi.
    destruct (@run_schedule_sweep _ (length papers) 0 (fst r1) (snd r1) 1
                Hclean2) with (i := i) (t := t) as [_ Hlt].
    - intros j u _. split; [destruct u; cbn; lia|lia].
    - exact Hi.
    - apply Hlt. rewrite <- Hlen2. apply nth_error_Some. congruence. }
  assert (H3 : forall i t, nth_error (fst r3) i = Some t -> pending_calls t = 0).
  { intros i t Hi.
    destruct (@run_schedule_sweep _ (length papers) 0 (fst r2) (snd r2) 0
                Hclean) with (i := i) (t := t) as [_ Hlt].
    - intros j u Hj. split; [exact (H2 j u Hj)|lia].
    - exact Hi.
    - assert (i < 0 + length papers).
      { rewrite <- Hlen3. apply nth_error_Some. congruence. }
      specialize (Hlt H). lia. }
  rewrite <- Hlen3. apply settled_all_fulfilled; assumption.
Qed.

Lemma upsertToPinecone_run (papers : list JsVal) (sched : list nat) (s : St) :
  snd (upsertToPinecone papers sched s) = snd (index_run papers sched s)
  /\ is_ok (fst (upsertToPinecone papers sched s))
     = match first_rejection (fst (index_run papers sched s)) with
       | None => true
       | Some _ => false
       end.
Proof.
  unfold upsertToPinecone.
  destruct (index_run papers sched s) as [ts s1]. cbn [fst snd].
  destruct (first_rejection ts); split; reflexivity.
Qed.

(** What the indexing step adds to the trace, and when it fails. *)
Lemma indexing_step (papers : list JsVal) (sched : list nat) (s : St) :
  exists rest,
    trace (snd (upsertToPinecone papers sched s))
    = trace s ++ embed_calls papers ++ rest
    /\ count embed_issued rest = 0
    /\ count upsert_issued rest <= length papers
    /\ count rejected (removelast rest) = 0
    /\ (count rejected rest <> 0 ->
        is_ok (fst (upsertToPinecone papers sched s)) = false)
    /\ (is_ok (fst (upsertToPinecone papers sched s)) = true ->
        count upsert_written rest = length papers
        /\ count rejected rest = 0).
Proof.
  destruct (upsertToPinecone_run papers sched s) as [Hsnd Hok].
  rewrite Hsnd, Hok.
  destruct (@index_run_good _ (fun _ _ => True)
              (fun _ _ _ _ => I) (fun _ _ _ _ => I) (fun _ _ _ => I)
              papers sched s)
    as [rest [Htrace (Hlen & Hst & Hlast & Hrej & Hwr & Hiss & Hemb & _)]].
  pose proof (embed_calls_issued papers) as Hcalls.
  assert (Hzero : forall f,
             (forall content, f (Issued Index (CEmbed content)) = false) ->
             count f (embed_calls papers) = 0).
  { intros f Hf0.
    apply (@count_none _ f (fun e => exists content,
                                e = Issued Index (CEmbed content)) _);
      [|exact Hcalls].
    intros e [content ->]. apply Hf0. }
  rewrite !count_app in *.
  rewrite (Hzero rejected) in Hrej by reflexivity.
  rewrite (Hzero upsert_written) in Hwr by reflexivity.
  rewrite (Hzero upsert_issued) in Hiss by reflexivity.
  exists rest. split; [exact Htrace|].
  split; [lia|].
  split.
  { pose proof (@total_le_length _ upserting_w (fst (index_run papers sched s))
                  (fun t => match t with
                            | AwaitEmbed _ _ => le_S _ _ (le_n 0)
                            | _ => le_n 1
                            end)).
    cbn [Nat.add] in Hiss. lia. }
  split.
  { destruct rest as [|e rest]; [reflexivity|].
    rewrite removelast_app in Hlast by discriminate.
    rewrite count_app in Hlast. lia. }
  split.
  { intros Hfail.
    destruct (first_rejection (fst (index_run papers sched s))); [reflexivity|].
    specialize (Hrej eq_refl). cbn [Nat.add] in Hrej. contradiction. }
  intros Hsucc.
  destruct (first_rejection (fst (index_run papers sched s))) eqn:Hr;
    [discriminate|].
  rewrite (index_run_settled papers sched s Hr) in Hwr.
  specialize (Hrej eq_refl). cbn [Nat.add] in Hrej, Hwr. split; assumption.
Qed.

(** C2. The indexing step of [papers] under any order of settling.  It
    issues one embedding request per paper, all of them before any call
    settles, and never a second one; it issues at most one upsert per
    paper; a rejected call can only be the last event of the step, so
    nothing is retried or issued after it; when any call is rejected the
    step fails; when the step succeeds, as many upserts were fulfilled as
    there are papers, and no call was rejected; and whatever a fulfilled
    upsert established in the world, and the services themselves keep,
    still holds when the step ends, failed or not: nothing is rolled
    back. *)
Theorem C2_indexing_all_or_nothing :
  forall (papers : list JsVal) (sched : list nat) (s : St),
  exists rest,
    trace (snd (upsertToPinecone papers sched s))
    = trace s ++ embed_calls papers ++ rest
    /\ (Forall (fun paper => paper <> JUndefined) papers ->
        length (embed_calls papers) = length papers)
    /\ count embed_issued rest = 0
    /\ count upsert_issued rest <= length papers
    /\ count rejected (removelast rest) = 0
    /\ (count rejected rest <> 0 ->
        is_ok (fst (upsertToPinecone papers sched s)) = false)
    /\ (is_ok (fst (upsertToPinecone papers sched s)) = true ->
        count upsert_written rest = length papers
        /\ count rejected rest = 0)
    /\ (forall P : IndexRecord Embedding -> World -> Prop,
          (forall record content w,
              P record w -> P record (snd (embedContent content w))) ->
          (forall record records w,
              P record w -> P record (snd (index_upsert records w))) ->
          (forall record w,
              is_ok (fst (index_upsert [record] w)) = true ->
              P record (snd (index_upsert [record] w))) ->
          forall record,
            In (Settled Index (CUpsert [record]) true) rest ->
            P record (world (snd (upsertToPinecone papers sched s)))).
Proof.
  intros papers sched s.
  destruct (indexing_step papers sched s)
    as [rest (Htrace & Hemb & Hiss & Hlast & Hfail & Hsucc)].
  exists rest.
  split; [exact Htrace|].
  split.
  { intros Hdef. rewrite (embed_calls_defined Hdef). apply length_map. }
  split; [exact Hemb|]. split; [exact Hiss|]. split; [exact Hlast|].
  split; [exact Hfail|]. split; [exact Hsucc|].
  intros P Hembed Hupsert Hwritten record Hin.
  destruct (upsertToPinecone_run papers sched s) as [Hsnd _].
  rewrite Hsnd in *.
  destruct (@index_run_good _ P Hembed Hupsert Hwritten papers sched s)
    as [rest' [Htrace' (_ & _ & _ & _ & _ & _ & _ & HP)]].
  rewrite Htrace in Htrace'.
  apply app_inv_head in Htrace'. apply app_inv_head in Htrace'. subst rest'.
  apply HP. apply in_app_iff. now right.
Qed.

End IndexerTheorem.

(** ** The handler *)

Section HandlerFacts.

Context {SV : Services}.


Lemma runs_within_lift {A} (Q : Event -> Prop) (r : Result A) :
  runs_within Q (lift r).
Proof.
  intros s. exists []. cbn. rewrite app_nil_r. repeat split. constructor.
Qed.

Lemma runs_within_throw {A} (Q : Event -> Prop) (e : Exn) :
  runs_within Q (throw (A := A) e).
Proof.
  intros s. exists []. cbn. rewrite app_nil_r. repeat split. constructor.
Qed.

Lemma runs_within_await {A} (Q : Event -> Prop) (stage : Stage) (c : Call)
  (op : World -> Result A * World) :
  Q (Issued stage c) -> (forall b, Q (Settled stage c b)) ->
  runs_within Q (await stage c op).
Proof.
  intros Hi Hs s. rewrite await_run. cbn [fst snd trace].
  eexists. split; [reflexivity|]. split; [repeat constructor; auto|].
  intros ->. reflexivity.
Qed.

Lemma runs_within_bind {A B} (Q : Event -> Prop) (m : M A) (k : A -> M B) :
  runs_within Q m -> (forall a, runs_within Q (k a)) ->
  runs_within Q (bind m k).
Proof.
  intros Hm Hk s. unfold bind.
  destruct (Hm s) as [evs [Htr [HQ Hclean]]].
  destruct (m s) as [[a|e] s1]; cbn [fst snd] in *.
  - destruct (Hk a s1) as [evs' [Htr' [HQ' Hclean']]].
    exists (evs ++ evs'). split; [|split].
    + rewrite Htr', Htr. now rewrite app_assoc.
    + apply Forall_app. now split.
    + intros Hok. rewrite count_app, (Hclean eq_refl), (Hclean' Hok). reflexivity.
  - exists evs. split; [exact Htr|]. split; [exact HQ|]. discriminate.
Qed.


Lemma extractKeywords_runs (query : string) :
  runs_within (in_stage Interpret) (extractKeywords query).
Proof.
  apply runs_within_await; reflexivity.
Qed.

Lemma fetchArxivPapers_runs (keywords : string) :
  runs_within (in_stage Fetch) (fetchArxivPapers keywords).
Proof.
  unfold fetchArxivPapers. apply runs_within_bind.
  - apply runs_within_await; reflexivity.
  - intros response. destruct (negb (ok response)).
    + apply runs_within_throw.
    + apply runs_within_bind; [apply runs_within_lift|]. intros xml.
      apply runs_within_bind; [apply runs_within_lift|]. intros result.
      apply runs_within_lift.
Qed.

Lemma upsertToPinecone_runs (papers : list JsVal) (sched : list nat) :
  runs_within (in_stage Index) (upsertToPinecone papers sched).
Proof.
  intros s.
  destruct (upsertToPinecone_run papers sched s) as [Hsnd Hok].
  rewrite Hsnd, Hok.
  destruct (@index_run_good _ (fun _ _ => True)
              (fun _ _ _ _ => I) (fun _ _ _ _ => I) (fun _ _ _ => I)
              papers sched s)
    as [rest [Htrace (_ & Hst & _ & Hrej & _)]].
  exists (embed_calls papers ++ rest).
  split; [exact Htrace|]. split; [exact Hst|].
  destruct (first_rejection (fst (index_run papers sched s)));
    [discriminate|]. intros _. now apply Hrej.
Qed.

Lemma performVectorSearch_runs (query : string) :
  runs_within (in_stage Search) (performVectorSearch query).
Proof.
  unfold performVectorSearch. apply runs_within_bind.
  - apply runs_within_await; reflexivity.
  - intros embedding. apply runs_within_bind.
    + apply runs_within_await; reflexivity.
    + intros matches. apply runs_within_lift.
Qed.

Lemma generateAnswer_runs (query : string)
  (relevantPapers : list (RelevantPaper Number)) :
  runs_within (in_stage GroundedSynthesize) (generateAnswer query relevantPapers).
Proof.
  unfold generateAnswer. apply runs_within_bind.
  - apply runs_within_lift.
  - intros context. apply runs_within_await; reflexivity.
Qed.


(** [GET] after the fetch: the fallback path on an empty list, the grounded
    path otherwise. *)
Lemma GET_try_paths (param : option string) (sched : list nat) (s s1 s2 : St)
  (keywords : string) (papers : list JsVal) :
  extractKeywords (userQuery_of param) s = (Ok keywords, s1) ->
  fetchArxivPapers keywords s1 = (Ok papers, s2) ->
  GET_try param sched s
  = match papers with
    | [] => fallback_path (userQuery_of param) keywords s2
    | _ :: _ => grounded_path (userQuery_of param) keywords papers sched s2
    end.
Proof.
  intros Hk Hf. unfold GET_try.
  unfold bind at 1. rewrite Hk. unfold bind at 1. rewrite Hf.
  destruct papers; reflexivity.
Qed.

Lemma GET_of_try (param : option string) (sched : list nat) (s : St) :
  GET param sched s
  = (match fst (GET_try param sched s) with
     | Ok response => response
     | Throw _ => failure_response
     end, snd (GET_try param sched s)).
Proof.
  unfold GET. destruct (GET_try param sched s) as [[r|e] s']; reflexivity.
Qed.

Lemma fallback_path_run (userQuery keywords : string) (s : St) :
  fallback_path userQuery keywords s
  = (match fst (generateContent (noResults_prompt userQuery) (world s)) with
     | Ok answer => Ok (json (AnswerBody answer keywords []))
     | Throw e => Throw e
     end,
     {| world := snd (generateContent (noResults_prompt userQuery) (world s));
        trace := trace s
                 ++ [Issued FallbackSynthesize
                       (CGenerate (noResults_prompt userQuery));
                     Settled FallbackSynthesize
                       (CGenerate (noResults_prompt userQuery))
                       (is_ok (fst (generateContent
                                      (noResults_prompt userQuery) (world s))))] |}).
Proof.
  unfold fallback_path, bind, generateNoResultsAnswer. rewrite await_run.
  destruct (fst (generateContent (noResults_prompt userQuery) (world s)));
    reflexivity.
Qed.

Lemma grounded_path_run (userQuery keywords : string) (papers : list JsVal)
  (sched : list nat) (s : St) :
  grounded_path userQuery keywords papers sched s
  = match upsertToPinecone papers sched s with
    | (Throw e, s3) => (Throw e, s3)
    | (Ok _, s3) =>
        match performVectorSearch userQuery s3 with
        | (Throw e, s4) => (Throw e, s4)
        | (Ok relevantPapers, s4) =>
            match generateAnswer userQuery relevantPapers s4 with
            | (Throw e, s5) => (Throw e, s5)
            | (Ok answer, s5) =>
                (Ok (json (AnswerBody answer keywords papers)), s5)
            end
        end
    end.
Proof.
  reflexivity.
Qed.

(** The grounded path runs the three stages in their order: what it adds
    to the trace is the events of the indexing, then those of the search,
    then those of the generation. *)
Lemma grounded_path_trace (userQuery keywords : string) (papers : list JsVal)
  (sched : list nat) (s : St) :
  exists rest srch syn,
    trace (snd (grounded_path userQuery keywords papers sched s))
    = trace s ++ (embed_calls papers ++ rest) ++ srch ++ syn
    /\ trace (snd (upsertToPinecone papers sched s))
       = trace s ++ embed_calls papers ++ rest
    /\ Forall (in_stage Index) (embed_calls papers ++ rest)
    /\ Forall (in_stage Search) srch
    /\ Forall (in_stage GroundedSynthesize) syn
    /\ (srch <> [] -> is_ok (fst (upsertToPinecone papers sched s)) = true
                      /\ count rejected rest = 0)
    /\ (syn <> [] -> srch <> [] /\ count rejected srch = 0)
    /\ (is_ok (fst (upsertToPinecone papers sched s)) = true ->
        count upsert_written rest = length papers)
    /\ (is_ok (fst (grounded_path userQuery keywords papers sched s)) = true ->
        is_ok (fst (upsertToPinecone papers sched s)) = true
        /\ srch <> [] /\ syn <> []
        /\ count rejected (rest ++ srch ++ syn) = 0)
    /\ (count rejected (rest ++ srch ++ syn) <> 0 ->
        is_ok (fst (grounded_path userQuery keywords papers sched s)) = false).
Proof.
  destruct (indexing_step papers sched s)
    as [rest (Htr & _ & _ & _ & Hfail & Hsucc)].
  destruct (upsertToPinecone_runs papers sched s)
    as [idx [Hidx [Hin_idx _]]].
  assert (idx = embed_calls papers ++ rest) as ->.
  { rewrite Htr in Hidx. now apply app_inv_head in Hidx. }
  rewrite grounded_path_run.
  destruct (upsertToPinecone papers sched s) as [[u|e] s3]; cbn [fst snd] in *.
  2:{ exists rest, [], []. rewrite !app_nil_r.
      repeat split; try assumption; try constructor; try congruence;
        try discriminate. }
  destruct (Hsucc eq_refl) as [Hwritten Hclean].
  destruct (performVectorSearch_runs userQuery s3) as [srch [Hsr [Hin_sr Hsr_clean]]].
  assert (Hsr_ne : srch <> []).
  { unfold performVectorSearch, bind in Hsr. rewrite await_run in Hsr.
    destruct (fst (embedContent (JString userQuery) (world s3)));
      cbn [fst snd trace] in Hsr.
    - rewrite await_run in Hsr. cbn [snd trace fst world] in Hsr.
      destruct (fst (index_query _ _)); cbn [snd trace lift] in Hsr;
        rewrite <- app_assoc in Hsr; apply app_inv_head in Hsr;
        rewrite <- Hsr; discriminate.
    - apply app_inv_head in Hsr. rewrite <- Hsr. discriminate. }
  destruct (performVectorSearch userQuery s3) as [[relevant|e] s4];
    cbn [fst snd] in *.
  2:{ exists rest, srch, []. rewrite !app_nil_r.
      split; [rewrite Hsr, Htr; now rewrite <- !app_assoc|].
      repeat split; try assumption; try constructor; try congruence;
        try discriminate. }
  specialize (Hsr_clean eq_refl).
  destruct (generateAnswer_runs userQuery relevant s4)
    as [syn [Hsy [Hin_sy Hsy_clean]]].
  assert (Hsy_ne : is_ok (fst (generateAnswer userQuery relevant s4)) = true ->
                   syn <> []).
  { unfold generateAnswer, bind, lift in *.
    destruct (answer_context relevant); [|discriminate].
    rewrite await_run in Hsy. cbn [snd trace] in Hsy.
    apply app_inv_head in Hsy. rewrite <- Hsy. discriminate. }
  destruct (generateAnswer userQuery relevant s4) as [[answer|e] s5];
    cbn [fst snd ret] in *.
  - exists rest, srch, syn.
    split; [rewrite Hsy, Hsr, Htr; now rewrite <- !app_assoc|].
    specialize (Hsy_clean eq_refl). specialize (Hsy_ne eq_refl).
    repeat split; try assumption; try congruence.
    + rewrite !count_app, Hclean, Hsr_clean, Hsy_clean. reflexivity.
    + rewrite !count_app, Hclean, Hsr_clean, Hsy_clean.
      intros Hne. now contradiction Hne.
  - exists rest, srch, syn.
    split; [rewrite Hsy, Hsr, Htr; now rewrite <- !app_assoc|].
    repeat split; try assumption; try congruence; try discriminate.
Qed.

(** The events of a search: the embedding of the question first; the
    search returns when none of its calls was rejected, and only then. *)
Lemma performVectorSearch_events (query : string) (s : St) :
  exists tl,
    trace (snd (performVectorSearch query s))
    = trace s ++ Issued Search (CEmbed (JString query)) :: tl
    /\ Forall (in_stage Search) (Issued Search (CEmbed (JString query)) :: tl)
    /\ (count rejected (Issued Search (CEmbed (JString query)) :: tl) = 0 ->
        exists matches,
          fst (performVectorSearch query s) = Ok (flat_map retrieved matches))
    /\ (count rejected (Issued Search (CEmbed (JString query)) :: tl) <> 0 ->
        is_ok (fst (performVectorSearch query s)) = false).
Proof.
  unfold performVectorSearch, bind. rewrite await_run.
  destruct (embedContent (JString query) (world s)) as [[embedding|e] w1];
    cbn [fst snd is_ok trace].
  - rewrite await_run. cbn [world trace].
    destruct (index_query (search_request embedding) w1) as [[matches|e] w2];
      cbn [fst snd is_ok trace lift].
    + eexists. split; [rewrite <- app_assoc; reflexivity|].
      split; [repeat constructor|].
      rewrite select_matches_retrieved.
      split; [intros _; now exists matches|].
      intros Hne. now contradiction Hne.
    + eexists. split; [rewrite <- app_assoc; reflexivity|].
      split; [repeat constructor|].
      split; [discriminate|reflexivity].
  - eexists. split; [reflexivity|]. split; [repeat constructor|].
    split; [discriminate|reflexivity].
Qed.

(** The context of the matches a search keeps can always be written. *)
Lemma retrieved_context (matches : list (ScoredRecord Number)) :
  exists context, answer_context (flat_map retrieved matches) = Ok context.
Proof.
  destruct (context_blocks_defined (retrieved_scored matches))
    as [blocks [Hmap _]].
  exists (join_strings (nl ++ nl) blocks). unfold answer_context.
  now rewrite Hmap.
Qed.

(** The grounded path stage by stage: the indexing always runs; the search
    starts exactly when the indexing succeeded; the generation is called
    exactly when no call of the search was rejected, with the prompt of
    what the search returned; and the path returns exactly when the
    generation was not rejected. *)
Lemma grounded_path_progress (userQuery keywords : string)
  (papers : list JsVal) (sched : list nat) (s : St) :
  exists rest srch syn,
    trace (snd (grounded_path userQuery keywords papers sched s))
    = trace s ++ (embed_calls papers ++ rest) ++ srch ++ syn
    /\ trace (snd (upsertToPinecone papers sched s))
       = trace s ++ embed_calls papers ++ rest
    /\ Forall (in_stage Index) (embed_calls papers ++ rest)
    /\ Forall (in_stage Search) srch
    /\ Forall (in_stage GroundedSynthesize) syn
    /\ (is_ok (fst (upsertToPinecone papers sched s)) = false ->
        srch = [] /\ syn = []
        /\ is_ok (fst (grounded_path userQuery keywords papers sched s))
           = false)
    /\ (is_ok (fst (upsertToPinecone papers sched s)) = true ->
        count upsert_written rest = length papers
        /\ count rejected rest = 0
        /\ trace (snd (performVectorSearch userQuery
                         (snd (upsertToPinecone papers sched s))))
           = trace (snd (upsertToPinecone papers sched s)) ++ srch
        /\ (exists tl, srch = Issued Search (CEmbed (JString userQuery)) :: tl)
        /\ (count rejected srch <> 0 ->
            syn = []
            /\ is_ok (fst (grounded_path userQuery keywords papers sched s))
               = false)
        /\ (count rejected srch = 0 ->
            exists relevant context,
              fst (performVectorSearch userQuery
                     (snd (upsertToPinecone papers sched s))) = Ok relevant
              /\ answer_context relevant = Ok context
              /\ syn = [Issued GroundedSynthesize
                          (CGenerate (answer_prompt userQuery context));
                        Settled GroundedSynthesize
                          (CGenerate (answer_prompt userQuery context))
                          (is_ok (fst (grounded_path userQuery keywords
                                         papers sched s)))]))
    /\ (forall response,
          fst (grounded_path userQuery keywords papers sched s) = Ok response ->
          status response = 200).
Proof.
  destruct (indexing_step papers sched s)
    as [rest (Htr & _ & _ & _ & _ & Hsucc)].
  destruct (upsertToPinecone_runs papers sched s)
    as [idx [Hidx [Hin_idx _]]].
  assert (idx = embed_calls papers ++ rest) as ->.
  { rewrite Htr in Hidx. now apply app_inv_head in Hidx. }
  rewrite grounded_path_run.
  destruct (upsertToPinecone papers sched s) as [[u|e] s3]; cbn [fst snd] in *.
  2:{ exists rest, [], []. rewrite !app_nil_r.
      split; [exact Htr|]. split; [exact Htr|]. split; [exact Hin_idx|].
      split; [constructor|]. split; [constructor|].
      split; [intros _; repeat split|].
      split; [discriminate|]. intros response. discriminate. }
  destruct (Hsucc eq_refl) as [Hwritten Hclean].
  destruct (performVectorSearch_events userQuery s3)
    as [tl (Hsr & Hin_sr & Hsr_ok & Hsr_fail)].
  destruct (performVectorSearch userQuery s3) as [[relevant|e] s4];
    cbn [fst snd] in *.
  2:{ exists rest, (Issued Search (CEmbed (JString userQuery)) :: tl), [].
      rewrite !app_nil_r.
      split; [rewrite Hsr, Htr; now rewrite <- !app_assoc|].
      split; [exact Htr|]. split; [exact Hin_idx|].
      split; [exact Hin_sr|]. split; [constructor|].
      split; [discriminate|].
      split; [|intros response; discriminate].
      intros _. split; [exact Hwritten|]. split; [exact Hclean|].
      split; [exact Hsr|]. split; [now exists tl|].
      split; [intros _; split; reflexivity|].
      intros Hzero. destruct (Hsr_ok Hzero) as [matches Hm]. discriminate. }
  assert (Hzero : count rejected (Issued Search (CEmbed (JString userQuery)) :: tl)
                  = 0).
  { destruct (Nat.eq_dec
                (count rejected
                   (Issued Search (CEmbed (JString userQuery)) :: tl)) 0)
      as [H0|Hne]; [exact H0|].
    specialize (Hsr_fail Hne). discriminate Hsr_fail. }
  destruct (Hsr_ok Hzero) as [matches Hm]. injection Hm as ->.
  destruct (retrieved_context matches) as [context Hctx].
  unfold generateAnswer, bind, lift. rewrite Hctx, await_run. cbn [fst snd].
  exists rest, (Issued Search (CEmbed (JString userQuery)) :: tl),
    [Issued GroundedSynthesize (CGenerate (answer_prompt userQuery context));
     Settled GroundedSynthesize (CGenerate (answer_prompt userQuery context))
       (is_ok (fst (generateContent (answer_prompt userQuery context)
                      (world s4))))].
  assert (Htrace :
    trace s4
    ++ [Issued GroundedSynthesize (CGenerate (answer_prompt userQuery context));
        Settled GroundedSynthesize (CGenerate (answer_prompt userQuery context))
          (is_ok (fst (generateContent (answer_prompt userQuery context)
                         (world s4))))]
    = trace s ++ (embed_calls papers ++ rest)
      ++ (Issued Search (CEmbed (JString userQuery)) :: tl)
      ++ [Issued GroundedSynthesize (CGenerate (answer_prompt userQuery context));
          Settled GroundedSynthesize (CGenerate (answer_prompt userQuery context))
            (is_ok (fst (generateContent (answer_prompt userQuery context)
                           (world s4))))]).
  { rewrite Hsr, Htr. now rewrite <- !app_assoc. }
  destruct (fst (generateContent (answer_prompt userQuery context) (world s4)))
    as [answer|e]; cbn [fst snd trace ret is_ok].
  - split; [exact Htrace|]. split; [exact Htr|]. split; [exact Hin_idx|].
    split; [exact Hin_sr|]. split; [repeat constructor|].
    split; [discriminate|].
    split; [|intros response [= <-]; reflexivity].
    intros _. split; [exact Hwritten|]. split; [exact Hclean|].
    split; [exact Hsr|]. split; [now exists tl|].
    split; [intros Hne; now contradiction Hne|].
    intros _. exists (flat_map retrieved matches), context.
    repeat split. exact Hctx.
  - split; [exact Htrace|]. split; [exact Htr|]. split; [exact Hin_idx|].
    split; [exact Hin_sr|]. split; [repeat constructor|].
    split; [discriminate|].
    split; [|intros response; discriminate].
    intros _. split; [exact Hwritten|]. split; [exact Hclean|].
    split; [exact Hsr|]. split; [now exists tl|].
    split; [intros Hne; now contradiction Hne|].
    intros _. exists (flat_map retrieved matches), context.
    repeat split. exact Hctx.
Qed.


End HandlerFacts.

Section HandlerOrder.

Context {SV : Services}.

Lemma status_ok (r : Result NextResponse) :
  status (match r with Ok response => response | Throw _ => failure_response end)
  = 200 ->
  is_ok r = true.
Proof.
  destruct r; [reflexivity|discriminate].
Qed.

(** [GET] on the path the fetch selects. *)
Lemma GET_on_path (param : option string) (sched : list nat) (s s1 s2 : St)
  (keywords : string) (papers : list JsVal) :
  extractKeywords (userQuery_of param) s = (Ok keywords, s1) ->
  fetchArxivPapers keywords s1 = (Ok papers, s2) ->
  GET param sched s
  = (match fst (match papers with
                | [] => fallback_path (userQuery_of param) keywords s2
                | _ :: _ =>
                    grounded_path (userQuery_of param) keywords papers sched s2
                end) with
     | Ok response => response
     | Throw _ => failure_response
     end,
     snd (match papers with
          | [] => fallback_path (userQuery_of param) keywords s2
          | _ :: _ =>
              grounded_path (userQuery_of param) keywords papers sched s2
          end)).
Proof.
  intros Hk Hf. rewrite GET_of_try.
  now rewrite (@GET_try_paths _ param sched s s1 s2 keywords papers Hk Hf).
Qed.

Lemma count_positive (f : Event -> bool) (e : Event) (evs : list Event) :
  In e evs -> f e = true -> count f evs <> 0.
Proof.
  intros Hin Hf. unfold count.
  assert (Hin' : In e (filter f evs)) by (apply filter_In; now split).
  destruct (filter f evs); [contradiction|discriminate].
Qed.


(** C1. Up to the answer of arXiv the events of [GET] are those of the
    keyword extraction and of the fetch.  After it: on an empty paper list
    [GET] adds to the trace the fallback generation and nothing else, so
    no event of the indexing or of the search.  On a non-empty list [GET]
    proceeds through the three stages in their order.  It adds the events
    of the indexing (first of all the embedding requests of the papers),
    then those of the search, then those of the grounded generation, and
    no other.  The indexing always runs: its events are those of
    [upsertToPinecone] on the fetched papers.  When the indexing succeeded
    the search runs, starting with the embedding of the question; when no
    call of the search was rejected the grounded generation is called, on
    the prompt of what the search returned; and when that call was not
    rejected the response has status 200.  Conversely a later stage starts
    only when the earlier one succeeded, and a response with status 200
    means all three ran, with no rejected call. *)
Theorem C1_zero_results_short_circuit :
  forall (param : option string) (sched : list nat) (s s1 s2 : St)
         (keywords : string) (papers : list JsVal),
    extractKeywords (userQuery_of param) s = (Ok keywords, s1) ->
    fetchArxivPapers keywords s1 = (Ok papers, s2) ->
    (exists pre,
        trace s2 = trace s ++ pre
        /\ Forall (fun e => stage_of e = Interpret \/ stage_of e = Fetch) pre)
    /\ (papers = [] ->
     exists evs,
       trace (snd (GET param sched s)) = trace s2 ++ evs
       /\ evs = [Issued FallbackSynthesize
                   (CGenerate (noResults_prompt (userQuery_of param)));
                 Settled FallbackSynthesize
                   (CGenerate (noResults_prompt (userQuery_of param)))
                   (is_ok (fst (generateContent
                                  (noResults_prompt (userQuery_of param))
                                  (world s2))))]
       /\ (forall e, In e evs ->
                     stage_of e <> Index /\ stage_of e <> Search))
    /\ (papers <> [] ->
        exists idx srch syn,
          trace (snd (GET param sched s)) = trace s2 ++ idx ++ srch ++ syn
          /\ Forall (in_stage Index) idx
          /\ Forall (in_stage Search) srch
          /\ Forall (in_stage GroundedSynthesize) syn
          /\ (exists rest, idx = embed_calls papers ++ rest)
          /\ (srch <> [] ->
              is_ok (fst (upsertToPinecone papers sched s2)) = true)
          /\ (syn <> [] -> srch <> [] /\ count rejected srch = 0)
          /\ (status (fst (GET param sched s)) = 200 ->
              idx <> [] /\ srch <> [] /\ syn <> []
              /\ count rejected (idx ++ srch ++ syn) = 0)
          /\ trace (snd (upsertToPinecone papers sched s2)) = trace s2 ++ idx
          /\ (is_ok (fst (upsertToPinecone papers sched s2)) = true ->
              trace (snd (performVectorSearch (userQuery_of param)
                            (snd (upsertToPinecone papers sched s2))))
              = trace s2 ++ idx ++ srch
              /\ exists tl,
                   srch = Issued Search (CEmbed (JString (userQuery_of param)))
                          :: tl)
          /\ (srch <> [] -> count rejected srch = 0 ->
              exists relevant context,
                fst (performVectorSearch (userQuery_of param)
                       (snd (upsertToPinecone papers sched s2))) = Ok relevant
                /\ answer_context relevant = Ok context
                /\ syn = [Issued GroundedSynthesize
                            (CGenerate
                               (answer_prompt (userQuery_of param) context));
                          Settled GroundedSynthesize
                            (CGenerate
                               (answer_prompt (userQuery_of param) context))
                            (Nat.eqb (status (fst (GET param sched s))) 200)])
          /\ (syn <> [] -> count rejected syn = 0 ->
              status (fst (GET param sched s)) = 200)).
Proof.
  intros param sched s s1 s2 keywords papers Hk Hf.
  rewrite (@GET_on_path param sched s s1 s2 keywords papers Hk Hf).
  cbn [fst snd].
  split; [|split].
  - destruct (extractKeywords_runs (userQuery_of param) s) as [e1 [H1 [Hq1 _]]].
    destruct (fetchArxivPapers_runs keywords s1) as [e2 [H2 [Hq2 _]]].
    rewrite Hk in H1. rewrite Hf in H2. cbn [snd] in H1, H2.
    exists (e1 ++ e2). split; [rewrite H2, H1; now rewrite app_assoc|].
    apply Forall_app. split.
    + eapply Forall_impl; [|exact Hq1]. intros e He. now left.
    + eapply Forall_impl; [|exact Hq2]. intros e He. now right.
  - intros ->. rewrite fallback_path_run. cbn [snd trace].
    eexists. split; [reflexivity|]. split; [reflexivity|].
    intros e [<-|[<-|[]]]; split; discriminate.
  - intros Hne. destruct papers as [|p ps]; [contradiction|].
    destruct (grounded_path_progress (userQuery_of param) keywords (p :: ps)
                sched s2)
      as [rest [srch [syn (Htr & Hup & Hidx & Hsr & Hsy & Hfail & Hsucc
                           & Hstat)]]].
    set (G := grounded_path (userQuery_of param) keywords (p :: ps) sched s2)
      in *.
    set (up := upsertToPinecone (p :: ps) sched s2) in *.
    assert (Hflag : Nat.eqb (status (match fst G with
                                     | Ok response => response
                                     | Throw _ => failure_response
                                     end)) 200
                    = is_ok (fst G)).
    { destruct (fst G) as [response|e]; [|reflexivity].
      now rewrite (Hstat response eq_refl). }
    assert (Hstart : srch <> [] -> is_ok (fst up) = true).
    { intros Hs. destruct (is_ok (fst up)) eqn:Hu; [reflexivity|].
      destruct (Hfail eq_refl) as (Hnil & _). contradiction. }
    assert (Hcalled : syn <> [] -> srch <> [] /\ count rejected srch = 0).
    { intros Hs. destruct (is_ok (fst up)) eqn:Hu.
      - destruct (Hsucc eq_refl) as (_ & _ & _ & [tl Htl] & Hrej & _).
        split; [rewrite Htl; discriminate|].
        destruct (Nat.eq_dec (count rejected srch) 0) as [H0|Hn]; [exact H0|].
        destruct (Hrej Hn) as [Hnil _]. contradiction.
      - destruct (Hfail eq_refl) as (_ & Hnil & _). contradiction. }
    assert (Hgen : srch <> [] -> count rejected srch = 0 ->
                   exists relevant context,
                     fst (performVectorSearch (userQuery_of param) (snd up))
                     = Ok relevant
                     /\ answer_context relevant = Ok context
                     /\ syn = [Issued GroundedSynthesize
                                 (CGenerate
                                    (answer_prompt (userQuery_of param) context));
                               Settled GroundedSynthesize
                                 (CGenerate
                                    (answer_prompt (userQuery_of param) context))
                                 (is_ok (fst G))]).
    { intros Hs Hzero.
      destruct (Hsucc (Hstart Hs)) as (_ & _ & _ & _ & _ & Hgo).
      exact (Hgo Hzero). }
    exists (embed_calls (p :: ps) ++ rest), srch, syn.
    split; [exact Htr|]. split; [exact Hidx|]. split; [exact Hsr|].
    split; [exact Hsy|]. split; [now exists rest|].
    split; [exact Hstart|]. split; [exact Hcalled|].
    split; [|split; [exact Hup|split; [|split]]].
    + intros H200. pose proof (status_ok _ H200) as HG.
      destruct (is_ok (fst up)) eqn:Hu.
      2:{ destruct (Hfail eq_refl) as (_ & _ & HGf). congruence. }
      destruct (Hsucc eq_refl) as (Hwr & Hcl & _ & [tl Htl] & Hrej & Hgo).
      destruct (Nat.eq_dec (count rejected srch) 0) as [H0|Hn].
      2:{ destruct (Hrej Hn) as [_ HGf]. congruence. }
      destruct (Hgo H0) as (relevant & context & _ & _ & Hsyn).
      split.
      { intros Hnil. apply app_eq_nil in Hnil. destruct Hnil as [_ ->].
        discriminate. }
      split; [rewrite Htl; discriminate|].
      split; [rewrite Hsyn; discriminate|].
      rewrite <- app_assoc, !count_app.
      rewrite (@count_none _ rejected
                 (fun e => exists content, e = Issued Index (CEmbed content))
                 (embed_calls (p :: ps))).
      * rewrite Hcl, H0, Hsyn, HG. reflexivity.
      * now intros e [content ->].
      * apply embed_calls_issued.
    + intros Hu. destruct (Hsucc Hu) as (_ & _ & Hsrt & Htl & _).
      split; [|exact Htl].
      rewrite Hsrt, Hup. now rewrite <- app_assoc.
    + intros Hs Hzero. rewrite Hflag. exact (Hgen Hs Hzero).
    + intros Hs Hzero. destruct (Hcalled Hs) as [Hs' Hz'].
      destruct (Hgen Hs' Hz') as (relevant & context & _ & _ & Hsyn).
      rewrite Hsyn in Hzero.
      apply Nat.eqb_eq. rewrite Hflag.
      destruct (is_ok (fst G)); [reflexivity|discriminate Hzero].
Qed.


End HandlerOrder.

Section HandlerResponses.

Context {SV : Services}.


(** What [GET] returns when nothing threw: the answer, the keywords that
    were extracted and the papers that were fetched. *)
Lemma GET_try_shape (param : option string) (sched : list nat) (s : St)
  (response : NextResponse) :
  fst (GET_try param sched s) = Ok response ->
  exists answer keywords papers s1 s2,
    response = {| status := 200; body := AnswerBody answer keywords papers |}
    /\ extractKeywords (userQuery_of param) s = (Ok keywords, s1)
    /\ fetchArxivPapers keywords s1 = (Ok papers, s2).
Proof.
  unfold GET_try, bind.
  destruct (extractKeywords (userQuery_of param) s) as [[keywords|e] s1] eqn:Hk;
    [|discriminate].
  destruct (fetchArxivPapers keywords s1) as [[papers|e] s2] eqn:Hf;
    [|discriminate].
  destruct papers as [|p ps]; cbn [length Nat.eqb].
  - destruct (generateNoResultsAnswer (userQuery_of param) s2)
      as [[answer|e] s3]; [|discriminate].
    cbn [ret fst]. intros [= <-].
    exists answer, keywords, [], s1, s2. repeat split. exact Hf.
  - destruct (upsertToPinecone (p :: ps) sched s2) as [[u|e] s3];
      [|discriminate].
    destruct (performVectorSearch (userQuery_of param) s3)
      as [[relevant|e] s4]; [|discriminate].
    destruct (generateAnswer (userQuery_of param) relevant s4)
      as [[answer|e] s5]; [|discriminate].
    cbn [ret fst]. intros [= <-].
    exists answer, keywords, (p :: ps), s1, s2. repeat split. exact Hf.
Qed.


(** C5, as the code has it.  [GET] returns either the failure response or
    a response of status 200 with an answer, the extracted keywords and the
    fetched papers.  When the fetch returns no paper and the fallback
    generation returns a text, the response carries that text as it is,
    empty or not, the keywords and an empty paper list. *)
Theorem C5_response_shape :
  forall (param : option string) (sched : list nat) (s : St),
    (fst (GET param sched s) = failure_response
     \/ exists answer keywords papers s1 s2,
          fst (GET param sched s)
          = {| status := 200; body := AnswerBody answer keywords papers |}
          /\ extractKeywords (userQuery_of param) s = (Ok keywords, s1)
          /\ fetchArxivPapers keywords s1 = (Ok papers, s2))
    /\ (forall keywords s1 s2 answer w,
          extractKeywords (userQuery_of param) s = (Ok keywords, s1) ->
          fetchArxivPapers keywords s1 = (Ok [], s2) ->
          generateContent (noResults_prompt (userQuery_of param)) (world s2)
            = (Ok answer, w) ->
          fst (GET param sched s)
          = {| status := 200; body := AnswerBody answer keywords [] |}).
Proof.
  intros param sched s. split.
  - rewrite GET_of_try. cbn [fst].
    destruct (fst (GET_try param sched s)) as [response|e] eqn:Hr;
      [right|now left].
    destruct (GET_try_shape param sched s Hr)
      as (answer & keywords & papers & s1 & s2 & -> & Hk & Hf).
    exists answer, keywords, papers, s1, s2. repeat split; assumption.
  - intros keywords s1 s2 answer w Hk Hf Hgen.
    rewrite (@GET_on_path _ param sched s s1 s2 keywords [] Hk Hf).
    rewrite fallback_path_run, Hgen. reflexivity.
Qed.

(** C8, as the code has it.  No fetched record is dropped before the
    indexing: [GET] requests an embedding for every paper of the fetched
    list, in its order, with the [summary] of the paper as content and
    [undefined] when the paper has none; and when a call of the indexing
    is rejected the run ends with the failure response. *)
Theorem C8_no_record_dropped :
  forall (param : option string) (sched : list nat) (s s1 s2 : St)
         (keywords : string) (papers : list JsVal),
    extractKeywords (userQuery_of param) s = (Ok keywords, s1) ->
    fetchArxivPapers keywords s1 = (Ok papers, s2) ->
    papers <> [] ->
    Forall (fun paper => paper <> JUndefined) papers ->
    exists rest,
      trace (snd (GET param sched s))
      = trace s2
        ++ map (fun paper =>
                  Issued Index
                    (CEmbed (match paper with
                             | JObject fields => lookup "summary" fields
                             | _ => JUndefined
                             end))) papers
        ++ rest
      /\ (forall c, In (Settled Index c false) rest ->
                    fst (GET param sched s) = failure_response).
Proof.
  intros param sched s s1 s2 keywords papers Hk Hf Hne Hdef.
  rewrite (@GET_on_path _ param sched s s1 s2 keywords papers Hk Hf).
  cbn [fst snd].
  destruct papers as [|p ps]; [contradiction|].
  destruct (grounded_path_trace (userQuery_of param) keywords (p :: ps) sched s2)
    as [rest [srch [syn (Htr & _ & _ & _ & _ & _ & _ & _ & _ & Hfail)]]].
  exists (rest ++ srch ++ syn). split.
  - rewrite Htr, (embed_calls_defined Hdef). now rewrite <- !app_assoc.
  - intros c Hin.
    assert (Hrej : count rejected (rest ++ srch ++ syn) <> 0).
    { apply (@count_positive _ rejected (Settled Index c false)); [exact Hin|].
      reflexivity. }
    specialize (Hfail Hrej).
    destruct (fst (grounded_path _ _ _ _ _)); [discriminate|reflexivity].
Qed.

End HandlerResponses.

(** ** Further facts about the fetch and the question *)

Section FetchFacts.

Context {SV : Services}.

(** The fetcher sends one request, to the fixed address with the encoded
    keywords, the first ten results and the order by descending relevance,
    and nothing else. *)
Theorem fetch_single_request :
  forall (keywords : string) (s : St),
    trace (snd (fetchArxivPapers keywords s))
    = trace s
      ++ [ Issued Fetch
             (CFetch ("http://export.arxiv.org/api/query?search_query="
                      ++ encodeURIComponent keywords
                      ++ "&start=" ++ encodeURIComponent "0"
                      ++ "&max_results=" ++ encodeURIComponent "10"
                      ++ "&sortBy=" ++ encodeURIComponent "relevance"
                      ++ "&sortOrder=" ++ encodeURIComponent "descending")%string);
           Settled Fetch
             (CFetch ("http://export.arxiv.org/api/query?search_query="
                      ++ encodeURIComponent keywords
                      ++ "&start=" ++ encodeURIComponent "0"
                      ++ "&max_results=" ++ encodeURIComponent "10"
                      ++ "&sortBy=" ++ encodeURIComponent "relevance"
                      ++ "&sortOrder=" ++ encodeURIComponent "descending")%string)
             (is_ok (fst (fetch (baseURL ++ "?" ++ queryString keywords)%string
                            (world s)))) ].
Proof.
  intros keywords s.
  assert (Hurl : (baseURL ++ "?" ++ queryString keywords)%string
                 = ("http://export.arxiv.org/api/query?search_query="
                    ++ encodeURIComponent keywords
                    ++ "&start=" ++ encodeURIComponent "0"
                    ++ "&max_results=" ++ encodeURIComponent "10"
                    ++ "&sortBy=" ++ encodeURIComponent "relevance"
                    ++ "&sortOrder=" ++ encodeURIComponent "descending")%string).
  { unfold baseURL, queryString, fetch_query.
    cbn [map join_strings fst snd]. cbn [append]. reflexivity. }
  unfold fetchArxivPapers, bind. rewrite await_run. rewrite <- Hurl.
  destruct (fst (fetch _ _)) as [response|e]; [|reflexivity].
  destruct (negb (ok response)); [reflexivity|].
  unfold lift. destruct (text response); [|reflexivity].
  destruct (parseStringPromise a); reflexivity.
Qed.

(** What the fetcher returns: the rejection of the request, an error that
    carries the status text when the status is not a success, the failure
    of reading or parsing the document, or the entries of the feed. *)
Theorem fetch_result :
  forall (keywords : string) (s : St),
    fst (fetchArxivPapers keywords s)
    = match fst (fetch (baseURL ++ "?" ++ queryString keywords)%string
                   (world s)) with
      | Throw e => Throw e
      | Ok response =>
          if ok response
          then match text response with
               | Throw e => Throw e
               | Ok xml =>
                   match parseStringPromise xml with
                   | Throw e => Throw e
                   | Ok result => feed_entries result
                   end
               end
          else Throw (Error ("Failed to fetch data: " ++ statusText response))
      end.
Proof.
  intros keywords s. unfold fetchArxivPapers, bind. rewrite await_run.
  destruct (fst (fetch _ _)) as [response|e]; [|reflexivity].
  destruct (ok response); cbn [negb]; [|reflexivity].
  unfold lift. destruct (text response); [|reflexivity].
  destruct (parseStringPromise a); reflexivity.
Qed.

End FetchFacts.

(** * The handler on the concrete services *)

(** arXiv finds nothing: the two events after the fetch are the fallback
    generation. *)
Lemma C1_witness :
  let s := Demo.start "none" "No arXiv papers were found." [] 0 in
  exists evs,
    trace (snd (GET (SV := Demo.services) (Some "Can cows fly") [] s))
    = trace (Demo.fetched "Can cows fly" s) ++ evs
    /\ length evs = 2.
Proof.
  intros s.
  destruct (proj1 (proj2 (@C1_zero_results_short_circuit Demo.services
                            (Some "Can cows fly") [] s
                            (Demo.interpreted "Can cows fly" s)
                            (Demo.fetched "Can cows fly" s)
                            Demo.keywords [] eq_refl eq_refl)) eq_refl)
    as [evs [Htr [Hevs _]]].
  exists evs. split; [exact Htr|]. rewrite Hevs. reflexivity.
Defined.

(** Two papers.  With an index that accepts both writes the step succeeds
    and two upserts were fulfilled; with an index that rejects the second
    write the record of the first paper is still stored when the step
    ends. *)
Lemma C2_witness :
  (exists rest,
      trace (snd (upsertToPinecone (SV := Demo.services)
                    [Demo.paper_attention; Demo.paper_solo] [1; 1; 0; 0]
                    (Demo.start "two" "An answer." [] 2)))
      = embed_calls (SV := Demo.services)
          [Demo.paper_attention; Demo.paper_solo]
        ++ rest
      /\ count (SV := Demo.services) upsert_written rest = 2)
  /\ In Demo.record_attention
       (Demo.stored
          (world (snd (upsertToPinecone (SV := Demo.services)
                         [Demo.paper_attention; Demo.paper_solo] []
                         (Demo.start "two" "An answer." [] 1))))).
Proof.
  split.
  - destruct (@C2_indexing_all_or_nothing Demo.services
                [Demo.paper_attention; Demo.paper_solo] [1; 1; 0; 0]
                (Demo.start "two" "An answer." [] 2))
      as [rest (Htr & _ & _ & _ & _ & _ & Hsucc & _)].
    exists rest. split; [exact Htr|]. exact (proj1 (Hsucc eq_refl)).
  - destruct (@C2_indexing_all_or_nothing Demo.services
                [Demo.paper_attention; Demo.paper_solo] []
                (Demo.start "two" "An answer." [] 1))
      as [rest (Htr & _ & _ & _ & _ & _ & _ & Hkeep)].
    apply (Hkeep (fun record w => In record (Demo.stored w))).
    + intros record content w H. destruct content; exact H.
    + intros record records w H. cbn. unfold Demo.upsert.
      destruct (Demo.upserts_left w); cbn; [exact H|].
      apply in_or_app. now left.
    + intros record w. cbn. unfold Demo.upsert.
      destruct (Demo.upserts_left w); cbn; [discriminate|].
      intros _. apply in_or_app. right. now left.
    + vm_compute in Htr. injection Htr as <-. do 4 right. left. reflexivity.
Defined.

(** The order of settling is the world's: here the second paper is written
    before the first. *)
Example indexing_interleaved :
  Demo.stored
    (world (snd (upsertToPinecone (SV := Demo.services)
                   [Demo.paper_attention; Demo.paper_solo] [1; 1; 0; 0]
                   (Demo.start "two" "An answer." [] 2))))
  = [Demo.record_solo; Demo.record_attention].
Proof.
  vm_compute. reflexivity.
Qed.

(** The index rejects the second write: the step fails, and the first
    record stays in the index. *)
Example indexing_fails_without_rollback :
  is_ok (fst (upsertToPinecone (SV := Demo.services)
                [Demo.paper_attention; Demo.paper_solo] []
                (Demo.start "two" "An answer." [] 1))) = false
  /\ Demo.stored
       (world (snd (upsertToPinecone (SV := Demo.services)
                      [Demo.paper_attention; Demo.paper_solo] []
                      (Demo.start "two" "An answer." [] 1))))
     = [Demo.record_attention].
Proof.
  split; vm_compute; reflexivity.
Qed.

(** One author, as an object and as a one-element list: the same string. *)
Lemma C4_witness :
  paper_authors Demo.paper_solo = Ok (JString "Neo Wu")
  /\ paper_authors Demo.paper_solo_listed = Ok (JString "Neo Wu").
Proof.
  refine (proj1 (proj2 (proj2
            (@C4_metadata_shapes Demo.services
               [ ("id", JString "http://arxiv.org/abs/2001.08317v1");
                 ("title", JString "Deep Transformer Models for Time Series Forecasting");
                 ("summary", JString "A Transformer-based approach to forecasting.");
                 ("author", Demo.named "Neo Wu");
                 ("category", Demo.tagged "cs.LG");
                 ("published", JString "2020-01-23T00:22:22Z") ])))
            [("name", JString "Neo Wu")] "Neo Wu"
            [ ("id", JString "http://arxiv.org/abs/2001.08317v1");
              ("title", JString "Deep Transformer Models for Time Series Forecasting");
              ("summary", JString "A Transformer-based approach to forecasting.");
              ("author", JArray [Demo.named "Neo Wu"]);
              ("category", JArray [Demo.tagged "cs.LG"]);
              ("published", JString "2020-01-23T00:22:22Z") ]
            eq_refl eq_refl eq_refl).
Defined.

(** C5 fails as the specification words it: when arXiv finds nothing and
    the model returns the empty text, the response has status 200 and an
    empty answer. *)
Lemma C5_counterexample :
  fst (GET (SV := Demo.services) (Some "xyzzy nonsense quantum frobnicator")
         [] (Demo.start "none" EmptyString [] 0))
  = {| status := 200; body := AnswerBody EmptyString Demo.keywords [] |}.
Proof.
  vm_compute. reflexivity.
Qed.

(** arXiv finds nothing and the model returns a text: the response carries
    that text, the keywords and no paper. *)
Lemma C5_witness :
  fst (GET (SV := Demo.services) (Some "xyzzy nonsense quantum frobnicator")
         [] (Demo.start "none" "No arXiv papers were found." [] 0))
  = {| status := 200;
       body := AnswerBody "No arXiv papers were found." Demo.keywords [] |}.
Proof.
  refine (proj2 (@C5_response_shape Demo.services
                   (Some "xyzzy nonsense quantum frobnicator") []
                   (Demo.start "none" "No arXiv papers were found." [] 0))
            Demo.keywords _ _ _ _ eq_refl eq_refl eq_refl).
Defined.

(** C8 fails as the specification words it: the entry without abstract is
    in the list the fetch returns, the sixth event of the run is the
    embedding request for its absent abstract, and the run ends with the
    failure response although the other paper is sound. *)
Lemma C8_counterexample :
  fst (fetchArxivPapers (SV := Demo.services) Demo.keywords
         (Demo.interpreted "Can cows fly"
            (Demo.start "gap" "An answer." Demo.answer_mixed 5)))
  = Ok [Demo.paper_attention; Demo.paper_no_abstract]
  /\ nth_error
       (trace (snd (GET (SV := Demo.services) (Some "Can cows fly") []
                      (Demo.start "gap" "An answer." Demo.answer_mixed 5)))) 5
     = Some (Issued Index (CEmbed JUndefined))
  /\ fst (GET (SV := Demo.services) (Some "Can cows fly") []
            (Demo.start "gap" "An answer." Demo.answer_mixed 5))
     = failure_response.
Proof.
  repeat split; vm_compute; reflexivity.
Qed.

(** Two papers, the second without abstract: an embedding is requested for
    both. *)
Lemma C8_witness :
  let s := Demo.start "gap" "An answer." Demo.answer_mixed 5 in
  exists rest,
    trace (snd (GET (SV := Demo.services) (Some "Can cows fly") [] s))
    = trace (Demo.fetched "Can cows fly" s)
      ++ [ Issued Index
             (CEmbed (JString "A network architecture based solely on attention."));
           Issued Index (CEmbed JUndefined) ]
      ++ rest.
Proof.
  intros s.
  destruct (@C8_no_record_dropped Demo.services (Some "Can cows fly") [] s
              (Demo.interpreted "Can cows fly" s)
              (Demo.fetched "Can cows fly" s)
              Demo.keywords [Demo.paper_attention; Demo.paper_no_abstract]
              eq_refl eq_refl)
    as [rest [Htr _]].
  - discriminate.
  - repeat constructor; discriminate.
  - exists rest. exact Htr.
Defined.



(** * Further properties *)

(** ** The handler stops at the first rejected call *)

Section FailFast.

Context {SV : Services}.

Lemma halts_ret {A} (a : A) : halts_on_rejection (ret a).
Proof.
  intros s. exists []. cbn. rewrite app_nil_r. repeat split. congruence.
Qed.

Lemma halts_lift {A} (r : Result A) : halts_on_rejection (lift r).
Proof.
  intros s. exists []. cbn. rewrite app_nil_r. repeat split. congruence.
Qed.

Lemma halts_throw {A} (e : Exn) : halts_on_rejection (throw (A := A) e).
Proof.
  intros s. exists []. cbn. rewrite app_nil_r. repeat split.
Qed.

Lemma halts_await {A} (stage : Stage) (c : Call)
  (op : World -> Result A * World) :
  halts_on_rejection (await stage c op).
Proof.
  intros s. rewrite await_run. cbn [fst snd trace].
  eexists. split; [reflexivity|]. split; [reflexivity|].
  destruct (fst (op (world s))); cbn; congruence.
Qed.

Lemma halts_bind {A B} (m : M A) (k : A -> M B) :
  halts_on_rejection m -> (forall a, halts_on_rejection (k a)) ->
  halts_on_rejection (bind m k).
Proof.
  intros Hm Hk s. unfold bind.
  destruct (Hm s) as [evs [Htr [Hlast Hfail]]].
  destruct (m s) as [[a|e] s1]; cbn [fst snd] in *.
  - assert (Hclean : count rejected evs = 0).
    { destruct (Nat.eq_dec (count rejected evs) 0) as [H0|Hn]; [exact H0|].
      specialize (Hfail Hn). discriminate. }
    destruct (Hk a s1) as [evs' [Htr' [Hlast' Hfail']]].
    exists (evs ++ evs'). split; [|split].
    + rewrite Htr', Htr. now rewrite app_assoc.
    + destruct evs' as [|e' evs'].
      * rewrite app_nil_r. exact Hlast.
      * rewrite removelast_app by discriminate.
        rewrite count_app, Hclean, Hlast'. reflexivity.
    + rewrite count_app, Hclean. exact Hfail'.
  - exists evs. split; [exact Htr|]. split; [exact Hlast|]. reflexivity.
Qed.

Lemma upsertToPinecone_halts (papers : list JsVal) (sched : list nat) :
  halts_on_rejection (upsertToPinecone papers sched).
Proof.
  intros s.
  destruct (indexing_step papers sched s)
    as [rest (Htr & _ & _ & Hlast & Hfail & _)].
  assert (Hcalls : count rejected (embed_calls papers) = 0).
  { apply (@count_none _ rejected
             (fun e => exists content, e = Issued Index (CEmbed content)) _).
    - now intros e [content ->].
    - apply embed_calls_issued. }
  exists (embed_calls papers ++ rest). split; [exact Htr|]. split.
  - destruct rest as [|e rest].
    + rewrite app_nil_r. apply count_removelast, Hcalls.
    + rewrite removelast_app by discriminate.
      rewrite count_app, Hcalls, Hlast. reflexivity.
  - rewrite count_app, Hcalls. exact Hfail.
Qed.

Lemma GET_try_halts (param : option string) (sched : list nat) :
  halts_on_rejection (GET_try param sched).
Proof.
  unfold GET_try, extractKeywords, fetchArxivPapers, generateNoResultsAnswer,
    performVectorSearch, generateAnswer.
  apply halts_bind; [apply halts_await|]. intros keywords.
  apply halts_bind.
  { apply halts_bind; [apply halts_await|]. intros response.
    destruct (negb (ok response)); [apply halts_throw|].
    apply halts_bind; [apply halts_lift|]. intros xml.
    apply halts_bind; [apply halts_lift|]. intros result.
    apply halts_lift. }
  intros papers. destruct (Nat.eqb (length papers) 0).
  - apply halts_bind; [apply halts_await|]. intros answer. apply halts_ret.
  - apply halts_bind; [apply upsertToPinecone_halts|]. intros _.
    apply halts_bind.
    { apply halts_bind; [apply halts_await|]. intros embedding.
      apply halts_bind; [apply halts_await|]. intros matches.
      apply halts_lift. }
    intros relevant. apply halts_bind.
    { apply halts_bind; [apply halts_lift|]. intros context.
      apply halts_await. }
    intros answer. apply halts_ret.
Qed.

Lemma count_last (f : Event -> bool) (evs : list Event) :
  count f (removelast evs) = 0 ->
  count f evs <= 1
  /\ (count f evs = 1 ->
      exists pre e, evs = pre ++ [e] /\ f e = true /\ count f pre = 0).
Proof.
  intros Hlast. destruct evs as [|e0 evs0]; [split; [cbn; lia|discriminate]|].
  assert (Hsplit : e0 :: evs0 = removelast (e0 :: evs0) ++ [last (e0 :: evs0) e0])
    by (apply app_removelast_last; discriminate).
  revert Hlast Hsplit.
  generalize (removelast (e0 :: evs0)) as pre.
  generalize (last (e0 :: evs0) e0) as e.
  intros e pre Hlast ->. rewrite count_app, Hlast.
  assert (Hone : count f [e] = if f e then 1 else 0).
  { unfold count. cbn [filter]. now destruct (f e). }
  rewrite Hone. destruct (f e) eqn:He.
  - split; [lia|]. intros _. exists pre, e. repeat split; assumption.
  - split; [lia|]. intros H. discriminate H.
Qed.

End FailFast.

(** ** What the indexing step writes *)

Section IndexerRecords.

Context {SV : Services}.

Lemma task_for_grows (evs new : list Event) (paper : JsVal) (t : Task) :
  task_for evs paper t -> task_for (evs ++ new) paper t.
Proof.
  destruct t as [p content|record| |e]; cbn; try tauto.
  intros (embedding & record & Hb & Hin).
  exists embedding, record. split; [exact Hb|]. apply in_app_iff. now left.
Qed.

Lemma Forall2_set_nth (R R' : JsVal -> Task -> Prop) (papers : list JsVal)
  (ts : list Task) (i : nat) (t t' : Task) :
  Forall2 R papers ts ->
  nth_error ts i = Some t ->
  (forall paper u, R paper u -> R' paper u) ->
  (forall paper, In paper papers -> R paper t -> R' paper t') ->
  Forall2 R' papers (set_nth i t' ts).
Proof.
  intros HR. revert i.
  induction HR as [|paper u papers ts Hu Hrest IH]; intros i Hi Hmono Hnew.
  - destruct i; discriminate.
  - destruct i as [|i]; cbn [set_nth nth_error] in *.
    + injection Hi as ->. constructor.
      * apply Hnew; [now left|exact Hu].
      * clear IH Hnew. induction Hrest; constructor; auto.
    + constructor; [apply Hmono, Hu|].
      apply (IH i Hi Hmono). intros p Hp. apply Hnew. now right.
Qed.

Lemma start_all_tasks (papers : list JsVal) (s : St) (evs : list Event) :
  Forall2 (task_for evs) papers (fst (start_all papers s)).
Proof.
  revert s. induction papers as [|p ps IH]; intros s; [constructor|].
  cbn [start_all]. unfold start_task.
  destruct (get p "summary") as [content|e] eqn:Hget.
  - specialize (IH (log [Issued Index (CEmbed content)] s)).
    destruct (start_all ps _) as [ts s2]. cbn [fst] in *.
    constructor; [|exact IH]. cbn. now split.
  - specialize (IH s). destruct (start_all ps s) as [ts s2]. cbn [fst] in *.
    constructor; [exact I|exact IH].
Qed.

Lemma index_run_records (papers : list JsVal) (sched : list nat) (s : St) :
  exists rest,
    trace (snd (index_run papers sched s))
    = trace s ++ embed_calls papers ++ rest
    /\ Forall2 (task_for (embed_calls papers ++ rest)) papers
         (fst (index_run papers sched s))
    /\ Forall (upsert_of papers) (embed_calls papers ++ rest).
Proof.
  unfold index_run.
  destruct (start_all_spec papers s) as (Htr & _).
  pose proof (start_all_tasks papers s (embed_calls papers)) as Htasks.
  destruct (start_all papers s) as [ts0 s0]. cbn [fst snd] in *.
  destruct (@run_schedule_invariant _
              (fun ts _ evs =>
                 Forall2 (task_for evs) papers ts
                 /\ Forall (upsert_of papers) evs))
    with (sched := full_schedule (length papers) sched) (ts := ts0) (s := s0)
         (evs := embed_calls papers)
    as [rest [Hrest [Hts Hev]]].
  - intros ts s1 i t t' s' new evs _ Hi Hset [Hts Hev]. split.
    + apply (@Forall2_set_nth (task_for evs) (task_for (evs ++ new))
               papers ts i t t' Hts Hi).
      * intros paper u. apply task_for_grows.
      * intros paper Hin Ht.
        destruct Hset; cbn in Ht |- *; try exact I.
        -- destruct Ht as [-> _]. now exists embedding.
        -- destruct Ht as [embedding Hb]. exists embedding, record.
           split; [exact Hb|]. apply in_app_iff. right. now left.
        -- destruct Ht as (embedding & record & Hb & Hin').
           exists embedding, record. split; [exact Hb|].
           apply in_app_iff. now left.
    + apply Forall_app. split; [exact Hev|].
      destruct Hset; repeat constructor.
      assert (Hin : exists p, In p papers /\ p = paper).
      { clear - Hts Hi. revert i Hi.
        induction Hts as [|p u ps us Hu _ IH]; intros i Hi.
        - destruct i; discriminate.
        - destruct i as [|i]; cbn [nth_error] in Hi.
          + injection Hi as ->. cbn in Hu. destruct Hu as [Heq _].
            exists p. split; [now left|now symmetry].
          + destruct (IH i Hi) as [q [Hq Heq]]. exists q.
            split; [now right|exact Heq]. }
      destruct Hin as [p [Hp Heq]]. subst p. cbn.
      exists paper, embedding, record. repeat split; assumption.
  - split; [exact Htasks|].
    eapply Forall_impl; [|apply embed_calls_issued].
    intros e [content ->]. exact I.
  - exists rest. split; [|split; assumption].
    rewrite Hrest, Htr. now rewrite <- app_assoc.
Qed.

Lemma all_fulfilled (ts : list Task) :
  total fulfilled_w ts = length ts -> Forall (fun t => t = Fulfilled) ts.
Proof.
  induction ts as [|t ts IH]; [constructor|].
  cbn [total length]. intros Hsum.
  pose proof (@total_le_length _ fulfilled_w ts
                (fun u => match u with
                          | Fulfilled => le_n 1
                          | _ => le_S _ _ (le_n 0)
                          end)) as Hle.
  destruct t; cbn [fulfilled_w] in Hsum; try lia.
  constructor; [reflexivity|]. apply IH. lia.
Qed.

(** What a successful indexing step has done for each paper, and what any
    step does with its upserts. *)
Lemma indexing_records (papers : list JsVal) (sched : list nat) (s : St) :
  exists rest,
    trace (snd (upsertToPinecone papers sched s))
    = trace s ++ embed_calls papers ++ rest
    /\ Forall (upsert_of papers) rest
    /\ (is_ok (fst (upsertToPinecone papers sched s)) = true ->
        forall paper,
          In paper papers ->
          exists embedding record,
            build_record paper embedding = Ok record
            /\ In (Settled Index (CUpsert [record]) true) rest).
Proof.
  destruct (upsertToPinecone_run papers sched s) as [Hsnd Hok].
  rewrite Hsnd, Hok.
  destruct (index_run_records papers sched s) as [rest (Htr & Hts & Hev)].
  exists rest. split; [exact Htr|].
  split; [apply Forall_app in Hev; tauto|].
  destruct (first_rejection (fst (index_run papers sched s))) eqn:Hr;
    [discriminate|].
  intros _ paper Hin.
  pose proof (index_run_settled papers sched s Hr) as Htotal.
  assert (Hlen : length (fst (index_run papers sched s)) = length papers).
  { symmetry. exact (Forall2_length Hts). }
  rewrite <- Hlen in Htotal. apply all_fulfilled in Htotal.
  revert Htotal Hin. clear - Hts.
  induction Hts as [|p u ps us Hu _ IH]; intros Hall Hin; [contradiction|].
  inversion Hall as [|? ? Hfu Hrest]; subst.
  destruct Hin as [<-|Hin]; [|exact (IH Hrest Hin)].
  cbn in Hu. destruct Hu as (embedding & record & Hb & Hin').
  exists embedding, record. split; [exact Hb|].
  apply in_app_iff in Hin'. destruct Hin' as [Hin'|Hin']; [|exact Hin'].
  pose proof (embed_calls_issued papers) as Hcalls.
  rewrite Forall_forall in Hcalls.
  destruct (Hcalls _ Hin') as [content Heq]. discriminate.
Qed.

(** Every upsert the indexing step issues carries exactly one record, and
    that record is built from one of the papers: its id, abstract, authors
    and categories are those of the paper.  When the step succeeds, every
    paper has its record written: for each paper an upsert of its record
    was fulfilled. *)
Theorem indexing_writes_each_paper :
  forall (papers : list JsVal) (sched : list nat) (s : St),
  exists rest,
    trace (snd (upsertToPinecone papers sched s))
    = trace s ++ embed_calls papers ++ rest
    /\ (forall stage records,
          In (Issued stage (CUpsert records)) rest ->
          exists paper record,
            records = [record]
            /\ In paper papers
            /\ get paper "id" = Ok (rec_id record)
            /\ get paper "summary" = Ok (md_abstract (rec_metadata record))
            /\ paper_authors paper = Ok (md_authors (rec_metadata record))
            /\ paper_categories paper
               = Ok (md_categories (rec_metadata record)))
    /\ (is_ok (fst (upsertToPinecone papers sched s)) = true ->
        forall paper,
          In paper papers ->
          exists record,
            In (Settled Index (CUpsert [record]) true) rest
            /\ get paper "id" = Ok (rec_id record)
            /\ get paper "summary" = Ok (md_abstract (rec_metadata record))).
Proof.
  intros papers sched s.
  destruct (indexing_records papers sched s) as [rest (Htr & Hev & Hok)].
  exists rest. split; [exact Htr|]. split.
  - intros stage records Hin. rewrite Forall_forall in Hev.
    specialize (Hev _ Hin). cbn in Hev.
    destruct Hev as (paper & embedding & record & Hp & Hb & ->).
    destruct (build_record_metadata _ _ Hb) as (Ha & Hc & Hs & Hi & _).
    exists paper, record. repeat split; assumption.
  - intros Hsucc paper Hin.
    destruct (Hok Hsucc paper Hin) as (embedding & record & Hb & Hw).
    destruct (build_record_metadata _ _ Hb) as (_ & _ & Hs & Hi & _).
    exists record. repeat split; assumption.
Qed.

(** A fetched entry that has no category, or no author, makes the whole
    request fail: its record cannot be built, so the indexing step never
    succeeds and the caller gets the failure response. *)
Theorem GET_fails_on_unreadable_paper :
  forall (param : option string) (sched : list nat) (s s1 s2 : St)
         (keywords : string) (papers : list JsVal)
         (fields : list (string * JsVal)),
    extractKeywords (userQuery_of param) s = (Ok keywords, s1) ->
    fetchArxivPapers keywords s1 = (Ok papers, s2) ->
    In (JObject fields) papers ->
    lookup "category" fields = JUndefined
    \/ lookup "author" fields = JUndefined ->
    is_ok (fst (upsertToPinecone papers sched s2)) = false
    /\ fst (GET param sched s) = failure_response.
Proof.
  intros param sched s s1 s2 keywords papers fields Hk Hf Hin Hmissing.
  assert (Hbuild : forall embedding,
             is_ok (build_record (JObject fields) embedding) = false).
  { intros embedding. unfold build_record, paper_categories, paper_authors.
    cbn [get]. destruct Hmissing as [-> | Ha].
    - reflexivity.
    - rewrite Ha. cbn [get].
      destruct (match lookup "category" fields with
                | JArray _ => _ | _ => _ end); reflexivity. }
  assert (Hfail : is_ok (fst (upsertToPinecone papers sched s2)) = false).
  { destruct (indexing_records papers sched s2) as [rest (_ & _ & Hok)].
    destruct (is_ok (fst (upsertToPinecone papers sched s2))); [|reflexivity].
    destruct (Hok eq_refl _ Hin) as (embedding & record & Hb & _).
    specialize (Hbuild embedding). rewrite Hb in Hbuild. discriminate. }
  split; [exact Hfail|].
  rewrite (@GET_on_path _ param sched s s1 s2 keywords papers Hk Hf).
  cbn [fst]. destruct papers as [|p ps]; [contradiction|].
  rewrite grounded_path_run.
  destruct (upsertToPinecone (p :: ps) sched s2) as [[u|e] s3];
    [discriminate|reflexivity].
Qed.

End IndexerRecords.

(** ** From the search to the answer *)

Section SearchToAnswer.

Context {SV : Services}.

Lemma retrieved_length (matches : list (ScoredRecord Number)) :
  length (flat_map retrieved matches) = length (filter usable matches)
  /\ length (flat_map retrieved matches) <= length matches.
Proof.
  induction matches as [|m ms [IH1 IH2]]; [split; reflexivity|].
  cbn [flat_map filter]. rewrite length_app, retrieved_usable.
  destruct (usable m) eqn:Hm; cbn [length].
  - unfold usable in Hm. unfold to_relevant.
    destruct (match_metadata m); [|discriminate]. cbn [length]. split; lia.
  - split; [exact IH1|lia].
Qed.

(** What a successful search has returned. *)
Lemma performVectorSearch_returns (query : string) (s s' : St)
  (relevant : list (RelevantPaper Number)) :
  performVectorSearch query s = (Ok relevant, s') ->
  exists embedding matches w1,
    embedContent (JString query) (world s) = (Ok embedding, w1)
    /\ index_query (search_request embedding) w1 = (Ok matches, world s')
    /\ relevant = flat_map retrieved matches.
Proof.
  unfold performVectorSearch, bind. rewrite await_run.
  destruct (embedContent (JString query) (world s)) as [[embedding|e] w1]
    eqn:Hembed; cbn [fst snd]; [|discriminate].
  rewrite await_run. cbn [world trace].
  destruct (index_query (search_request embedding) w1) as [[matches|e] w2]
    eqn:Hquery; cbn [fst snd]; [|discriminate].
  unfold lift. rewrite select_matches_retrieved. intros [= <- <-].
  exists embedding, matches, w1. cbn [world].
  split; [reflexivity|]. split; [exact Hquery|reflexivity].
Qed.

(** What a successful search returns, and that it can always be put into
    the grounded prompt.  The question was embedded and the index answered
    that embedding with some matches; the result is those matches that
    have metadata and a score, in their order, so not more than the index
    gave.  Every returned match has its score, so the formatting of its
    block never throws: the context has one block per returned match and
    [generateAnswer] always reaches the model with it. *)
Theorem search_result_always_prompts :
  forall (query : string) (s s' : St) (relevant : list (RelevantPaper Number)),
    performVectorSearch query s = (Ok relevant, s') ->
    exists (embedding : Embedding) (w1 : World)
           (matches : list (ScoredRecord Number)) (blocks : list string),
      embedContent (JString query) (world s) = (Ok embedding, w1)
      /\ index_query (search_request embedding) w1 = (Ok matches, world s')
      /\ relevant = flat_map retrieved matches
      /\ Forall2 (fun m p => to_relevant m = Ok p
                              /\ similarity p = match_score m
                              /\ similarity p <> None)
           (filter usable matches) relevant
      /\ length relevant <= length matches
      /\ Forall2 (fun p block => context_block p = Ok block) relevant blocks
      /\ answer_context relevant = Ok (join_strings (nl ++ nl) blocks)
      /\ (forall question s0,
            generateAnswer question relevant s0
            = await GroundedSynthesize
                (CGenerate (answer_prompt question
                              (join_strings (nl ++ nl) blocks)))
                (generateContent (answer_prompt question
                                    (join_strings (nl ++ nl) blocks))) s0).
Proof.
  intros query s s' relevant Hrun.
  destruct (performVectorSearch_returns query s Hrun)
    as (embedding & matches & w1 & Hembed & Hquery & ->).
  destruct (context_blocks_defined (retrieved_scored matches))
    as [blocks [Hmap Hblocks]].
  exists embedding, w1, matches, blocks.
  split; [exact Hembed|]. split; [exact Hquery|]. split; [reflexivity|].
  split; [apply select_matches_kept|].
  split; [apply retrieved_length|].
  split; [exact Hblocks|].
  split.
  - unfold answer_context. now rewrite Hmap.
  - intros question s0. unfold generateAnswer, bind, lift, answer_context.
    now rewrite Hmap.
Qed.

(** A request that goes all the way: with papers fetched and indexed and
    the search done, the answer of the response is the text the model
    returns for the prompt built from the matches the search kept, and the
    papers of the response are the fetched ones, whatever the matches
    were; when the model rejects that prompt the caller gets the failure
    response. *)
Theorem GET_grounded_answer :
  forall (param : option string) (sched : list nat) (s s1 s2 s3 s4 : St)
         (keywords : string) (papers : list JsVal)
         (relevant : list (RelevantPaper Number)),
    extractKeywords (userQuery_of param) s = (Ok keywords, s1) ->
    fetchArxivPapers keywords s1 = (Ok papers, s2) ->
    papers <> [] ->
    upsertToPinecone papers sched s2 = (Ok tt, s3) ->
    performVectorSearch (userQuery_of param) s3 = (Ok relevant, s4) ->
    exists context,
      answer_context relevant = Ok context
      /\ snd (GET param sched s)
         = {| world := snd (generateContent
                              (answer_prompt (userQuery_of param) context)
                              (world s4));
              trace := trace s4
                       ++ [Issued GroundedSynthesize
                             (CGenerate (answer_prompt (userQuery_of param)
                                           context));
                           Settled GroundedSynthesize
                             (CGenerate (answer_prompt (userQuery_of param)
                                           context))
                             (is_ok (fst (generateContent
                                            (answer_prompt
                                               (userQuery_of param) context)
                                            (world s4))))] |}
      /\ fst (GET param sched s)
         = match fst (generateContent
                        (answer_prompt (userQuery_of param) context)
                        (world s4)) with
           | Ok answer =>
               {| status := 200; body := AnswerBody answer keywords papers |}
           | Throw _ => failure_response
           end.
Proof.
  intros param sched s s1 s2 s3 s4 keywords papers relevant
         Hk Hf Hne Hup Hsearch.
  destruct (performVectorSearch_returns _ s3 Hsearch)
    as (embedding & matches & w1 & _ & _ & Hrel).
  destruct (context_blocks_defined (retrieved_scored matches))
    as [blocks [Hmap _]].
  rewrite <- Hrel in Hmap.
  exists (join_strings (nl ++ nl) blocks).
  assert (Hctx : answer_context relevant = Ok (join_strings (nl ++ nl) blocks))
    by (unfold answer_context; now rewrite Hmap).
  split; [exact Hctx|].
  rewrite (@GET_on_path _ param sched s s1 s2 keywords papers Hk Hf).
  destruct papers as [|p ps]; [contradiction|].
  rewrite grounded_path_run, Hup, Hsearch.
  unfold generateAnswer, bind, lift. rewrite Hctx, await_run. cbn [fst snd].
  destruct (fst (generateContent _ _)); split; reflexivity.
Qed.

End SearchToAnswer.

(** ** The indexing callbacks once the step has failed *)

Section AfterRejection.

Context {SV : Services}.

Lemma run_detached_invariant (I : list Task -> list Event -> Prop) :
  (forall ts s i t t' s' new evs,
      nth_error ts i = Some t ->
      Settles t s t' s' new ->
      I ts evs ->
      I (set_nth i t' ts) (evs ++ new)) ->
  forall late ts s evs,
    I ts evs ->
    exists new,
      trace (snd (run_detached late ts s)) = trace s ++ new
      /\ I (fst (run_detached late ts s)) (evs ++ new).
Proof.
  intros Hstep. induction late as [|i late IH]; intros ts s evs HI.
  - exists []. cbn [run_detached fst snd]. now rewrite !app_nil_r.
  - cbn [run_detached].
    destruct (nth_error ts i) as [t|] eqn:Hi; [|apply (IH ts s evs HI)].
    destruct (settle_Settles t s) as [new Hnew].
    destruct (settle t s) as [t' s']. cbn [fst snd] in Hnew.
    destruct (IH (set_nth i t' ts) s' (evs ++ new)
                (Hstep _ _ _ _ _ _ _ _ Hi Hnew HI)) as [more [Htr HI']].
    exists (new ++ more). split.
    + rewrite Htr, (Settles_trace Hnew). now rewrite app_assoc.
    + now rewrite app_assoc.
Qed.

Lemma nth_paper (papers : list JsVal) (ts : list Task) (evs : list Event)
  (i : nat) (paper : JsVal) (content : JsVal) :
  Forall2 (task_for evs) papers ts ->
  nth_error ts i = Some (AwaitEmbed paper content) ->
  In paper papers.
Proof.
  intros Hts. revert i.
  induction Hts as [|p u ps us Hu _ IH]; intros i Hi.
  - destruct i; discriminate.
  - destruct i as [|i]; cbn [nth_error] in Hi.
    + injection Hi as ->. cbn in Hu. destruct Hu as [-> _]. now left.
    + right. exact (IH i Hi).
Qed.

Lemma Kept_late_step (papers : list JsVal) (k : nat) ts s i t t' s' new evs :
  nth_error ts i = Some t ->
  Settles t s t' s' new ->
  Kept_late papers k ts evs ->
  Kept_late papers k (set_nth i t' ts) (evs ++ new).
Proof.
  intros Hi Hset (Hlen & Hst & Hiss & Hemb & Hts & Hev).
  pose proof (@total_set_nth SV upserting_w i t t' ts Hi) as Hu.
  unfold Kept_late. rewrite length_set_nth, !count_app.
  split; [exact Hlen|].
  split; [apply Forall_app; split; [exact Hst|destruct Hset; repeat constructor]|].
  split; [destruct Hset; cbn [upserting_w] in Hu;
          unfold count at 2; cbn [filter upsert_issued length]; lia|].
  split; [destruct Hset;
          unfold count at 2; cbn [filter embed_issued length]; lia|].
  split.
  - apply (@Forall2_set_nth _ (task_for evs) (task_for (evs ++ new))
             papers ts i t t' Hts Hi).
    + intros paper u. apply task_for_grows.
    + intros paper Hin Ht.
      destruct Hset; cbn in Ht |- *; try exact I.
      * destruct Ht as [-> _]. now exists embedding.
      * destruct Ht as [embedding Hb]. exists embedding, record.
        split; [exact Hb|]. apply in_app_iff. right. now left.
      * destruct Ht as (embedding & record & Hb & Hin').
        exists embedding, record. split; [exact Hb|].
        apply in_app_iff. now left.
  - apply Forall_app. split; [exact Hev|].
    destruct Hset; repeat constructor.
    cbn. exists paper, embedding, record.
    split; [exact (@nth_paper papers ts evs i paper content Hts Hi)|].
    now split.
Qed.

(** Where the indexing step ends. *)
Lemma index_run_kept (papers : list JsVal) (sched : list nat) (s : St) :
  exists rest,
    trace (snd (index_run papers sched s))
    = trace s ++ embed_calls papers ++ rest
    /\ count embed_issued rest = 0
    /\ Kept_late papers (count embed_issued (embed_calls papers))
         (fst (index_run papers sched s)) (embed_calls papers ++ rest).
Proof.
  destruct (@index_run_good _ (fun _ _ => True)
              (fun _ _ _ _ => I) (fun _ _ _ _ => I) (fun _ _ _ => I)
              papers sched s)
    as [rest [Htr (Hlen & Hst & _ & _ & _ & Hiss & Hemb & _)]].
  destruct (index_run_records papers sched s) as [rest' (Htr' & Hts & Hev)].
  assert (rest' = rest) as ->.
  { rewrite Htr in Htr'. apply app_inv_head in Htr'.
    apply app_inv_head in Htr'. now symmetry. }
  exists rest. split; [exact Htr|].
  split; [rewrite count_app in Hemb; lia|].
  repeat split; assumption.
Qed.

Lemma run_detached_fulfilled (late : list nat) (ts : list Task) (s : St) :
  Forall (fun t => t = Fulfilled) ts ->
  run_detached late ts s = (ts, s).
Proof.
  revert ts. induction late as [|i late IH]; intros ts Hall; [reflexivity|].
  cbn [run_detached].
  destruct (nth_error ts i) as [t|] eqn:Hi; [|exact (IH ts Hall)].
  assert (Ht : t = Fulfilled).
  { rewrite Forall_forall in Hall. apply Hall.
    exact (nth_error_In _ _ Hi). }
  subst t. cbn [settle].
  assert (Hsame : set_nth i Fulfilled ts = ts).
  { clear - Hi. revert i Hi.
    induction ts as [|t0 ts IHts]; intros [|i] Hi; cbn in *;
      try discriminate.
    - now injection Hi as ->.
    - now rewrite (IHts i Hi). }
  rewrite Hsame. exact (IH ts Hall).
Qed.

(** What the callbacks add to the trace after the step has ended. *)
Lemma index_run_detached_events (papers : list JsVal) (sched late : list nat)
  (s : St) :
  exists rest more,
    trace (snd (index_run papers sched s))
    = trace s ++ embed_calls papers ++ rest
    /\ trace (snd (index_run_detached papers sched late s))
       = trace (snd (index_run papers sched s)) ++ more
    /\ Forall (in_stage Index) (embed_calls papers ++ rest)
    /\ Forall (in_stage Index) more
    /\ count embed_issued more = 0
    /\ count upsert_issued (rest ++ more) <= length papers
    /\ Forall (upsert_of papers) more
    /\ (first_rejection (fst (index_run papers sched s)) = None -> more = []).
Proof.
  destruct (index_run_kept papers sched s) as [rest (Htr & Hemb0 & Hkept)].
  pose proof (index_run_settled papers sched s) as Hsettled.
  unfold index_run_detached.
  destruct (index_run papers sched s) as [ts s1] eqn:Hrun. cbn [fst snd] in *.
  destruct (@run_detached_invariant
              (Kept_late papers (count embed_issued (embed_calls papers)))
              (fun ts0 s0 i t t' s' new evs H1 H2 H3 =>
                 @Kept_late_step papers _ ts0 s0 i t t' s' new evs H1 H2 H3)
              late ts s1 (embed_calls papers ++ rest) Hkept)
    as [more [Hmore (Hlen & Hst & Hiss & Hemb & Hts & Hev)]].
  pose proof (embed_calls_issued papers) as Hcalls.
  assert (Hzero : forall f,
             (forall content, f (Issued Index (CEmbed content)) = false) ->
             count f (embed_calls papers) = 0).
  { intros f Hf0.
    apply (@count_none _ f (fun e => exists content,
                                e = Issued Index (CEmbed content)) _);
      [|exact Hcalls].
    intros e [content ->]. apply Hf0. }
  exists rest, more.
  split; [exact Htr|]. split; [exact Hmore|].
  split; [apply Forall_app in Hst; tauto|].
  split; [apply Forall_app in Hst; tauto|].
  split; [rewrite !count_app in Hemb; lia|].
  split.
  { rewrite <- app_assoc, count_app in Hiss.
    rewrite (Hzero upsert_issued) in Hiss by reflexivity.
    pose proof (@total_le_length _ upserting_w
                  (fst (run_detached late ts s1))
                  (fun t => match t with
                            | AwaitEmbed _ _ => le_S _ _ (le_n 0)
                            | _ => le_n 1
                            end)) as Hle.
    cbn [Nat.add] in Hiss. lia. }
  split; [apply Forall_app in Hev; tauto|].
  intros Hr.
  assert (Hall : Forall (fun t => t = Fulfilled) ts).
  { apply all_fulfilled. rewrite (Hsettled Hr).
    destruct Hkept as (Hl & _). now symmetry. }
  rewrite (run_detached_fulfilled late s1 Hall) in Hmore.
  cbn [snd] in Hmore.
  rewrite <- (app_nil_r (trace s1)) in Hmore at 1.
  apply app_inv_head in Hmore. now symmetry.
Qed.

(** A task that has not come to its end when the step ends: the step has
    failed. *)
Lemma index_run_pending (papers : list JsVal) (sched : list nat) (s : St)
  (i : nat) (t : Task) :
  nth_error (fst (index_run papers sched s)) i = Some t ->
  t <> Fulfilled ->
  is_ok (fst (upsertToPinecone papers sched s)) = false.
Proof.
  intros Hi Ht.
  destruct (upsertToPinecone_run papers sched s) as [_ Hok]. rewrite Hok.
  destruct (first_rejection (fst (index_run papers sched s))) eqn:Hr;
    [reflexivity|]. exfalso.
  pose proof (index_run_settled papers sched s Hr) as Htotal.
  destruct (index_run_kept papers sched s) as [rest (_ & _ & Hlen & _)].
  rewrite <- Hlen in Htotal.
  apply all_fulfilled in Htotal. rewrite Forall_forall in Htotal.
  apply Ht, Htotal. exact (nth_error_In _ _ Hi).
Qed.

(** The rejection of [Promise.all] cancels nothing.  Whatever the order
    [late] in which the calls still pending settle once the step has
    ended, the callbacks run on: what they add to the trace are calls of
    the indexing only, never a second embedding request, upserts of
    records of the papers, and over the whole still at most one upsert
    per paper; nothing at all when the step had succeeded.  In
    particular, for a paper whose embedding is still pending when the step
    ends (the step has failed then), the upsert of its record is issued
    when the embedding arrives, after the failure; and a pending upsert
    that settles then may be rejected too, so that in all more than one
    call can be rejected. *)
Theorem indexing_goes_on_after_rejection :
  forall (papers : list JsVal) (sched late : list nat) (s : St),
  exists rest more,
    trace (snd (upsertToPinecone papers sched s))
    = trace s ++ embed_calls papers ++ rest
    /\ trace (snd (index_run_detached papers sched late s))
       = trace (snd (upsertToPinecone papers sched s)) ++ more
    /\ Forall (in_stage Index) more
    /\ count embed_issued more = 0
    /\ count upsert_issued (rest ++ more) <= length papers
    /\ (forall stage records,
          In (Issued stage (CUpsert records)) more ->
          exists paper embedding record,
            In paper papers
            /\ build_record paper embedding = Ok record
            /\ records = [record])
    /\ (is_ok (fst (upsertToPinecone papers sched s)) = true -> more = [])
    /\ (forall i paper content embedding w record,
          nth_error (fst (index_run papers sched s)) i
          = Some (AwaitEmbed paper content) ->
          embedContent content (world (snd (upsertToPinecone papers sched s)))
          = (Ok embedding, w) ->
          build_record paper embedding = Ok record ->
          is_ok (fst (upsertToPinecone papers sched s)) = false
          /\ trace (snd (index_run_detached papers sched [i] s))
             = trace (snd (upsertToPinecone papers sched s))
               ++ [Settled Index (CEmbed content) true;
                   Issued Index (CUpsert [record])])
    /\ (forall i record,
          nth_error (fst (index_run papers sched s)) i
          = Some (AwaitUpsert record) ->
          is_ok (fst (upsertToPinecone papers sched s)) = false
          /\ trace (snd (index_run_detached papers sched [i] s))
             = trace (snd (upsertToPinecone papers sched s))
               ++ [Settled Index (CUpsert [record])
                     (is_ok (fst (index_upsert [record]
                                    (world (snd (upsertToPinecone papers
                                                   sched s))))))]).
Proof.
  intros papers sched late s.
  destruct (index_run_detached_events papers sched late s)
    as [rest [more (Htr & Hmore & _ & Hst & Hemb & Hiss & Hev & Hnone)]].
  pose proof (@index_run_pending papers sched s) as Hpending.
  destruct (upsertToPinecone_run papers sched s) as [Hsnd Hok].
  rewrite Hsnd in *. exists rest, more.
  split; [exact Htr|]. split; [exact Hmore|]. split; [exact Hst|].
  split; [exact Hemb|]. split; [exact Hiss|].
  split.
  { intros stage records Hin. rewrite Forall_forall in Hev.
    exact (Hev (Issued stage (CUpsert records)) Hin). }
  split.
  { rewrite Hok. intros Hsucc. apply Hnone.
    destruct (first_rejection (fst (index_run papers sched s)));
      [discriminate|reflexivity]. }
  unfold index_run_detached.
  destruct (index_run papers sched s) as [ts s1]. cbn [fst snd] in *.
  split.
  - intros i paper content embedding w record Hi Hembed Hb.
    split; [apply (Hpending i _ Hi); discriminate|].
    cbn [run_detached]. rewrite Hi. cbn [settle]. rewrite Hembed, Hb.
    cbn [run_detached snd log trace]. now rewrite <- app_assoc.
  - intros i record Hi.
    split; [apply (Hpending i _ Hi); discriminate|].
    cbn [run_detached]. rewrite Hi. cbn [settle].
    destruct (index_upsert [record] (world s1)) as [r w].
    reflexivity.
Qed.

Lemma run_detached_nil (late : list nat) (s : St) :
  run_detached late [] s = ([], s).
Proof.
  induction late as [|i late IH]; [reflexivity|].
  cbn [run_detached]. now destruct i.
Qed.

(** Where [GET] leaves callbacks that go on: the indexing has failed. *)
Lemma GET_detached_cases (param : option string) (sched late : list nat)
  (s : St) :
  GET_detached param sched late s = snd (GET param sched s)
  \/ (exists keywords papers s1 s2,
        extractKeywords (userQuery_of param) s = (Ok keywords, s1)
        /\ fetchArxivPapers keywords s1 = (Ok papers, s2)
        /\ snd (GET param sched s) = snd (index_run papers sched s2)
        /\ fst (GET param sched s) = failure_response
        /\ GET_detached param sched late s
           = snd (index_run_detached papers sched late s2)).
Proof.
  unfold GET_detached, GET_tasks.
  destruct (extractKeywords (userQuery_of param) s) as [[keywords|e] s1]
    eqn:Hk; [|left; now rewrite run_detached_nil].
  destruct (fetchArxivPapers keywords s1) as [[papers|e] s2] eqn:Hf;
    [|left; now rewrite run_detached_nil].
  destruct papers as [|p ps]; [left; cbn; now rewrite run_detached_nil|].
  cbn [length Nat.eqb].
  rewrite (@GET_on_path _ param sched s s1 s2 keywords (p :: ps) Hk Hf).
  cbn [fst snd]. rewrite grounded_path_run.
  destruct (upsertToPinecone_run (p :: ps) sched s2) as [Hsnd Hok].
  pose proof (index_run_settled (p :: ps) sched s2) as Hsettled.
  destruct (index_run_kept (p :: ps) sched s2) as [rest (_ & _ & Hlen & _)].
  destruct (upsertToPinecone (p :: ps) sched s2) as [[u|e] s3];
    cbn [fst snd is_ok] in *.
  - left.
    assert (Hall : Forall (fun t => t = Fulfilled)
                     (fst (index_run (p :: ps) sched s2))).
    { apply all_fulfilled.
      destruct (first_rejection (fst (index_run (p :: ps) sched s2)));
        [discriminate|].
      rewrite (Hsettled eq_refl). now symmetry. }
    now rewrite (run_detached_fulfilled late _ Hall).
  - right. exists keywords, (p :: ps), s1, s2.
    split; [reflexivity|]. split; [exact Hf|].
    split; [exact Hsnd|]. split; [reflexivity|].
    subst s3. unfold index_run_detached.
    now destruct (index_run (p :: ps) sched s2).
Qed.

(** The handler acts on the first rejected call.  In the trace of [GET]
    every call before it was fulfilled and it is the last event: [GET]
    resumes there, starts no further stage, retries nothing, and answers
    with the failure response.  What can still follow, whatever the order
    [late] in which the calls left pending settle, are only calls of the
    indexing callbacks that were already running, never a new embedding
    request; nothing follows when the rejected call was not of the
    indexing, nor when the response has status 200. *)
Theorem GET_stops_at_first_rejection :
  forall (param : option string) (sched late : list nat) (s : St),
  exists evs more,
    trace (snd (GET param sched s)) = trace s ++ evs
    /\ trace (GET_detached param sched late s) = trace s ++ evs ++ more
    /\ count rejected evs <= 1
    /\ (count rejected evs = 1 ->
        exists pre stage c,
          evs = pre ++ [Settled stage c false]
          /\ count rejected pre = 0
          /\ fst (GET param sched s) = failure_response
          /\ (stage <> Index -> more = []))
    /\ Forall (in_stage Index) more
    /\ count embed_issued more = 0
    /\ (status (fst (GET param sched s)) = 200 -> more = []).
Proof.
  intros param sched late s.
  destruct (GET_try_halts param sched s) as [evs [Htr [Hlast Hfail]]].
  destruct (count_last rejected evs Hlast) as [Hle Hone].
  assert (Hget : trace (snd (GET param sched s)) = trace s ++ evs).
  { rewrite GET_of_try. exact Htr. }
  assert (Hend : count rejected evs = 1 ->
                 exists pre stage c,
                   evs = pre ++ [Settled stage c false]
                   /\ count rejected pre = 0
                   /\ fst (GET param sched s) = failure_response).
  { intros H1. destruct (Hone H1) as [pre [e [Hevs [He Hpre]]]].
    destruct e as [stage c|stage c [|]]; try discriminate.
    exists pre, stage, c. split; [exact Hevs|]. split; [exact Hpre|].
    assert (Hn : count rejected evs <> 0) by lia.
    specialize (Hfail Hn). rewrite GET_of_try. cbn [fst].
    destruct (fst (GET_try param sched s)); [discriminate|reflexivity]. }
  destruct (GET_detached_cases param sched late s)
    as [Hsame|(keywords & papers & s1 & s2 & Hk & Hf & Hsnd & Hfst & Hdet)].
  - exists evs, []. rewrite app_nil_r, Hsame.
    split; [exact Hget|]. split; [exact Hget|]. split; [exact Hle|].
    split.
    { intros H1. destruct (Hend H1) as (pre & stage & c & H).
      exists pre, stage, c. tauto. }
    split; [constructor|]. split; [reflexivity|]. reflexivity.
  - destruct (index_run_detached_events papers sched late s2)
      as [rest [more (Hrun & Hmore & Hidx & Hst & Hemb & _)]].
    exists evs, more.
    split; [exact Hget|].
    split; [rewrite Hdet, Hmore, <- Hsnd, Hget; now rewrite <- app_assoc|].
    split; [exact Hle|].
    split.
    { intros H1. destruct (Hend H1) as (pre & stage & c & Hevs & Hpre & Hresp).
      exists pre, stage, c. split; [exact Hevs|]. split; [exact Hpre|].
      split; [exact Hresp|]. intros Hstage. exfalso. apply Hstage.
      destruct (extractKeywords_runs (userQuery_of param) s)
        as [e1 [H1' [_ Hc1]]].
      destruct (fetchArxivPapers_runs keywords s1) as [e2 [H2' [_ Hc2]]].
      rewrite Hk in H1', Hc1. rewrite Hf in H2', Hc2. cbn [fst snd] in *.
      specialize (Hc1 eq_refl). specialize (Hc2 eq_refl).
      assert (Hshape : evs = (e1 ++ e2) ++ embed_calls papers ++ rest).
      { rewrite Hsnd, Hrun, H2', H1' in Hget.
        rewrite <- !app_assoc in Hget. apply app_inv_head in Hget.
        rewrite <- Hget. now rewrite <- !app_assoc. }
      assert (Hin : In (Settled stage c false) evs).
      { rewrite Hevs. apply in_app_iff. right. now left. }
      rewrite Hshape in Hin. apply in_app_iff in Hin.
      destruct Hin as [Hin|Hin].
      - exfalso.
        apply (@count_positive _ rejected _ _ Hin eq_refl).
        rewrite count_app, Hc1, Hc2. reflexivity.
      - rewrite Forall_forall in Hidx. exact (Hidx _ Hin). }
    split; [exact Hst|]. split; [exact Hemb|].
    rewrite Hfst. discriminate.
Qed.

End AfterRejection.

(** ** The arXiv helper *)

Section HelperFacts.

Context {SV : Services}.

Lemma mapM_Forall2 {A B} (f : A -> Result B) (xs : list A) (ys : list B) :
  mapM f xs = Ok ys -> Forall2 (fun x y => f x = Ok y) xs ys.
Proof.
  revert ys. induction xs as [|x xs IH]; intros ys; cbn [mapM].
  - intros [= <-]. constructor.
  - destruct (f x) as [y|e] eqn:Hx; [|discriminate].
    destruct (mapM f xs) as [ys'|e]; [|discriminate].
    intros [= <-]. constructor; [exact Hx|]. now apply IH.
Qed.

Lemma mapM_fails {A B} (f : A -> Result B) (x : A) (xs : list A) :
  In x xs -> is_ok (f x) = false -> is_ok (mapM f xs) = false.
Proof.
  induction xs as [|x0 xs IH]; [contradiction|].
  intros [->|Hin] Hx; cbn [mapM].
  - destruct (f x); [discriminate|reflexivity].
  - destruct (f x0); [|reflexivity].
    specialize (IH Hin Hx). destruct (mapM f xs); [discriminate|reflexivity].
Qed.

(** The helper maps the entries the route's fetcher would return. *)
Lemma processArxivResponse_entries (result : JsVal) (entries : list JsVal) :
  feed_entries result = Ok entries ->
  processArxivResponse result = mapM summarise_entry entries.
Proof.
  unfold feed_entries, processArxivResponse.
  destruct (get result "feed") as [feed|e]; [|discriminate].
  destruct (get feed "entry") as [entry|e]; [|discriminate].
  destruct (negb (truthy entry)); intros [= <-]; reflexivity.
Qed.

Lemma processArxivResponse_feed (result : JsVal) :
  is_ok (processArxivResponse result) = true ->
  exists entries, feed_entries result = Ok entries.
Proof.
  unfold feed_entries, processArxivResponse.
  destruct (get result "feed") as [feed|e]; [|discriminate].
  destruct (get feed "entry") as [entry|e]; [|discriminate].
  destruct (negb (truthy entry)); intros _; eexists; reflexivity.
Qed.

Lemma summarise_entry_fields (entry : JsVal) (o : ArxivSummary) :
  summarise_entry entry = Ok o ->
  get entry "id" = Ok (as_id o)
  /\ get entry "title" = Ok (as_title o)
  /\ get entry "summary" = Ok (as_summary o)
  /\ (exists author,
         get entry "author" = Ok author
         /\ match author with
            | JArray items =>
                exists names,
                  mapM (fun a => get a "name") items = Ok names
                  /\ as_authors o = JString (join ", " names)
            | _ => get author "name" = Ok (as_authors o)
            end)
  /\ (exists link attrs,
         get entry "link" = Ok link
         /\ get link "$" = Ok attrs
         /\ get attrs "href" = Ok (as_link o)).
Proof.
  unfold summarise_entry.
  destruct (get entry "id") as [eid|]; [|discriminate].
  destruct (get entry "title") as [etitle|]; [|discriminate].
  destruct (get entry "summary") as [esummary|]; [|discriminate].
  destruct (get entry "author") as [author|]; [|discriminate].
  destruct (match author with
            | JArray items => _
            | _ => _
            end) as [eauthors|] eqn:Hauthors; [|discriminate].
  destruct (get entry "link") as [link|]; [|discriminate].
  destruct (get link "$") as [attrs|] eqn:Hattrs; [|discriminate].
  destruct (get attrs "href") as [href0|] eqn:Hhref; [|discriminate].
  intros [= <-]. cbn.
  split; [reflexivity|]. split; [reflexivity|]. split; [reflexivity|].
  split.
  - exists author. split; [reflexivity|].
    destruct author as [|a|items|fs]; try exact Hauthors.
    destruct (mapM (fun a => get a "name") items) as [names|];
      [|discriminate].
    exists names. split; [reflexivity|]. now injection Hauthors as <-.
  - exists link, attrs. repeat split; assumption.
Qed.

(** When [processArxivResponse] returns, it returns one summary per entry
    of the feed, in the order of the entries, and each summary carries the
    id, the title and the abstract of its entry, the names of its authors
    (joined when they are a list) and the address of its link. *)
Theorem processArxivResponse_summaries :
  forall (result : JsVal) (out : list ArxivSummary),
    processArxivResponse result = Ok out ->
    exists entries,
      feed_entries result = Ok entries
      /\ length out = length entries
      /\ Forall2
           (fun entry o =>
              get entry "id" = Ok (as_id o)
              /\ get entry "title" = Ok (as_title o)
              /\ get entry "summary" = Ok (as_summary o)
              /\ (exists author,
                     get entry "author" = Ok author
                     /\ match author with
                        | JArray items =>
                            exists names,
                              mapM (fun a => get a "name") items = Ok names
                              /\ as_authors o = JString (join ", " names)
                        | _ => get author "name" = Ok (as_authors o)
                        end)
              /\ (exists link attrs,
                     get entry "link" = Ok link
                     /\ get link "$" = Ok attrs
                     /\ get attrs "href" = Ok (as_link o)))
           entries out.
Proof.
  intros result out Hout.
  destruct (processArxivResponse_feed result) as [entries Hentries].
  { now rewrite Hout. }
  exists entries. split; [exact Hentries|].
  rewrite (processArxivResponse_entries _ Hentries) in Hout.
  apply mapM_Forall2 in Hout.
  split; [symmetry; exact (Forall2_length Hout)|].
  eapply Forall2_impl; [|exact Hout].
  intros entry o. apply summarise_entry_fields.
Qed.

(** The helper is all or nothing: one entry that it cannot summarise makes
    it throw and return no summary at all.  That is the case of an entry
    with several links (its [link] is then a list), of an entry without
    link and of an entry without author. *)
Theorem processArxivResponse_all_or_nothing :
  forall (result : JsVal) (entries : list JsVal)
         (fields : list (string * JsVal)),
    feed_entries result = Ok entries ->
    In (JObject fields) entries ->
    isArray (lookup "link" fields) = true
    \/ lookup "link" fields = JUndefined
    \/ lookup "author" fields = JUndefined ->
    is_ok (processArxivResponse result) = false.
Proof.
  intros result entries fields Hentries Hin Hbad.
  rewrite (processArxivResponse_entries _ Hentries).
  apply (mapM_fails summarise_entry _ _ Hin).
  unfold summarise_entry. cbn [get].
  destruct Hbad as [Hlink|[Hlink|Hauthor]].
  - destruct (match lookup "author" fields with
              | JArray items => _
              | _ => _
              end); [|reflexivity].
    destruct (lookup "link" fields); try discriminate. reflexivity.
  - destruct (match lookup "author" fields with
              | JArray items => _
              | _ => _
              end); [|reflexivity].
    rewrite Hlink. reflexivity.
  - rewrite Hauthor. reflexivity.
Qed.

(** The helper's fetcher sends one request, for the whole question quoted
    as one phrase and five results; it throws 'ArXiv API request failed'
    for a status that is no success, whatever the body, and otherwise
    returns what [processArxivResponse] makes of the parsed document. *)
Theorem helper_fetch :
  forall (searchParams_toString : list (string * string) -> string)
         (query : string) (s : St),
    let url :=
      ("http://export.arxiv.org/api/query?"
       ++ searchParams_toString
            [ ("search_query", ("all:" ++ dq ++ query ++ dq)%string);
              ("start", "0");
              ("max_results", "5");
              ("sortBy", "relevance");
              ("sortOrder", "descending") ])%string in
    trace (snd (ArxivLib.fetchArxivPapers searchParams_toString query s))
    = trace s ++ [ Issued Fetch (CFetch url);
                   Settled Fetch (CFetch url)
                     (is_ok (fst (fetch url (world s)))) ]
    /\ fst (ArxivLib.fetchArxivPapers searchParams_toString query s)
       = match fst (fetch url (world s)) with
         | Throw e => Throw e
         | Ok response =>
             if ok response
             then match text response with
                  | Throw e => Throw e
                  | Ok xml =>
                      match parseStringPromise xml with
                      | Throw e => Throw e
                      | Ok result => processArxivResponse result
                      end
                  end
             else Throw (Error "ArXiv API request failed")
         end.
Proof.
  intros toStr query s url.
  unfold ArxivLib.fetchArxivPapers, bind. rewrite await_run.
  change (ArxivLib.BASE_URL ++ "?" ++ toStr (ArxivLib.searchQuery query))%string
    with url.
  destruct (fst (fetch url (world s))) as [response|e];
    [|split; reflexivity].
  destruct (ok response); cbn [negb]; [|split; reflexivity].
  unfold lift. destruct (text response) as [xml|e]; [|split; reflexivity].
  destruct (parseStringPromise xml); split; reflexivity.
Qed.

End HelperFacts.

(** ** The search page *)

Section LinkFacts.

Lemma split_nonempty (sep : ascii) (s : string) : Page.split sep s <> [].
Proof.
  destruct s as [|c r]; cbn [Page.split]; [discriminate|].
  destruct (Ascii.eqb c sep); [discriminate|].
  destruct (Page.split sep r); discriminate.
Qed.

(** Splitting at a separator splits each side of it. *)
Lemma split_app (sep : ascii) (a b : string) :
  Page.split sep (a ++ String sep b)
  = Page.split sep a ++ Page.split sep b.
Proof.
  induction a as [|c a IH]; cbn [append Page.split].
  - now rewrite Ascii.eqb_refl.
  - rewrite IH. destruct (Ascii.eqb c sep); [reflexivity|].
    pose proof (split_nonempty sep a) as Hne.
    destruct (Page.split sep a) as [|part parts]; [contradiction|reflexivity].
Qed.

Lemma split_whole (sep : ascii) (s : string) :
  occurs sep s = false -> Page.split sep s = [s].
Proof.
  induction s as [|c r IH]; cbn [occurs Page.split]; [reflexivity|].
  intros H. apply orb_false_iff in H. destruct H as [Hc Hr].
  rewrite Hc, (IH Hr). reflexivity.
Qed.

Lemma split_parts (sep : ascii) (s : string) :
  Forall (fun part => occurs sep part = false) (Page.split sep s).
Proof.
  induction s as [|c r IH]; cbn [Page.split].
  - repeat constructor.
  - destruct (Ascii.eqb c sep) eqn:Hc; [constructor; [reflexivity|exact IH]|].
    destruct (Page.split sep r) as [|part parts]; [repeat constructor|].
    + cbn. now rewrite Hc.
    + inversion IH as [|? ? Hp Hps]; subst. constructor; [|exact Hps].
      cbn. now rewrite Hc, Hp.
Qed.

Lemma last_app_nonempty {A} (l1 l2 : list A) (d : A) :
  l2 <> [] -> last (l1 ++ l2) d = last l2 d.
Proof.
  intros Hne. induction l1 as [|x l1 IH]; [reflexivity|].
  cbn [app]. destruct (l1 ++ l2) eqn:Happ.
  - destruct l1; [cbn in Happ; contradiction|discriminate].
  - cbn [last]. exact IH.
Qed.

Lemma last_Forall {A} (P : A -> Prop) (l : list A) (d : A) :
  Forall P l -> l <> [] -> P (last l d).
Proof.
  induction 1 as [|x l Hx Hl IH]; [contradiction|]. intros _.
  destruct l as [|y l]; [exact Hx|]. apply IH. discriminate.
Qed.

(** What [id.split('/').pop()] gives: the part of the id after its last
    slash. *)
Lemma pop_split (pid : string) :
  exists seg,
    Page.pop (Page.split Page.slash pid) = JString seg
    /\ occurs Page.slash seg = false
    /\ (occurs Page.slash pid = false -> seg = pid)
    /\ (forall a b,
          pid = (a ++ String Page.slash b)%string ->
          occurs Page.slash b = false -> seg = b).
Proof.
  exists (last (Page.split Page.slash pid) EmptyString).
  pose proof (split_nonempty Page.slash pid) as Hne.
  split; [|split; [|split]].
  - unfold Page.pop. destruct (Page.split Page.slash pid);
      [contradiction|reflexivity].
  - apply last_Forall; [apply split_parts|exact Hne].
  - intros Hno. now rewrite (split_whole _ _ Hno).
  - intros a b -> Hb. rewrite split_app.
    rewrite last_app_nonempty by apply split_nonempty.
    now rewrite (split_whole _ _ Hb).
Qed.

(** The link of a paper goes to [https://arxiv.org/abs/] followed by the
    part of the paper's id after its last slash: that part has no slash,
    it is the whole id when the id has none, and for an id [a/b] with no
    slash in [b] it is [b], whatever [a] holds (of an old-style
    identifier such as [hep-th/9901001v1] only [9901001v1] is kept). *)
Theorem paper_link_last_segment :
  forall (fields : list (string * JsVal)) (pid : string),
    lookup "id" fields = JString pid ->
    exists seg,
      Page.paper_link (JObject fields)
      = Ok {| Page.href := ("https://arxiv.org/abs/" ++ seg)%string;
              Page.link_title := lookup "title" fields |}
      /\ occurs Page.slash seg = false
      /\ (occurs Page.slash pid = false -> seg = pid)
      /\ (forall a b,
            pid = (a ++ String Page.slash b)%string ->
            occurs Page.slash b = false -> seg = b).
Proof.
  intros fields pid Hid.
  destruct (pop_split pid) as [seg [Hpop Hseg]].
  exists seg. split; [|exact Hseg].
  unfold Page.paper_link. cbn [get]. rewrite Hid, Hpop. reflexivity.
Qed.

(** The result card of an answer lists one link per paper of the
    response, in the order of the papers, each to the last part of the
    paper's id and under the paper's title; it lists nothing for an empty
    paper list; and one paper whose id is absent or is no string makes the
    card, and with it the page, fail to render. *)
Theorem result_card_links :
  forall (answer keywords : string) (papers : list JsVal),
    (forall card,
        Page.result_card (AnswerBody answer keywords papers) = Ok card ->
        Page.card_answer card = Some answer
        /\ length (Page.card_links card) = length papers
        /\ Forall2
             (fun paper link =>
                exists pid,
                  get paper "id" = Ok (JString pid)
                  /\ Page.href link
                     = ("https://arxiv.org/abs/"
                        ++ toString (Page.pop (Page.split Page.slash pid)))%string
                  /\ get paper "title" = Ok (Page.link_title link))
             papers (Page.card_links card))
    /\ (papers = [] ->
        Page.result_card (AnswerBody answer keywords papers)
        = Ok {| Page.card_answer := Some answer; Page.card_links := [] |})
    /\ (forall paper,
          In paper papers ->
          (forall pid, get paper "id" <> Ok (JString pid)) ->
          is_ok (Page.result_card (AnswerBody answer keywords papers)) = false).
Proof.
  intros answer keywords papers. split; [|split].
  - intros card. unfold Page.result_card.
    destruct (mapM Page.paper_link papers) as [links|] eqn:Hlinks;
      [|discriminate].
    intros [= <-]. cbn. apply mapM_Forall2 in Hlinks.
    split; [reflexivity|].
    split; [symmetry; exact (Forall2_length Hlinks)|].
    eapply Forall2_impl; [|exact Hlinks].
    intros paper link. unfold Page.paper_link.
    destruct (get paper "id") as [[|pid|items|fs]|]; try discriminate.
    destruct (get paper "title") as [ptitle|]; [|discriminate].
    intros [= <-]. exists pid. repeat split.
  - intros ->. reflexivity.
  - intros paper Hin Hid. unfold Page.result_card.
    assert (Hbad : is_ok (Page.paper_link paper) = false).
    { unfold Page.paper_link.
      destruct (get paper "id") as [[|pid|items|fs]|]; try reflexivity.
      now contradiction (Hid pid). }
    pose proof (mapM_fails Page.paper_link _ _ Hin Hbad) as Hfail.
    destruct (mapM Page.paper_link papers); [discriminate|reflexivity].
Qed.

End LinkFacts.

Section PageFacts.

Context {SV : Services}.

Lemma page_inv_step (a : Page.Action) (p : Page.Session) :
  page_inv p -> page_inv (Page.step a p).
Proof.
  intros (Hm & He & Hl). unfold Page.step. rewrite Hm. cbn [negb].
  destruct a as [value|card| |request reply].
  - repeat split; assumption.
  - destruct (nth_error Page.sampleQuestions card) as [item|];
      [|repeat split; assumption].
    split; [exact Hm|]. split; [now left|].
    intros _. cbn. now destruct (Page.in_flight p).
  - split; [exact Hm|]. split; [now left|].
    intros _. cbn. now destruct (Page.in_flight p).
  - destruct (nth_error (Page.in_flight p) request);
      [|repeat split; assumption].
    split; [|split].
    + unfold Page.search_settled. destruct reply as [response|e]; [|exact Hm].
      destruct (negb (Page.reply_ok response)); [exact Hm|].
      destruct (Page.reply_json response); exact Hm.
    + unfold Page.search_settled. destruct reply as [response|e]; [|now right].
      destruct (negb (Page.reply_ok response)); [now right|].
      destruct (Page.reply_json response); [exact He|now right].
    + unfold Page.search_settled. cbn. discriminate.
Qed.

Lemma page_inv_run (acts : list Page.Action) (p : Page.Session) :
  page_inv p -> page_inv (Page.run acts p).
Proof.
  revert p. induction acts as [|a acts IH]; intros p Hp; [exact Hp|].
  cbn [Page.run]. apply IH, page_inv_step, Hp.
Qed.

Lemma search_settled_failed (reply : Result Page.Reply) (ui : Page.Ui) :
  Page.reply_data reply = None ->
  Page.search_settled reply ui = Page.search_done (Page.search_failed ui).
Proof.
  unfold Page.reply_data, Page.search_settled.
  destruct reply as [response|e]; [|reflexivity].
  destruct (negb (Page.reply_ok response)); [reflexivity|].
  destruct (Page.reply_json response); [discriminate|reflexivity].
Qed.

Lemma search_settled_data (reply : Result Page.Reply) (data : Body)
  (ui : Page.Ui) :
  Page.reply_data reply = Some data ->
  Page.search_settled reply ui
  = {| Page.ui_query := Page.ui_query ui;
       Page.ui_result := Some data;
       Page.ui_loading := false;
       Page.ui_error := Page.ui_error ui;
       Page.ui_mounted := Page.ui_mounted ui |}.
Proof.
  unfold Page.reply_data, Page.search_settled.
  destruct reply as [response|e]; [|discriminate].
  destruct (negb (Page.reply_ok response)); [discriminate|].
  destruct (Page.reply_json response); [|discriminate].
  now intros [= ->].
Qed.

Lemma step_clicked (p : Page.Session) (card : nat) (title question : string) :
  Page.ui_mounted (Page.ui p) = true ->
  nth_error Page.sampleQuestions card = Some (title, question) ->
  Page.step (Page.Clicked card) p = Page.start question p.
Proof.
  intros Hm Hcard. unfold Page.step. now rewrite Hm, Hcard.
Qed.

Lemma step_replied (p : Page.Session) (request : nat) (question : string)
  (reply : Result Page.Reply) :
  Page.ui_mounted (Page.ui p) = true ->
  nth_error (Page.in_flight p) request = Some question ->
  Page.step (Page.Replied request reply) p
  = {| Page.ui := Page.search_settled reply (Page.ui p);
       Page.in_flight := Page.remove_nth request (Page.in_flight p) |}.
Proof.
  intros Hm Hreq. unfold Page.step. now rewrite Hm, Hreq.
Qed.

Lemma run_app (a b : list Page.Action) (p : Page.Session) :
  Page.run (a ++ b) p = Page.run b (Page.run a p).
Proof.
  revert p. induction a as [|x a IH]; intros p; [reflexivity|].
  cbn [app Page.run]. apply IH.
Qed.

Lemma nth_error_middle {A} (l r : list A) (x : A) :
  nth_error (l ++ x :: r) (length l) = Some x.
Proof.
  induction l as [|y l IH]; [reflexivity|exact IH].
Qed.

Lemma nth_error_last {A} (l : list A) (x : A) :
  nth_error (l ++ [x]) (length l) = Some x.
Proof.
  apply nth_error_middle.
Qed.

Lemma remove_nth_middle {A} (l r : list A) (x : A) :
  Page.remove_nth (length l) (l ++ x :: r) = l ++ r.
Proof.
  induction l as [|y l IH]; [reflexivity|]. cbn. now rewrite IH.
Qed.

Lemma remove_nth_last {A} (l : list A) (x : A) :
  Page.remove_nth (length l) (l ++ [x]) = l.
Proof.
  rewrite remove_nth_middle. apply app_nil_r.
Qed.

(** The page follows the last event, not the searches in flight.  After
    any run of the freshly mounted page: the skeleton is up only if a
    request is in flight.  A search that starts (from a sample card or
    the form) puts up the skeleton alone, with the button disabled, and
    takes down the error and hides the result there were.  A request
    that settles takes the skeleton down, whatever else is in flight: a
    failed one leaves the fixed message and no result, a successful one
    leaves the result card of its data, and the error card there was.  So
    a search with no other settling between its start and its end shows
    exactly one outcome.  But two sample cards clicked one after the
    other overlap: when the first request settles the skeleton goes
    although the second is still in flight, the input shows the second
    question over the answer to the first, and when the first fails and
    the second succeeds the page shows the error card and the result
    card together. *)
Theorem page_follows_last_event :
  forall (acts : list Page.Action),
    let p := Page.run acts Page.fresh in
    let shown (loading : bool) (error : option string)
              (card : option Page.ResultCard) (p' : Page.Session) :=
      Ok (Some {| Page.input_value := Page.ui_query (Page.ui p');
                  Page.button_disabled := loading;
                  Page.button_label := if loading then "Searching..."
                                       else "Search";
                  Page.skeleton := loading;
                  Page.error_card := error;
                  Page.answer_card := card |}) in
    (Page.ui_loading (Page.ui p) = true -> Page.in_flight p <> [])
    /\ (forall card title question,
          nth_error Page.sampleQuestions card = Some (title, question) ->
          let p' := Page.step (Page.Clicked card) p in
          Page.in_flight p' = Page.in_flight p ++ [question]
          /\ Page.ui_query (Page.ui p') = question
          /\ Page.render (Page.ui p') = shown true None None p')
    /\ (let p' := Page.step Page.Submitted p in
        Page.in_flight p' = Page.in_flight p ++ [Page.ui_query (Page.ui p)]
        /\ Page.ui_query (Page.ui p') = Page.ui_query (Page.ui p)
        /\ Page.render (Page.ui p') = shown true None None p')
    /\ (forall request question reply,
          nth_error (Page.in_flight p) request = Some question ->
          let p' := Page.step (Page.Replied request reply) p in
          Page.in_flight p' = Page.remove_nth request (Page.in_flight p)
          /\ Page.ui_query (Page.ui p') = Page.ui_query (Page.ui p)
          /\ match Page.reply_data reply with
             | None =>
                 Page.render (Page.ui p')
                 = shown false (Some Page.failure_message) None p'
             | Some data =>
                 Page.render (Page.ui p')
                 = match Page.result_card data with
                   | Throw e => Throw e
                   | Ok card =>
                       shown false (Page.ui_error (Page.ui p)) (Some card) p'
                   end
             end)
    /\ (forall card title question reply data,
          nth_error Page.sampleQuestions card = Some (title, question) ->
          Page.reply_data reply = Some data ->
          let p' := Page.run [Page.Clicked card;
                              Page.Replied (length (Page.in_flight p)) reply]
                      p in
          Page.in_flight p' = Page.in_flight p
          /\ Page.render (Page.ui p')
             = match Page.result_card data with
               | Throw e => Throw e
               | Ok card => shown false None (Some card) p'
               end)
    /\ (forall card1 card2 title1 title2 question1 question2 reply1 reply2
               data1 data2 shown1 shown2,
          nth_error Page.sampleQuestions card1 = Some (title1, question1) ->
          nth_error Page.sampleQuestions card2 = Some (title2, question2) ->
          Page.reply_data reply1 = Some data1 ->
          Page.reply_data reply2 = Some data2 ->
          Page.result_card data1 = Ok shown1 ->
          Page.result_card data2 = Ok shown2 ->
          let n := length (Page.in_flight p) in
          let both := [Page.Clicked card1; Page.Clicked card2] in
          (let p' := Page.run (both ++ [Page.Replied n reply1]) p in
           Page.in_flight p' = Page.in_flight p ++ [question2]
           /\ Page.ui_query (Page.ui p') = question2
           /\ Page.render (Page.ui p') = shown false None (Some shown1) p')
          /\ (let p' := Page.run (both ++ [Page.Replied (S n) reply2;
                                           Page.Replied n reply1]) p in
              Page.in_flight p' = Page.in_flight p
              /\ Page.ui_query (Page.ui p') = question2
              /\ Page.render (Page.ui p') = shown false None (Some shown1) p')
          /\ (forall e,
                let p' := Page.run (both ++ [Page.Replied n (Throw e);
                                             Page.Replied n reply2]) p in
                Page.in_flight p' = Page.in_flight p
                /\ Page.render (Page.ui p')
                   = shown false (Some Page.failure_message) (Some shown2) p')).
Proof.
  intros acts p shown.
  assert (Hinv : page_inv p).
  { apply page_inv_run. split; [reflexivity|]. split; [now left|].
    discriminate. }
  destruct Hinv as (Hm & He & Hl).
  split; [exact Hl|].
  split; [|split; [|split; [|split]]].
  - intros card title question Hcard p'.
    subst p'. rewrite (@step_clicked _ _ _ _ Hm Hcard).
    split; [reflexivity|]. split; [reflexivity|].
    subst shown. unfold Page.render. cbn. rewrite Hm.
    destruct (Page.ui_result (Page.ui p)); reflexivity.
  - intros p'. subst p'. unfold Page.step. rewrite Hm. cbn [negb].
    split; [reflexivity|]. split; [reflexivity|].
    subst shown. unfold Page.render. cbn. rewrite Hm.
    destruct (Page.ui_result (Page.ui p)); reflexivity.
  - intros request question reply Hreq p'.
    subst p'. rewrite (@step_replied _ _ _ reply Hm Hreq). cbn [Page.in_flight Page.ui].
    split; [reflexivity|].
    destruct (Page.reply_data reply) as [data|] eqn:Hdata.
    + rewrite (@search_settled_data _ _ _ Hdata). cbn [Page.ui_query].
      split; [reflexivity|].
      subst shown. unfold Page.render. cbn. rewrite Hm. cbn.
      destruct (Page.result_card data) as [shown0|e]; [|reflexivity].
      destruct He as [-> | ->]; reflexivity.
    + rewrite (@search_settled_failed _ _ Hdata). cbn.
      split; [reflexivity|].
      subst shown. unfold Page.render. cbn. rewrite Hm. reflexivity.
  - intros card title question reply data Hcard Hdata p'.
    subst p'. cbn [Page.run]. rewrite (@step_clicked _ _ _ _ Hm Hcard).
    rewrite (@step_replied (Page.start question p)
               (length (Page.in_flight p)) question reply Hm
               (@nth_error_last _ _ _)).
    cbn [Page.start Page.in_flight Page.ui].
    rewrite remove_nth_last.
    split; [reflexivity|].
    rewrite (@search_settled_data _ _ _ Hdata).
    subst shown. unfold Page.render. cbn. rewrite Hm. cbn.
    destruct (Page.result_card data); reflexivity.
  - intros card1 card2 title1 title2 question1 question2 reply1 reply2
           data1 data2 shown1 shown2 Hc1 Hc2 Hd1 Hd2 Hs1 Hs2 n both.
    subst n both.
    assert (Hboth : Page.run [Page.Clicked card1; Page.Clicked card2] p
                    = Page.start question2 (Page.start question1 p)).
    { cbn [Page.run]. rewrite (@step_clicked _ _ _ _ Hm Hc1).
      now rewrite (@step_clicked (Page.start question1 p) _ _ _ Hm Hc2). }
    assert (Hfl : Page.in_flight (Page.start question2 (Page.start question1 p))
                  = Page.in_flight p ++ [question1; question2]).
    { cbn. now rewrite <- app_assoc. }
    split; [|split].
    + intros p'. subst p'. rewrite run_app, Hboth. cbn [Page.run].
      rewrite (@step_replied (Page.start question2 (Page.start question1 p))
                 (length (Page.in_flight p)) question1 reply1 Hm).
      2:{ rewrite Hfl. apply nth_error_middle. }
      rewrite Hfl, remove_nth_middle. cbn [Page.in_flight Page.ui].
      split; [reflexivity|].
      rewrite (@search_settled_data _ _ _ Hd1). cbn [Page.ui_query Page.start
                                                 Page.search_started Page.ui].
      split; [reflexivity|].
      subst shown. unfold Page.render. cbn. rewrite Hm, Hs1. reflexivity.
    + intros p'. subst p'. rewrite run_app, Hboth. cbn [Page.run].
      rewrite (@step_replied (Page.start question2 (Page.start question1 p))
                 (S (length (Page.in_flight p))) question2 reply2 Hm).
      2:{ rewrite Hfl.
          change [question1; question2] with ([question1] ++ [question2]).
          rewrite app_assoc.
          replace (S (length (Page.in_flight p)))
            with (length (Page.in_flight p ++ [question1]))
            by (rewrite length_app; cbn; lia).
          apply nth_error_last. }
      rewrite Hfl.
      assert (Hrm : Page.remove_nth (S (length (Page.in_flight p)))
                      (Page.in_flight p ++ [question1; question2])
                    = Page.in_flight p ++ [question1]).
      { change [question1; question2] with ([question1] ++ [question2]).
        rewrite app_assoc.
        replace (S (length (Page.in_flight p)))
          with (length (Page.in_flight p ++ [question1]))
          by (rewrite length_app; cbn; lia).
        apply remove_nth_last. }
      rewrite Hrm.
      rewrite (@step_replied _ (length (Page.in_flight p)) question1 reply1).
      2:{ rewrite (@search_settled_data _ _ _ Hd2). exact Hm. }
      2:{ apply nth_error_last. }
      cbn [Page.in_flight Page.ui]. rewrite remove_nth_last.
      split; [reflexivity|].
      rewrite (@search_settled_data _ _ _ Hd1), (@search_settled_data _ _ _ Hd2).
      cbn [Page.ui_query Page.start Page.search_started Page.ui].
      split; [reflexivity|].
      subst shown. unfold Page.render. cbn. rewrite Hm, Hs1. reflexivity.
    + intros e p'. subst p'. rewrite run_app, Hboth. cbn [Page.run].
      rewrite (@step_replied (Page.start question2 (Page.start question1 p))
                 (length (Page.in_flight p)) question1 (Throw e) Hm).
      2:{ rewrite Hfl. apply nth_error_middle. }
      rewrite Hfl, remove_nth_middle.
      rewrite (@step_replied _ (length (Page.in_flight p)) question2 reply2).
      2:{ exact Hm. }
      2:{ apply nth_error_last. }
      cbn [Page.in_flight Page.ui]. rewrite remove_nth_last.
      split; [reflexivity|].
      rewrite (@search_settled_data _ _ _ Hd2).
      subst shown. unfold Page.render. cbn. rewrite Hm, Hs2. reflexivity.
Qed.

Section Route.

(** [searchParams.get('query')] on the side of the route: it reads back
    the question the page has put into the address. *)
Variable searchParams_get : string -> option string.

Hypothesis get_query :
  forall searchQuery,
    searchParams_get (Page.request_url searchQuery) = Some searchQuery.

(** The page against the route: the page ends with the error message and
    no result exactly when the route answered with its failure response,
    and otherwise with the answer, the keywords and the papers of the
    route's response and no error. *)
Theorem page_shows_route_outcome :
  forall (searchQuery : string) (sched : list nat) (s : St) (ui : Page.Ui),
    let response :=
      fst (GET (searchParams_get (Page.request_url searchQuery)) sched s) in
    let ui' :=
      Page.handleSearch searchQuery (Ok (Page.served response)) ui in
    response = fst (GET (Some searchQuery) sched s)
    /\ ((response = failure_response
         /\ Page.ui_error ui' = Some Page.failure_message
         /\ Page.ui_result ui' = None)
        \/ (exists answer keywords papers,
               response
               = {| status := 200;
                    body := AnswerBody answer keywords papers |}
               /\ Page.ui_error ui' = None
               /\ Page.ui_result ui'
                  = Some (AnswerBody answer keywords papers))).
Proof.
  intros searchQuery sched s ui. cbv zeta. rewrite get_query.
  split; [reflexivity|].
  rewrite GET_of_try. cbn [fst].
  destruct (fst (GET_try (Some searchQuery) sched s)) as [response|e] eqn:Hr.
  - right.
    destruct (GET_try_shape (Some searchQuery) sched s Hr)
      as (answer & keywords & papers & _ & _ & -> & _).
    exists answer, keywords, papers. repeat split.
  - left. repeat split.
Qed.

(** Submitting the empty form is not held back: the route answers the
    built-in question, and the input stays empty. *)
Theorem empty_form_asks_default_question :
  forall (sched : list nat) (s : St) (reply : Result Page.Reply)
         (ui : Page.Ui),
    Page.ui_query ui = EmptyString ->
    GET (searchParams_get (Page.request_url (Page.ui_query ui))) sched s
    = GET (Some "Can cows grow") sched s
    /\ Page.ui_query (Page.handleSubmit reply ui) = EmptyString.
Proof.
  intros sched s reply ui Hq. rewrite get_query, Hq. split; [reflexivity|].
  unfold Page.handleSubmit, Page.handleSearch, Page.search_settled.
  rewrite Hq.
  destruct reply as [response|e]; [|reflexivity].
  destruct (negb (Page.reply_ok response)); [reflexivity|].
  destruct (Page.reply_json response); reflexivity.
Qed.

End Route.

End PageFacts.

(** * The further properties on concrete cases *)

(** The index rejects every write, and the first paper's upsert is
    rejected while the second paper's embedding is pending.  [GET]
    returns on that rejection; what follows are calls of the indexing. *)
Lemma GET_stops_at_first_rejection_witness :
  exists evs more,
    trace (snd (GET (SV := Demo.services) (Some "Can cows fly") [0; 0]
                  (Demo.start "two" "An answer." Demo.answer_mixed 0)))
    = evs
    /\ trace (GET_detached (SV := Demo.services) (Some "Can cows fly")
                [0; 0] [1; 1]
                (Demo.start "two" "An answer." Demo.answer_mixed 0))
       = evs ++ more
    /\ count (SV := Demo.services) rejected evs <= 1
    /\ Forall (in_stage (SV := Demo.services) Index) more.
Proof.
  destruct (@GET_stops_at_first_rejection Demo.services (Some "Can cows fly")
              [0; 0] [1; 1]
              (Demo.start "two" "An answer." Demo.answer_mixed 0))
    as [evs [more (Htr & Hdet & Hle & _ & Hst & _)]].
  exists evs, more. split; [exact Htr|]. split; [exact Hdet|].
  split; [exact Hle|exact Hst].
Defined.

(** In that run the upsert of the second paper is issued after [GET] has
    returned, and is rejected too: two rejected calls in all, one of them
    in the trace of [GET]. *)
Example late_rejection :
  count (SV := Demo.services) rejected
    (trace (snd (GET (SV := Demo.services) (Some "Can cows fly") [0; 0]
                   (Demo.start "two" "An answer." Demo.answer_mixed 0)))) = 1
  /\ count (SV := Demo.services) rejected
       (trace (GET_detached (SV := Demo.services) (Some "Can cows fly")
                 [0; 0] [1; 1]
                 (Demo.start "two" "An answer." Demo.answer_mixed 0))) = 2.
Proof.
  split; vm_compute; reflexivity.
Qed.

(** Two papers indexed: each has its record written. *)
Lemma indexing_writes_each_paper_witness :
  exists record,
    get Demo.paper_solo "id" = Ok (rec_id (E := nat) record)
    /\ get Demo.paper_solo "summary" = Ok (md_abstract (rec_metadata record)).
Proof.
  destruct (@indexing_writes_each_paper Demo.services
              [Demo.paper_attention; Demo.paper_solo] [1; 0; 0; 1]
              (Demo.start "two" "An answer." [] 2))
    as [rest (_ & _ & Hok)].
  destruct (Hok eq_refl Demo.paper_solo) as [record (_ & Hid & Hsum)].
  - right. now left.
  - exists record. split; assumption.
Defined.

(** The index rejects every write.  The first paper's upsert is rejected
    while the second paper's embedding is still pending: the step fails,
    and when that embedding arrives the upsert of the second paper is
    issued all the same. *)
Lemma indexing_goes_on_after_rejection_witness :
  is_ok (fst (upsertToPinecone (SV := Demo.services)
                [Demo.paper_attention; Demo.paper_solo] [0; 0]
                (Demo.start "two" "An answer." [] 0))) = false
  /\ trace (snd (index_run_detached (SV := Demo.services)
                   [Demo.paper_attention; Demo.paper_solo] [0; 0] [1]
                   (Demo.start "two" "An answer." [] 0)))
     = trace (snd (upsertToPinecone (SV := Demo.services)
                     [Demo.paper_attention; Demo.paper_solo] [0; 0]
                     (Demo.start "two" "An answer." [] 0)))
       ++ [@Settled Demo.services Index
             (@CEmbed Demo.services
                (JString "A Transformer-based approach to forecasting."))
             true;
           @Issued Demo.services Index
             (@CUpsert Demo.services [Demo.record_solo])].
Proof.
  destruct (@indexing_goes_on_after_rejection Demo.services
              [Demo.paper_attention; Demo.paper_solo] [0; 0] []
              (Demo.start "two" "An answer." [] 0))
    as [rest [more (_ & _ & _ & _ & _ & _ & _ & Hembed & _)]].
  exact (Hembed 1 Demo.paper_solo
           (JString "A Transformer-based approach to forecasting.")
           44 (Demo.world0 "two" "An answer." [] 0) Demo.record_solo
           eq_refl eq_refl eq_refl).
Defined.

(** arXiv returns an entry without category: the request fails. *)
Lemma GET_fails_on_unreadable_paper_witness :
  fst (GET (SV := Edge.services) (Some "Can cows fly") []
         (Edge.start "bare" "An answer." Demo.answer_mixed 5))
  = failure_response.
Proof.
  refine (proj2 (@GET_fails_on_unreadable_paper Edge.services
                   (Some "Can cows fly") []
                   (Edge.start "bare" "An answer." Demo.answer_mixed 5)
                   (Edge.interpreted "Can cows fly"
                      (Edge.start "bare" "An answer." Demo.answer_mixed 5))
                   (Edge.fetched "Can cows fly"
                      (Edge.start "bare" "An answer." Demo.answer_mixed 5))
                   Demo.keywords
                   [Demo.paper_attention; Edge.paper_uncategorised]
                   _ eq_refl eq_refl (or_intror (or_introl eq_refl))
                   (or_introl eq_refl))).
Defined.

(** The search on four matches, two of them unusable: the index was asked
    and gave four, two come back, in two blocks. *)
Lemma search_result_always_prompts_witness :
  exists matches blocks,
    @index_query Demo.services (search_request (SV := Demo.services) 12)
      (Demo.world0 "two" "An answer." Demo.answer_mixed 2)
    = (Ok matches, Demo.world0 "two" "An answer." Demo.answer_mixed 2)
    /\ length matches = 4
    /\ answer_context (SV := Demo.services)
         (flat_map (retrieved (SV := Demo.services)) matches)
       = Ok (join_strings (nl ++ nl) blocks)
    /\ length blocks = 2.
Proof.
  destruct (@search_result_always_prompts Demo.services "Can cows fly"
              (Demo.start "two" "An answer." Demo.answer_mixed 2)
              (snd (performVectorSearch (SV := Demo.services) "Can cows fly"
                      (Demo.start "two" "An answer." Demo.answer_mixed 2)))
              (flat_map (retrieved (SV := Demo.services)) Demo.answer_mixed)
              eq_refl)
    as (embedding & w1 & matches & blocks & Hembed & Hquery & Hrel & _ & _
        & Hblocks & Hctx & _).
  injection Hembed as <- <-. injection Hquery as <-.
  exists Demo.answer_mixed, blocks.
  split; [reflexivity|]. split; [reflexivity|]. split; [exact Hctx|].
  rewrite <- (Forall2_length Hblocks). reflexivity.
Defined.

(** A request that goes all the way. *)
Lemma GET_grounded_answer_witness :
  fst (GET (SV := Edge.services) (Some "Can cows fly") []
         (Edge.start "two" "An answer." Demo.answer_mixed 2))
  = {| status := 200;
       body := AnswerBody "An answer." Demo.keywords
                 [Demo.paper_attention; Demo.paper_solo] |}.
Proof.
  pose (s := Edge.start "two" "An answer." Demo.answer_mixed 2).
  pose (papers := [Demo.paper_attention; Demo.paper_solo]).
  destruct (@GET_grounded_answer Edge.services (Some "Can cows fly") [] s
              (Edge.interpreted "Can cows fly" s)
              (Edge.fetched "Can cows fly" s)
              (Edge.indexed "Can cows fly" papers [] s)
              (Edge.searched "Can cows fly" papers [] s)
              Demo.keywords papers
              (flat_map (retrieved (SV := Edge.services)) Demo.answer_mixed)
              eq_refl eq_refl ltac:(discriminate) eq_refl eq_refl)
    as [context (_ & _ & Hfst)].
  exact Hfst.
Defined.

(** A feed of two entries with one link each: two summaries. *)
Lemma processArxivResponse_summaries_witness :
  exists entries,
    feed_entries
      (Demo.feed_of [("entry", JArray [Edge.entry_one_link; Edge.entry_one_link])])
    = Ok entries
    /\ length entries = 2.
Proof.
  destruct (@processArxivResponse_summaries
              (Demo.feed_of
                 [("entry", JArray [Edge.entry_one_link; Edge.entry_one_link])])
              _ eq_refl)
    as [entries (Hentries & Hlen & _)].
  exists entries. split; [exact Hentries|]. rewrite <- Hlen. reflexivity.
Defined.

(** A feed in which the second entry has two links: no summary at all. *)
Lemma processArxivResponse_all_or_nothing_witness :
  is_ok (processArxivResponse
           (Demo.feed_of
              [("entry", JArray [Edge.entry_one_link; Edge.entry_two_links])]))
  = false.
Proof.
  refine (@processArxivResponse_all_or_nothing
            (Demo.feed_of
               [("entry", JArray [Edge.entry_one_link; Edge.entry_two_links])])
            [Edge.entry_one_link; Edge.entry_two_links] _
            eq_refl (or_intror (or_introl eq_refl)) (or_introl eq_refl)).
Defined.

(** The link of a paper with an old-style identifier loses the archive. *)
Lemma paper_link_last_segment_witness :
  Page.paper_link Edge.paper_old_style
  = Ok {| Page.href := "https://arxiv.org/abs/9901001v1";
          Page.link_title := JString "An old preprint" |}.
Proof.
  destruct (@paper_link_last_segment
              [ ("id", JString "http://arxiv.org/abs/hep-th/9901001v1");
                ("title", JString "An old preprint");
                ("summary", JString "An abstract.");
                ("author", Demo.named "A. Nonymous");
                ("category", Demo.tagged "hep-th");
                ("published", JString "1999-01-01T00:00:00Z") ]
              "http://arxiv.org/abs/hep-th/9901001v1" eq_refl)
    as [seg (Hlink & _ & _ & Hlast)].
  rewrite (Hlast "http://arxiv.org/abs/hep-th" "9901001v1" eq_refl eq_refl)
    in Hlink.
  exact Hlink.
Defined.

(** Two sample cards clicked one after the other on the fresh page: the
    first request fails, then the second succeeds, and the page shows the
    error card and the result card together. *)
Lemma page_follows_last_event_witness :
  Page.render
    (Page.ui
       (Page.run
          [Page.Clicked 0; Page.Clicked 1;
           Page.Replied 0 (Throw (Error "Failed to fetch"));
           Page.Replied 0
             (Ok {| Page.reply_status := 200;
                    Page.reply_json :=
                      Ok (AnswerBody "An answer." Demo.keywords []) |})]
          Page.fresh))
  = Ok (Some {| Page.input_value :=
                  "How can generative adversarial networks (GANs) be used for data augmentation?";
                Page.button_disabled := false;
                Page.button_label := "Search";
                Page.skeleton := false;
                Page.error_card := Some Page.failure_message;
                Page.answer_card :=
                  Some {| Page.card_answer := Some "An answer.";
                          Page.card_links := [] |} |}).
Proof.
  pose proof (@page_follows_last_event []) as H. cbv zeta in H.
  destruct H as (_ & _ & _ & _ & _ & Hover).
  destruct (Hover 0 1 _ _ _ _
              (Ok {| Page.reply_status := 200;
                     Page.reply_json :=
                       Ok (AnswerBody "An answer." Demo.keywords []) |})
              (Ok {| Page.reply_status := 200;
                     Page.reply_json :=
                       Ok (AnswerBody "An answer." Demo.keywords []) |})
              _ _ _ _ eq_refl eq_refl eq_refl eq_refl eq_refl eq_refl)
    as (_ & _ & Hboth).
  exact (proj2 (Hboth (Error "Failed to fetch"))).
Defined.

(** The page against the route when the index rejects a write. *)
Lemma page_shows_route_outcome_witness :
  Page.ui_error
    (Page.handleSearch "Can cows fly"
       (Ok (Page.served
              (fst (GET (SV := Edge.services)
                      (Edge.searchParams_get
                         (Page.request_url (SV := Edge.services) "Can cows fly"))
                      [] (Edge.start "two" "An answer." Demo.answer_mixed 1)))))
       (Page.mount Page.initial))
  = Some Page.failure_message.
Proof.
  destruct (@page_shows_route_outcome Edge.services Edge.searchParams_get
              (fun searchQuery => eq_refl)
              "Can cows fly" [] (Edge.start "two" "An answer." Demo.answer_mixed 1)
              (Page.mount Page.initial))
    as [_ [(_ & Herr & _)|(answer & keywords & papers & Hresp & _)]].
  - exact Herr.
  - vm_compute in Hresp. discriminate Hresp.
Defined.

(** The empty form on a fresh page. *)
Lemma empty_form_asks_default_question_witness :
  GET (SV := Edge.services)
    (Edge.searchParams_get
       (Page.request_url (SV := Edge.services)
          (Page.ui_query (Page.mount Page.initial))))
    [] (Edge.start "none" "An answer." [] 0)
  = GET (SV := Edge.services) (Some "Can cows grow") []
      (Edge.start "none" "An answer." [] 0).
Proof.
  refine (proj1 (@empty_form_asks_default_question Edge.services
                   Edge.searchParams_get (fun searchQuery => eq_refl)
                   [] (Edge.start "none" "An answer." [] 0)
                   (Throw (Error "Failed to fetch"))
                   (Page.mount Page.initial) eq_refl)).
Defined.
